(** * Ice-RAG chat backend: a shallow embedding of the two server variants

    The repository holds two near-duplicate Express servers, [index.js] and
    a second variant (called [part_000] below).  Each one answers
    [POST /api/chat] either from a PDF-derived vector store or from a general
    completion.  The development embeds

    - the JavaScript string operations the code relies on
      ([toLowerCase], [includes], [join], a global regular-expression
      [replace]);
    - the external collaborators (PDF loader, splitter, embedding store,
      completion API) as an oracle over an abstract world;
    - the module-level [vectorStore] variable, the console and the list of
      external calls as explicit state, with exceptions as a result type;
    - the functions of both files, each in a module of its own, run from
      their first line to their last;
    - the same functions as asynchronous programs that suspend at every
      [await], with the completion content as a string or [null], and the
      process as tasks whose turns interleave.  *)

From Equations Require Import Equations.
From Stdlib Require Import String Ascii List Arith Lia Bool QArith.
Import ListNotations.
Open Scope string_scope.
Open Scope nat_scope.

(** ** JavaScript strings

    A string is a sequence of code units; the model keeps the code units
    below 256 (one [ascii] each), which covers every literal of the source. *)

Module JsString.

Definition nl : string := String "010"%char EmptyString.
Definition dquote : string := String "034"%char EmptyString.
Definition degree : string := String "176"%char EmptyString.

(** [\s] of a regular expression, on code units below 256: TAB, LF, VT,
    FF, CR, SPACE and NO-BREAK SPACE. *)
Definition isWhiteSpace (c : ascii) : bool :=
  let n := nat_of_ascii c in
  ((9 <=? n) && (n <=? 13)) || (n =? 32) || (n =? 160).

(** One code unit of [String.prototype.toLowerCase]: [A-Z] and the
    accented capitals U+00C0..U+00DE (without the sign U+00D7) move up by
    32, every other code unit below 256 stays. *)
Definition lowerChar (c : ascii) : ascii :=
  let n := nat_of_ascii c in
  if ((65 <=? n) && (n <=? 90))
     || ((192 <=? n) && (n <=? 222) && negb (n =? 215))
  then ascii_of_nat (n + 32) else c.

Fixpoint toLowerCase (s : string) : string :=
  match s with
  | EmptyString => EmptyString
  | String c s' => String (lowerChar c) (toLowerCase s')
  end.

(** [s.startsWith(p)], returning what follows the prefix. *)
Fixpoint strip_prefix (p s : string) : option string :=
  match p, s with
  | EmptyString, _ => Some s
  | String a p', String b s' =>
      if Ascii.eqb a b then strip_prefix p' s' else None
  | String _ _, EmptyString => None
  end.

Definition startsWith (s p : string) : bool :=
  match strip_prefix p s with Some _ => true | None => false end.

(** [s.includes(p)]: [p] starts at some index of [s]. *)
Fixpoint includes (s p : string) : bool :=
  startsWith s p
  || match s with
     | EmptyString => false
     | String _ s' => includes s' p
     end.

(** [arr.join(sep)]. *)
Fixpoint join (sep : string) (l : list string) : string :=
  match l with
  | [] => EmptyString
  | [x] => x
  | x :: rest => x ++ sep ++ join sep rest
  end.

(** A template literal written line by line. *)
Definition lines (l : list string) : string := join nl l.

End JsString.
Import JsString.

(** ** The regular expression [/(https?:\/\/[^\s]+)/g]

    [exec_at s] is one attempt of the matcher at the first index of [s]; it
    returns the matched text and what follows it.  The attempt follows the
    backtracking order of the engine: [s?] is greedy, so the branch with the
    [s] is tried first; [[^\s]+] is greedy and is followed by nothing, so it
    takes the whole run of non-blank code units, and fails on an empty run. *)

Module UrlRegex.

Fixpoint span_nonspace (s : string) : string * string :=
  match s with
  | EmptyString => (EmptyString, EmptyString)
  | String c s' =>
      if isWhiteSpace c then (EmptyString, s)
      else let (run, rest) := span_nonspace s' in (String c run, rest)
  end.

(** [:\/\/[^\s]+] after the scheme. *)
Definition match_tail (scheme r : string) : option (string * string) :=
  match strip_prefix "://" r with
  | Some t =>
      match span_nonspace t with
      | (EmptyString, _) => None
      | (run, rest) => Some (scheme ++ "://" ++ run, rest)
      end
  | None => None
  end.

Definition exec_at (s : string) : option (string * string) :=
  match strip_prefix "http" s with
  | None => None
  | Some r =>
      let with_s :=
        match strip_prefix "s" r with
        | Some r' => match_tail "https" r'
        | None => None
        end in
      match with_s with
      | Some m => Some m
      | None => match_tail "http" r
      end
  end.

Lemma strip_prefix_length p : forall s r,
  strip_prefix p s = Some r ->
  String.length s = String.length p + String.length r.
Proof.
  induction p as [|a p IH]; intros s r H; simpl in *.
  - now inversion H.
  - destruct s as [|b s]; [discriminate|].
    destruct (Ascii.eqb a b); [|discriminate].
    simpl. now rewrite (IH _ _ H).
Qed.

Lemma span_nonspace_length s : forall run rest,
  span_nonspace s = (run, rest) ->
  String.length s = String.length run + String.length rest.
Proof.
  induction s as [|c s IH]; intros run rest H; simpl in *.
  - now inversion H.
  - destruct (isWhiteSpace c).
    + now inversion H.
    + destruct (span_nonspace s) as [run' rest'] eqn:E.
      inversion H; subst. simpl. now rewrite (IH _ _ eq_refl).
Qed.

Lemma match_tail_shorter scheme r url rest :
  match_tail scheme r = Some (url, rest) ->
  String.length rest < String.length r.
Proof.
  unfold match_tail.
  destruct (strip_prefix "://" r) as [t|] eqn:E; [|discriminate].
  destruct (span_nonspace t) as [run rest'] eqn:E2.
  destruct run; [discriminate|]. intros H; inversion H; subst.
  apply strip_prefix_length in E. apply span_nonspace_length in E2.
  simpl in *. lia.
Qed.

Lemma exec_at_shorter s url rest :
  exec_at s = Some (url, rest) -> String.length rest < String.length s.
Proof.
  unfold exec_at.
  destruct (strip_prefix "http" s) as [r|] eqn:E; [|discriminate].
  apply strip_prefix_length in E.
  destruct (strip_prefix "s" r) as [r'|] eqn:E1.
  - destruct (match_tail "https" r') as [m|] eqn:E2.
    + intros H; inversion H; subst. apply match_tail_shorter in E2.
      apply strip_prefix_length in E1. simpl in *; lia.
    + intros H. apply match_tail_shorter in H. lia.
  - intros H. apply match_tail_shorter in H. lia.
Qed.

Definition inspect {A} (a : A) : {b : A | a = b} := exist _ a eq_refl.

(** [text.replace(urlRegex, replacer)] with the [g] flag: the matcher is
    tried at every index from left to right; after a match the scan goes
    on behind the matched text, otherwise the code unit is copied and the
    scan moves by one. *)
Equations replace (replacer : string -> string) (s : string) : string
  by wf (String.length s) lt :=
  replace replacer EmptyString := EmptyString;
  replace replacer (String c s') with inspect (exec_at (String c s')) := {
    | exist _ (Some (url, rest)) H => replacer url ++ replace replacer rest;
    | exist _ None H => String c (replace replacer s') }.
Next Obligation. exact (exec_at_shorter _ _ _ H). Qed.

End UrlRegex.

(** ** Values, exceptions and the data exchanged with the services *)

(** A JavaScript value as the handler sees it: a string, or any other
    value (undefined, null, a boolean, a number, an array, an object),
    described by the two observations the code makes of it, its truthiness
    ([!v], [v || d]) and its string conversion (inside a template literal). *)
Inductive jsval : Type :=
| JStr (s : string)
| JOther (truth : bool) (str : string).

Definition undefined : jsval := JOther false "undefined".
Definition null : jsval := JOther false "null".

Definition truthy (v : jsval) : bool :=
  match v with
  | JStr s => negb (String.eqb s "")
  | JOther t _ => t
  end.

Definition toString (v : jsval) : string :=
  match v with
  | JStr s => s
  | JOther _ s => s
  end.

(** A thrown value (an [Error] with its message). *)
Record JsError : Type := mkError { error_message : string }.

Inductive result (A : Type) : Type :=
| Ok (a : A)
| Throw (e : JsError).
Arguments Ok {A} a.
Arguments Throw {A} e.

Definition TypeError (msg : string) : JsError := mkError ("TypeError: " ++ msg).

(** A langchain document; only [pageContent] is read. *)
Record Document : Type := mkDocument { pageContent : string }.

Record SplitterConfig : Type := mkSplitter
  { separator : string; chunkSize : nat; chunkOverlap : nat }.

Record ChatMessage : Type := mkMessage { role : string; content : jsval }.

Record ChatRequest : Type := mkChatRequest
  { model : string; temperature : Q; messages : list ChatMessage }.

(** A completion, read only through [response.choices[0].message.content];
    the service answers a text request with a text. *)
Record ChatCompletion : Type := mkCompletion { first_choice_content : string }.

(** [POST /api/chat]: the parsed JSON body, of which the handler reads the
    [message] property ([undefined] when the body has none). *)
Record Request : Type := mkRequest { body_message : jsval }.

Inductive JsonBody : Type :=
| ErrorBody (error : string)
| AnswerBody (message : string) (source : string).

Record HttpResponse : Type := mkResponse { status : nat; body : JsonBody }.

(** [res.json(b)] and [res.status(n).json(b)]. *)
Definition res_json (b : JsonBody) : HttpResponse := mkResponse 200 b.
Definition res_status_json (n : nat) (b : JsonBody) : HttpResponse :=
  mkResponse n b.

Definition source_of (r : HttpResponse) : option string :=
  match body r with
  | AnswerBody _ src => Some src
  | ErrorBody _ => None
  end.

Definition message_of (r : HttpResponse) : option string :=
  match body r with
  | AnswerBody m _ => Some m
  | ErrorBody _ => None
  end.

(** The external collaborators.  Each call reads and advances the world
    [W] (file system, network, remote models) and either resolves or
    rejects.  [Store] is the [MemoryVectorStore] object. *)
Record Services (W Store : Type) : Type := mkServices
  { loader_load : string -> W -> result (list Document) * W;
    splitter_splitDocuments :
      SplitterConfig -> list Document -> W -> result (list Document) * W;
    store_fromDocuments : list Document -> W -> result Store * W;
    store_similaritySearch :
      Store -> jsval -> nat -> W -> result (option (list Document)) * W;
    completions_create : ChatRequest -> W -> result ChatCompletion * W }.
Arguments loader_load {W Store} _ _ _.
Arguments splitter_splitDocuments {W Store} _ _ _ _.
Arguments store_fromDocuments {W Store} _ _ _.
Arguments store_similaritySearch {W Store} _ _ _ _ _.
Arguments completions_create {W Store} _ _ _.

(** The external calls a run performs, in order. *)
Inductive Call : Type :=
| CallLoad (path : string)
| CallSplit (cfg : SplitterConfig)
| CallFromDocuments (docs : list Document)
| CallSimilaritySearch (query : jsval) (k : nat)
| CallCompletion (req : ChatRequest).

Definition is_ingestion (c : Call) : bool :=
  match c with
  | CallLoad _ | CallSplit _ | CallFromDocuments _ => true
  | _ => false
  end.

Inductive LogLine : Type :=
| ConsoleLog (text : string)
| ConsoleError (text : string) (e : JsError).

(** ** The server process: state and a state-and-exception monad *)

Section Runtime.

Context {W Store : Type}.
Variable svc : Services W Store.

(** [vectorStore] is the module-level [let vectorStore = null]. *)
Record ServerState : Type := mkState
  { vectorStore : option Store;
    world : W;
    calls : list Call;
    console : list LogLine }.

(** A computation runs from a state to a result and a state; what it
    wrote before throwing stays written. *)
Definition M (A : Type) : Type := ServerState -> result A * ServerState.

Definition ret {A} (a : A) : M A := fun st => (Ok a, st).

Definition throw {A} (e : JsError) : M A := fun st => (Throw e, st).

Definition bind {A B} (m : M A) (k : A -> M B) : M B :=
  fun st =>
    match m st with
    | (Ok a, st') => k a st'
    | (Throw e, st') => (Throw e, st')
    end.

(** [try { m } catch (error) { h error }]. *)
Definition try_catch {A} (m : M A) (h : JsError -> M A) : M A :=
  fun st =>
    match m st with
    | (Ok a, st') => (Ok a, st')
    | (Throw e, st') => h e st'
    end.

Definition get_vectorStore : M (option Store) :=
  fun st => (Ok (vectorStore st), st).

Definition set_vectorStore (v : Store) : M unit :=
  fun st => (Ok tt, mkState (Some v) (world st) (calls st) (console st)).

Definition console_log (text : string) : M unit :=
  fun st =>
    (Ok tt, mkState (vectorStore st) (world st) (calls st)
                    (console st ++ [ConsoleLog text])%list).

Definition console_error (text : string) (e : JsError) : M unit :=
  fun st =>
    (Ok tt, mkState (vectorStore st) (world st) (calls st)
                    (console st ++ [ConsoleError text e])%list).

(** [await] of an external call: the call is recorded, the world moves,
    a rejection is thrown at the [await]. *)
Definition external {A} (c : Call) (f : W -> result A * W) : M A :=
  fun st =>
    let (r, w') := f (world st) in
    (r, mkState (vectorStore st) w' (calls st ++ [c])%list (console st)).

Definition PDFLoader_load (path : string) : M (list Document) :=
  external (CallLoad path) (loader_load svc path).

Definition splitDocuments (cfg : SplitterConfig) (docs : list Document)
  : M (list Document) :=
  external (CallSplit cfg) (splitter_splitDocuments svc cfg docs).

Definition MemoryVectorStore_fromDocuments (docs : list Document) : M Store :=
  external (CallFromDocuments docs) (store_fromDocuments svc docs).

Definition similaritySearch (store : Store) (query : jsval) (k : nat)
  : M (option (list Document)) :=
  external (CallSimilaritySearch query k)
           (store_similaritySearch svc store query k).

Definition openai_chat_completions_create (req : ChatRequest)
  : M ChatCompletion :=
  external (CallCompletion req) (completions_create svc req).

(** [results.map(r => r.pageContent).join('\n')]; [results] may be
    [null] or [undefined], on which [.map] throws. *)
Definition results_text (results : option (list Document)) : M string :=
  match results with
  | Some docs => ret (join nl (map pageContent docs))
  | None => throw (TypeError "Cannot read properties of undefined (reading 'map')")
  end.

(** [!results || results.length === 0]. *)
Definition absent_or_empty (results : option (list Document)) : bool :=
  match results with
  | None => true
  | Some docs => List.length docs =? 0
  end.

End Runtime.

Arguments ServerState : clear implicits.
Arguments M : clear implicits.
Arguments mkState {W Store} _ _ _ _.

Declare Scope js_scope.
Delimit Scope js_scope with js.
Notation "x <- m ;; k" := (bind m (fun x => k))
  (at level 61, m at next level, right associativity) : js_scope.
Notation "m ;; k" := (bind m (fun _ => k))
  (at level 61, right associativity) : js_scope.
Open Scope js_scope.

(** ** [index.js] *)

Module IndexJs.

Definition pdf : string := "./faqs.pdf".

Definition customPrompt_temperature : Q := (1 # 2)%Q.

Definition customPrompt_systemPrompt : string :=
  lines
    [ "You are an expert in ice sculptures and ice butchery with decades of experience. Always provide short and brief answers to the user's questions.";
      "";
      "                  RESPONSE GUIDELINES:";
      "                  - Provide a clear and concise answer in no more than 2 sentences.";
      "                  - Use straightforward and professional language, focusing only on the specific question asked.";
      "                  - Avoid unnecessary details, background information, or context references.";
      "";
      "                  Example:";
      "                  Q: " ++ dquote ++ "What temperature should ice be stored at?" ++ dquote;
      "                  A: Ice sculptures should be stored at -10" ++ degree ++ "F (-23" ++ degree ++ "C) for optimal preservation.";
      "";
      "                  Always present us as the leading ice company, showcasing expertise and professionalism." ].

Definition relevance_systemPrompt : string :=
  "Determine if the provided content contains relevant information to answer the question. Respond with only "
  ++ dquote ++ "true" ++ dquote ++ " or " ++ dquote ++ "false" ++ dquote ++ ".".

Definition grounded_systemPrompt : string :=
  "You are an AI assistant. Provide accurate answers based on the given context.".

(** [process.env.PORT || 3000]. *)
Definition PORT (env_PORT : jsval) : jsval :=
  if truthy env_PORT then env_PORT else JOther true "3000".

(** The three objects passed to [openai.chat.completions.create]. *)
Definition general_request (question : jsval) : ChatRequest :=
  mkChatRequest "gpt-4o-mini" (1 # 2)%Q
    [ mkMessage "system" (JStr customPrompt_systemPrompt);
      mkMessage "user" question ].

Definition relevance_request (question : jsval) (text : string) : ChatRequest :=
  mkChatRequest "gpt-4o-mini" 0%Q
    [ mkMessage "system" (JStr relevance_systemPrompt);
      mkMessage "user"
        (JStr ("Question: " ++ toString question ++ nl ++ "Content: " ++ text)) ].

Definition grounded_request (message : jsval) (text : string) : ChatRequest :=
  mkChatRequest "gpt-4o-mini" 0%Q
    [ mkMessage "system" (JStr grounded_systemPrompt);
      mkMessage "user"
        (JStr ("Answer the following question using the provided context:"
               ++ nl ++ "Question: " ++ toString message ++ nl
               ++ "Context: " ++ text)) ].

Section Server.

Context {W Store : Type}.
Variable svc : Services W Store.

(** Lines 35-58. *)
Definition initializePDF : M W Store bool :=
  try_catch
    (loadedDoc <- PDFLoader_load svc pdf ;;
     pdfDocs <- splitDocuments svc (mkSplitter ". " 1000 500) loadedDoc ;;
     store <- MemoryVectorStore_fromDocuments svc pdfDocs ;;
     set_vectorStore store ;;
     console_log "PDF initialization complete" ;;
     ret true)
    (fun error =>
       console_error "Error loading PDF:" error ;;
       ret false).

(** Lines 61-86: the general answer, an object [{content, source}]. *)
Definition getOpenAIResponse (question : jsval) : M W Store (string * string) :=
  try_catch
    (response <- openai_chat_completions_create svc (general_request question) ;;
     ret (first_choice_content response, "OpenAI General Response"))
    (fun error =>
       console_error "Error getting OpenAI response:" error ;;
       throw error).

(** Lines 89-113. *)
Definition isRelevantPDFContent (results : option (list Document))
           (question : jsval) : M W Store bool :=
  if absent_or_empty results then ret false
  else
    try_catch
      (text <- results_text results ;;
       response <- openai_chat_completions_create svc
                     (relevance_request question text) ;;
       ret (includes (toLowerCase (first_choice_content response)) "true"))
      (fun error =>
         console_error "Error checking relevance:" error ;;
         ret false).

(** Lines 130-155: the block under [if (vectorStore)]; [Some r] is the
    early [return res.json(...)], [None] falls through to the general
    answer. *)
Definition grounded_answer (store : Store) (message : jsval)
  : M W Store (option HttpResponse) :=
  results <- similaritySearch svc store message 2 ;;
  isRelevant <- isRelevantPDFContent results message ;;
  if (isRelevant : bool) then
    text <- results_text results ;;
    response <- openai_chat_completions_create svc
                  (grounded_request message text) ;;
    ret (Some (res_json (AnswerBody (first_choice_content response)
                                    "PDF Knowledge Base")))
  else ret None.

(** Lines 125-127: [if (!vectorStore) { await initializePDF(); }]. *)
Definition ensure_vectorStore : M W Store unit :=
  before <- get_vectorStore ;;
  match before with
  | None => initializePDF ;; ret tt
  | Some _ => ret tt
  end.

(** Lines 123-163: the body of the handler's [try]. *)
Definition chat_try (message : jsval) : M W Store HttpResponse :=
  ensure_vectorStore ;;
  current <- get_vectorStore ;;
  early <- (match current with
            | Some store => grounded_answer store message
            | None => ret None
            end) ;;
  match early with
  | Some sent => ret sent
  | None =>
      fallbackResponse <- getOpenAIResponse message ;;
      ret (res_json (AnswerBody (fst fallbackResponse) (snd fallbackResponse)))
  end.

(** Lines 116-168: [app.post('/api/chat', ...)]. *)
Definition chat (req : Request) : M W Store HttpResponse :=
  let message := body_message req in
  if negb (truthy message) then
    ret (res_status_json 400 (ErrorBody "Message is required"))
  else
    try_catch (chat_try message)
      (fun error =>
         console_error "Error processing chat:" error ;;
         ret (res_status_json 500 (ErrorBody "Internal server error"))).

End Server.

End IndexJs.

(** ** The second variant, [part_000] *)

Module Part000.

Definition pdf : string := "./faqs.pdf".

Definition customPrompt_temperature : Q := (1 # 2)%Q.

Definition customPrompt_systemPrompt : string :=
  lines
    [ "You are an expert in ice sculptures and ice butchery with decades of professional experience. Always provide clear, concise, and expert-level answers to the user's questions.";
      "";
      "RESPONSE GUIDELINES:";
      "1. Provide precise answers limited to 2 sentences.";
      "2. Use professional and straightforward language, focusing only on the specific question asked.";
      "3. Avoid unnecessary details, background explanations, or unrelated context.";
      "4. Highlight the expertise of " ++ dquote ++ "The Ice Butcher" ++ dquote ++ " as a leading company in the industry.";
      "";
      "Example Question:";
      "Q: " ++ dquote ++ "What temperature should ice be stored at?" ++ dquote;
      "A: Ice sculptures should be stored at -10" ++ degree ++ "F (-23" ++ degree ++ "C) for optimal preservation.";
      "";
      "- If providing URLs, Always format them without brackets, like this: " ++ dquote ++ "Display Name: URL" ++ dquote ++ ".";
      "    ";
      "    Example:";
      "    Q: " ++ dquote ++ "Can you share the AR link for the seafood table?" ++ dquote;
      "    A: Here is the AR link for the seafood table:";
      "       42" ++ dquote ++ " Seafood Table: https://nexreality.io/ice_sculptures/06/";
      "";
      "Always maintain a professional tone, and include the company name " ++ dquote ++ "The Ice Butcher" ++ dquote ++ " when relevant. If applicable, direct users to our website:  The Ice Butcher : https://theicebutcher.com/" ].

Definition relevance_systemPrompt : string :=
  "Determine if the provided content contains relevant information to answer the question. Respond with only "
  ++ dquote ++ "true" ++ dquote ++ " or " ++ dquote ++ "false" ++ dquote ++ ".".

Definition grounded_systemPrompt : string :=
  "You are an AI assistant. Provide accurate answers based on the given context.".

(** [process.env.PORT || 5000]. *)
Definition PORT (env_PORT : jsval) : jsval :=
  if truthy env_PORT then env_PORT else JOther true "5000".

(** Line 72, the replacer: the anchor element around one matched URL. *)
Definition anchor (url : string) : string :=
  "<a href=" ++ dquote ++ url ++ dquote ++ " target=" ++ dquote ++ "_blank"
  ++ dquote ++ ">" ++ url ++ "</a>".

(** Lines 70-73. *)
Definition formatLinksAsHTML (text : string) : string :=
  UrlRegex.replace anchor text.

(** The three objects passed to [openai.chat.completions.create]. *)
Definition general_request (question : jsval) : ChatRequest :=
  mkChatRequest "gpt-4o-mini" (1 # 2)%Q
    [ mkMessage "system" (JStr customPrompt_systemPrompt);
      mkMessage "user" question ].

Definition relevance_request (question : jsval) (text : string) : ChatRequest :=
  mkChatRequest "gpt-4o-mini" 0%Q
    [ mkMessage "system" (JStr relevance_systemPrompt);
      mkMessage "user"
        (JStr ("Question: " ++ toString question ++ nl ++ "Content: " ++ text)) ].

Definition grounded_request (message : jsval) (text : string) : ChatRequest :=
  mkChatRequest "gpt-4o-mini" 0%Q
    [ mkMessage "system" (JStr grounded_systemPrompt);
      mkMessage "user"
        (JStr ("Answer the following question using the provided context:"
               ++ nl ++ "Question: " ++ toString message ++ nl
               ++ "Context: " ++ text)) ].

Section Server.

Context {W Store : Type}.
Variable svc : Services W Store.

(** Lines 44-67. *)
Definition initializePDF : M W Store bool :=
  try_catch
    (loadedDoc <- PDFLoader_load svc pdf ;;
     pdfDocs <- splitDocuments svc (mkSplitter ". " 1000 500) loadedDoc ;;
     store <- MemoryVectorStore_fromDocuments svc pdfDocs ;;
     set_vectorStore store ;;
     console_log "PDF initialization complete" ;;
     ret true)
    (fun error =>
       console_error "Error loading PDF:" error ;;
       ret false).

(** Lines 76-102: the general answer, with its links rewritten. *)
Definition getOpenAIResponse (question : jsval) : M W Store (string * string) :=
  try_catch
    (response <- openai_chat_completions_create svc (general_request question) ;;
     let formattedContent := formatLinksAsHTML (first_choice_content response) in
     ret (formattedContent, "OpenAI General Response"))
    (fun error =>
       console_error "Error getting OpenAI response:" error ;;
       throw error).

(** Lines 106-130. *)
Definition isRelevantPDFContent (results : option (list Document))
           (question : jsval) : M W Store bool :=
  if absent_or_empty results then ret false
  else
    try_catch
      (text <- results_text results ;;
       response <- openai_chat_completions_create svc
                     (relevance_request question text) ;;
       ret (includes (toLowerCase (first_choice_content response)) "true"))
      (fun error =>
         console_error "Error checking relevance:" error ;;
         ret false).

(** Lines 148-174: the block under [if (vectorStore)]. *)
Definition grounded_answer (store : Store) (message : jsval)
  : M W Store (option HttpResponse) :=
  results <- similaritySearch svc store message 2 ;;
  isRelevant <- isRelevantPDFContent results message ;;
  if (isRelevant : bool) then
    text <- results_text results ;;
    response <- openai_chat_completions_create svc
                  (grounded_request message text) ;;
    let formattedMessage := formatLinksAsHTML (first_choice_content response) in
    ret (Some (res_json (AnswerBody formattedMessage "PDF Knowledge Base")))
  else ret None.

(** Lines 143-145: [if (!vectorStore) { await initializePDF(); }]. *)
Definition ensure_vectorStore : M W Store unit :=
  before <- get_vectorStore ;;
  match before with
  | None => initializePDF ;; ret tt
  | Some _ => ret tt
  end.

(** Lines 141-181: the body of the handler's [try]. *)
Definition chat_try (message : jsval) : M W Store HttpResponse :=
  ensure_vectorStore ;;
  current <- get_vectorStore ;;
  early <- (match current with
            | Some store => grounded_answer store message
            | None => ret None
            end) ;;
  match early with
  | Some sent => ret sent
  | None =>
      fallbackResponse <- getOpenAIResponse message ;;
      ret (res_json (AnswerBody (fst fallbackResponse) (snd fallbackResponse)))
  end.

(** Lines 134-187: [app.post('/api/chat', ...)]. *)
Definition chat (req : Request) : M W Store HttpResponse :=
  let message := body_message req in
  if negb (truthy message) then
    ret (res_status_json 400 (ErrorBody "Message is required"))
  else
    try_catch (chat_try message)
      (fun error =>
         console_error "Error processing chat:" error ;;
         ret (res_status_json 500 (ErrorBody "Internal server error"))).

End Server.

End Part000.

(** ** Requests served one after the other *)

Section Serving.

Context {W Store : Type}.

(** The process handles the requests of a list in order, each handler run
    to its end before the next one starts. *)
Fixpoint serve (handler : Request -> M W Store HttpResponse)
         (reqs : list Request) : M W Store (list HttpResponse) :=
  match reqs with
  | [] => ret []
  | req :: rest =>
      r <- handler req ;;
      rs <- serve handler rest ;;
      ret (r :: rs)
  end.

(** The calls a run added to the record of external calls. *)
Definition new_calls (before after : ServerState W Store) : list Call :=
  skipn (List.length (calls before)) (calls after).

End Serving.

(** ** Scripted services

    A concrete world for running the handlers: every collaborator answers
    from a script; the completion API answers its successive calls from a
    list and rejects once the list is used up. *)

Module Scripted.

Record World : Type := mkWorld
  { load_result : result (list Document);
    split_result : result (list Document);
    embed_result : result unit;
    search_result : result (option (list Document));
    completions : list (result string) }.

Definition next_completion (w : World) : result ChatCompletion * World :=
  match completions w with
  | [] => (Throw (mkError "no reply"), w)
  | r :: rest =>
      (match r with
       | Ok text => Ok (mkCompletion text)
       | Throw e => Throw e
       end,
       mkWorld (load_result w) (split_result w) (embed_result w)
               (search_result w) rest)
  end.

Definition services : Services World unit :=
  mkServices World unit
    (fun _ w => (load_result w, w))
    (fun _ _ w => (split_result w, w))
    (fun _ w => (embed_result w, w))
    (fun _ _ _ w => (search_result w, w))
    (fun _ w => next_completion w).

Definition faq : Document :=
  mkDocument "Ice sculptures should be stored at -10F.".

(** A world where ingestion and retrieval succeed with one chunk. *)
Definition healthy (replies : list (result string)) : World :=
  mkWorld (Ok [faq]) (Ok [faq]) (Ok tt) (Ok (Some [faq])) replies.

Definition boot (w : World) : ServerState World unit := mkState None w [] [].

Definition ready (w : World) : ServerState World unit :=
  mkState (Some tt) w [] [].

End Scripted.

(** * The servers as asynchronous tasks

    The functions above run a handler from its first line to its last.  The
    source is asynchronous: at every [await] a function gives the thread
    back, other handlers run, and the module variable [vectorStore] may
    have changed when it resumes.  This part embeds the same functions as
    programs whose steps are the effects of the code, with the suspension
    points where the source has them, and with the completion content as
    the API types it (string or null).  The two files differ in two places
    only, the general system prompt and what is done with the content of
    the answer, which are the two fields of a [Variant]. *)

Module Async.

(** [response.choices[0].message.content]: a string or [null]. *)
Record Reply : Type := mkReply { reply_content : option string }.

(** The body of a response; [message] is [null] when the content was. *)
Inductive Json : Type :=
| JsonError (error : string)
| JsonAnswer (message : option string) (source : string).

Record Sent : Type := mkSent { sent_status : nat; sent_body : Json }.

Record Variant : Type := mkVariant
  { (* the object passed to the completion API on the general path *)
    general : jsval -> ChatRequest;
    (* the [message] made of the content of the answer *)
    message_from : option string -> result (option string) }.

(** [index.js] sends the content as it is. *)
Definition index_js : Variant :=
  mkVariant IndexJs.general_request (fun content => Ok content).

(** [part_000] passes the content to [formatLinksAsHTML], whose
    [text.replace] throws on [null]. *)
Definition part_000 : Variant :=
  mkVariant Part000.general_request
    (fun content =>
       match content with
       | Some text => Ok (Some (Part000.formatLinksAsHTML text))
       | None =>
           Throw (TypeError "Cannot read properties of null (reading 'replace')")
       end).

Section Programs.

Context {Store : Type}.

(** The external calls, each with the type of what it resolves with. *)
Inductive Ext : Type -> Type :=
| ExtLoad (path : string) : Ext (list Document)
| ExtSplit (cfg : SplitterConfig) (docs : list Document) : Ext (list Document)
| ExtFromDocuments (docs : list Document) : Ext Store
| ExtSimilaritySearch (store : Store) (query : jsval) (k : nat)
  : Ext (option (list Document))
| ExtCompletion (req : ChatRequest) : Ext Reply.

Definition call_of {X} (c : Ext X) : Call :=
  match c with
  | ExtLoad path => CallLoad path
  | ExtSplit cfg _ => CallSplit cfg
  | ExtFromDocuments docs => CallFromDocuments docs
  | ExtSimilaritySearch _ query k => CallSimilaritySearch query k
  | ExtCompletion req => CallCompletion req
  end.

(** A program of the server.  [Await c k] makes the external call [c] and
    suspends until it settles; [Tick k] suspends until the promise of an
    [async] function of the file, already settled, hands over its value;
    the other steps run without giving the thread back. *)
Inductive Prog (A : Type) : Type :=
| Return (r : result A)
| Await {X : Type} (c : Ext X) (k : result X -> Prog A)
| Tick (k : Prog A)
| ReadIndex (k : option Store -> Prog A)
| SetIndex (store : Store) (k : Prog A)
| Console (line : LogLine) (k : Prog A).
Arguments Return {A} r.
Arguments Await {A X} c k.
Arguments Tick {A} k.
Arguments ReadIndex {A} k.
Arguments SetIndex {A} store k.
Arguments Console {A} line k.

Fixpoint bindP {A B} (p : Prog A) (k : A -> Prog B) : Prog B :=
  match p with
  | Return (Ok a) => k a
  | Return (Throw e) => Return (Throw e)
  | Await c h => Await c (fun r => bindP (h r) k)
  | Tick h => Tick (bindP h k)
  | ReadIndex h => ReadIndex (fun v => bindP (h v) k)
  | SetIndex store h => SetIndex store (bindP h k)
  | Console line h => Console line (bindP h k)
  end.

(** [try { p } catch (error) { handler error }]. *)
Fixpoint try_catchP {A} (p : Prog A) (handler : JsError -> Prog A) : Prog A :=
  match p with
  | Return (Ok a) => Return (Ok a)
  | Return (Throw e) => handler e
  | Await c h => Await c (fun r => try_catchP (h r) handler)
  | Tick h => Tick (try_catchP h handler)
  | ReadIndex h => ReadIndex (fun v => try_catchP (h v) handler)
  | SetIndex store h => SetIndex store (try_catchP h handler)
  | Console line h => Console line (try_catchP h handler)
  end.

(** [await f(...)] for an [async] function [f] of the file: the body of
    [f] starts at once and the caller goes on, in a later turn, when [f]
    has returned or thrown. *)
Fixpoint await_async {A} (p : Prog A) : Prog A :=
  match p with
  | Return r => Tick (Return r)
  | Await c h => Await c (fun r => await_async (h r))
  | Tick h => Tick (await_async h)
  | ReadIndex h => ReadIndex (fun v => await_async (h v))
  | SetIndex store h => SetIndex store (await_async h)
  | Console line h => Console line (await_async h)
  end.

Definition retP {A} (a : A) : Prog A := Return (Ok a).
Definition throwP {A} (e : JsError) : Prog A := Return (Throw e).
Definition of_result {A} (r : result A) : Prog A := Return r.

(** [await] of an external promise. *)
Definition await {X} (c : Ext X) : Prog X := Await c (fun r => Return r).

Definition read_vectorStore : Prog (option Store) := ReadIndex (fun v => retP v).
Definition write_vectorStore (store : Store) : Prog unit :=
  SetIndex store (retP tt).
Definition console_logP (text : string) : Prog unit :=
  Console (ConsoleLog text) (retP tt).
Definition console_errorP (text : string) (e : JsError) : Prog unit :=
  Console (ConsoleError text e) (retP tt).

Definition results_textP (results : option (list Document)) : Prog string :=
  match results with
  | Some docs => retP (join nl (map pageContent docs))
  | None =>
      throwP (TypeError "Cannot read properties of undefined (reading 'map')")
  end.

End Programs.

Arguments Ext : clear implicits.
Arguments Prog : clear implicits.
Arguments Return {Store A} r.
Arguments Await {Store A X} c k.
Arguments Tick {Store A} k.
Arguments ReadIndex {Store A} k.
Arguments SetIndex {Store A} store k.
Arguments Console {Store A} line k.

Declare Scope task_scope.
Delimit Scope task_scope with task.
Notation "x <- m ;; k" := (bindP m (fun x => k))
  (at level 61, m at next level, right associativity) : task_scope.
Notation "m ;; k" := (bindP m (fun _ => k))
  (at level 61, right associativity) : task_scope.

Section Server.

Context {Store : Type}.
Variable v : Variant.

Local Open Scope task_scope.

(** [initializePDF], lines 35-58 of [index.js], 44-67 of [part_000]. *)
Definition initializePDF : Prog Store bool :=
  try_catchP
    (loadedDoc <- await (ExtLoad "./faqs.pdf") ;;
     pdfDocs <- await (ExtSplit (mkSplitter ". " 1000 500) loadedDoc) ;;
     store <- await (ExtFromDocuments pdfDocs) ;;
     write_vectorStore store ;;
     console_logP "PDF initialization complete" ;;
     retP true)
    (fun error =>
       console_errorP "Error loading PDF:" error ;;
       retP false).

(** [getOpenAIResponse], lines 61-86 of [index.js], 76-102 of [part_000]. *)
Definition getOpenAIResponse (question : jsval)
  : Prog Store (option string * string) :=
  try_catchP
    (response <- await (ExtCompletion (general v question)) ;;
     content <- of_result (message_from v (reply_content response)) ;;
     retP (content, "OpenAI General Response"))
    (fun error =>
       console_errorP "Error getting OpenAI response:" error ;;
       throwP error).

(** [isRelevantPDFContent], lines 89-113 of [index.js], 106-130 of
    [part_000]; [toLowerCase] throws on a [null] content, inside the
    [try]. *)
Definition isRelevantPDFContent (results : option (list Document))
           (question : jsval) : Prog Store bool :=
  if absent_or_empty results then retP false
  else
    try_catchP
      (text <- results_textP results ;;
       response <- await (ExtCompletion
                            (IndexJs.relevance_request question text)) ;;
       match reply_content response with
       | Some content => retP (includes (toLowerCase content) "true")
       | None =>
           throwP (TypeError
                     "Cannot read properties of null (reading 'toLowerCase')")
       end)
      (fun error =>
         console_errorP "Error checking relevance:" error ;;
         retP false).

(** The block under [if (vectorStore)]. *)
Definition grounded_answer (store : Store) (message : jsval)
  : Prog Store (option Sent) :=
  results <- await (ExtSimilaritySearch store message 2) ;;
  isRelevant <- await_async (isRelevantPDFContent results message) ;;
  if (isRelevant : bool) then
    text <- results_textP results ;;
    response <- await (ExtCompletion
                         (IndexJs.grounded_request message text)) ;;
    answer <- of_result (message_from v (reply_content response)) ;;
    retP (Some (mkSent 200 (JsonAnswer answer "PDF Knowledge Base")))
  else retP None.

(** The body of the handler's [try]. *)
Definition chat_try (message : jsval) : Prog Store Sent :=
  before <- read_vectorStore ;;
  (match before with
   | None => await_async initializePDF ;; retP tt
   | Some _ => retP tt
   end) ;;
  current <- read_vectorStore ;;
  early <- (match current with
            | Some store => grounded_answer store message
            | None => retP None
            end) ;;
  match early with
  | Some sent => retP sent
  | None =>
      fallbackResponse <- await_async (getOpenAIResponse message) ;;
      retP (mkSent 200 (JsonAnswer (fst fallbackResponse)
                                   (snd fallbackResponse)))
  end.

(** [app.post('/api/chat', ...)], lines 116-168 of [index.js], 134-187 of
    [part_000]. *)
Definition chat (req : Request) : Prog Store Sent :=
  let message := body_message req in
  if negb (truthy message) then
    retP (mkSent 400 (JsonError "Message is required"))
  else
    try_catchP (chat_try message)
      (fun error =>
         console_errorP "Error processing chat:" error ;;
         retP (mkSent 500 (JsonError "Internal server error"))).

End Server.

End Async.

(** ** Running a program alone

    [run] runs a program to its end with no other task in between: every
    suspension resumes at once.  On completions that carry a text it gives
    back the handlers of the first part. *)

Section Alone.

Context {W Store : Type}.

(** What each external call does to the world and settles with. *)
Definition Oracle : Type := forall X, Async.Ext Store X -> W -> result X * W.

Fixpoint run {A} (o : Oracle) (p : Async.Prog Store A)
         (st : ServerState W Store) : result A * ServerState W Store :=
  match p with
  | Async.Return r => (r, st)
  | Async.Await c k =>
      let (r, w') := o _ c (world st) in
      run o (k r)
          (mkState (vectorStore st) w' (calls st ++ [Async.call_of c])%list
                   (console st))
  | Async.Tick k => run o k st
  | Async.ReadIndex k => run o (k (vectorStore st)) st
  | Async.SetIndex store k =>
      run o k (mkState (Some store) (world st) (calls st) (console st))
  | Async.Console line k =>
      run o k (mkState (vectorStore st) (world st) (calls st)
                       (console st ++ [line])%list)
  end.

(** The services of the first part as an oracle: their completions carry
    a text. *)
Definition oracle_of (svc : Services W Store) : Oracle :=
  fun X c =>
    match c in Async.Ext _ X return W -> result X * W with
    | Async.ExtLoad path => loader_load svc path
    | Async.ExtSplit cfg docs => splitter_splitDocuments svc cfg docs
    | Async.ExtFromDocuments docs => store_fromDocuments svc docs
    | Async.ExtSimilaritySearch store query k =>
        store_similaritySearch svc store query k
    | Async.ExtCompletion req =>
        fun w =>
          let (r, w') := completions_create svc req w in
          (match r with
           | Ok completion =>
               Ok (Async.mkReply (Some (first_choice_content completion)))
           | Throw e => Throw e
           end, w')
    end.

Definition sent_of (r : HttpResponse) : Async.Sent :=
  Async.mkSent (status r)
    (match body r with
     | ErrorBody error => Async.JsonError error
     | AnswerBody message source => Async.JsonAnswer (Some message) source
     end).

Definition sent_of_outcome (x : result HttpResponse * ServerState W Store)
  : result Async.Sent * ServerState W Store :=
  (match fst x with
   | Ok r => Ok (sent_of r)
   | Throw e => Throw e
   end, snd x).

End Alone.

(** A completion service that answers from a queue of replies, each a
    text, [null] or a failure; the other services always resolve. *)
Module Canned.

Definition World : Type := list (result (option string)).

Definition next_reply (w : World) : result Async.Reply * World :=
  match w with
  | [] => (Throw (mkError "no reply"), [])
  | r :: rest =>
      (match r with
       | Ok content => Ok (Async.mkReply content)
       | Throw e => Throw e
       end, rest)
  end.

Definition oracle : @Oracle World unit :=
  fun X c =>
    match c in Async.Ext _ X return World -> result X * World with
    | Async.ExtLoad _ => fun w => (Ok [Scripted.faq], w)
    | Async.ExtSplit _ docs => fun w => (Ok docs, w)
    | Async.ExtFromDocuments _ => fun w => (Ok tt, w)
    | Async.ExtSimilaritySearch _ _ _ => fun w => (Ok (Some [Scripted.faq]), w)
    | Async.ExtCompletion _ => next_reply
    end.

Definition boot (w : World) : ServerState World unit := mkState None w [] [].

End Canned.

(** * Properties *)

(** ** Strings *)

Lemma strip_prefix_app p : forall s r,
  strip_prefix p s = Some r <-> s = p ++ r.
Proof.
  induction p as [|a p IH]; intros s r; simpl.
  - split; intros H; [now inversion H | now subst].
  - destruct s as [|b s].
    + split; discriminate.
    + destruct (Ascii.eqb_spec a b) as [->|Hne].
      * rewrite IH. split; intros H; [now subst | now inversion H].
      * split; [discriminate|]. intros H; inversion H; congruence.
Qed.

Lemma startsWith_app s p :
  startsWith s p = true <-> exists post, s = p ++ post.
Proof.
  unfold startsWith. split.
  - destruct (strip_prefix p s) as [r|] eqn:E; [|discriminate].
    intros _. exists r. now apply strip_prefix_app.
  - intros [post ->].
    now rewrite (proj2 (strip_prefix_app p (p ++ post) post) eq_refl).
Qed.

Lemma includes_cons c s p :
  includes (String c s) p = startsWith (String c s) p || includes s p.
Proof. reflexivity. Qed.

(** [includes] is the substring relation. *)
Lemma includes_substring s p :
  includes s p = true <-> exists pre post, s = pre ++ p ++ post.
Proof.
  induction s as [|c s IH].
  - simpl. rewrite orb_false_r, startsWith_app. split.
    + intros [post H]. now exists "", post.
    + intros [pre [post H]]. destruct pre; [now exists post | discriminate].
  - rewrite includes_cons, orb_true_iff, startsWith_app, IH. split.
    + intros [[post H] | [pre [post H]]].
      * now exists "", post.
      * exists (String c pre), post. simpl. now rewrite H.
    + intros [pre [post H]]. destruct pre as [|a pre].
      * left. now exists post.
      * right. exists pre, post. simpl in H. now inversion H.
Qed.

(** ** Running the monad *)

Ltac unfold_monad :=
  cbv beta iota zeta delta
    [bind try_catch ret throw get_vectorStore set_vectorStore
     console_log console_error PDFLoader_load splitDocuments
     MemoryVectorStore_fromDocuments similaritySearch
     openai_chat_completions_create external results_text] in *.

(** Case analysis on the next outcome the goal branches on. *)
Ltac next_outcome :=
  match goal with
  | |- context [match ?x with _ => _ end] =>
      match x with
      | context [match _ with _ => _ end] => fail 1
      | _ => destruct x eqn:?
      end
  | |- context [if ?x then _ else _] =>
      match x with
      | context [match _ with _ => _ end] => fail 1
      | _ => destruct x eqn:?
      end
  end.

Ltac run := unfold_monad; repeat (cbn [fst snd vectorStore world calls console]; next_outcome).

Section Classifier.

Context {W Store : Type}.
Variable svc : Services W Store.

Lemma absent_or_empty_cons d docs :
  absent_or_empty (Some (d :: docs)) = false.
Proof. reflexivity. Qed.

Lemma isRelevant_same results q :
  Part000.isRelevantPDFContent svc results q
  = IndexJs.isRelevantPDFContent svc results q.
Proof. reflexivity. Qed.

(** With chunks at hand the classifier makes one completion call and
    turns its outcome into a boolean. *)
Lemma isRelevant_run d docs q (st : ServerState W Store) :
  let text := join nl (map pageContent (d :: docs)) in
  let req := IndexJs.relevance_request q text in
  IndexJs.isRelevantPDFContent svc (Some (d :: docs)) q st
  = match completions_create svc req (world st) with
    | (Ok response, w') =>
        (Ok (includes (toLowerCase (first_choice_content response)) "true"),
         mkState (vectorStore st) w' (calls st ++ [CallCompletion req])%list
                 (console st))
    | (Throw e, w') =>
        (Ok false,
         mkState (vectorStore st) w' (calls st ++ [CallCompletion req])%list
                 (console st ++ [ConsoleError "Error checking relevance:" e])%list)
    end.
Proof.
  intros text req. unfold IndexJs.isRelevantPDFContent.
  rewrite absent_or_empty_cons. unfold_monad. fold text req.
  destruct (completions_create svc req (world st)) as [[response|e] w'];
    reflexivity.
Qed.

End Classifier.

Lemma new_calls_app {W Store} (st st' : ServerState W Store) added :
  calls st' = (calls st ++ added)%list -> new_calls st st' = added.
Proof.
  unfold new_calls. intros ->.
  rewrite skipn_app, skipn_all, Nat.sub_diag. reflexivity.
Qed.

Section Handler.

Context {W Store : Type}.
Variable svc : Services W Store.

(** A falsy [message] is answered before the [try] is entered. *)
Lemma chat_falsy req (st : ServerState W Store) :
  truthy (body_message req) = false ->
  IndexJs.chat svc req st
  = (Ok (mkResponse 400 (ErrorBody "Message is required")), st)
  /\ Part000.chat svc req st
     = (Ok (mkResponse 400 (ErrorBody "Message is required")), st).
Proof.
  intros H. unfold IndexJs.chat, Part000.chat. rewrite H. now split.
Qed.

End Handler.

(** C2.  A request whose [message] is missing ([undefined]) or the empty
    string gets status 400 with body [{ error: 'Message is required' }], in
    both variants, and the state of the process, which holds the record of
    external calls, is what it was: no ingestion, no similarity search and
    no completion call has been made. *)
Theorem chat_message_required {W Store} (svc : Services W Store)
        (req : Request) (st : ServerState W Store) :
  body_message req = undefined \/ body_message req = JStr "" ->
  (IndexJs.chat svc req st
   = (Ok (mkResponse 400 (ErrorBody "Message is required")), st)
   /\ new_calls st (snd (IndexJs.chat svc req st)) = [])
  /\ (Part000.chat svc req st
      = (Ok (mkResponse 400 (ErrorBody "Message is required")), st)
      /\ new_calls st (snd (Part000.chat svc req st)) = []).
Proof.
  intros H.
  assert (Hf : truthy (body_message req) = false)
    by (destruct H as [-> | ->]; reflexivity).
  destruct (chat_falsy svc req st Hf) as [Hi Hp].
  rewrite Hi, Hp. cbn [snd].
  assert (Hn : new_calls st st = [])
    by (apply new_calls_app; now rewrite app_nil_r).
  repeat split; exact Hn.
Qed.

Lemma chat_message_required_witness :
  let st := Scripted.boot (Scripted.healthy [Ok "true"; Ok "an answer"]) in
  IndexJs.chat Scripted.services (mkRequest (JStr "")) st
  = (Ok (mkResponse 400 (ErrorBody "Message is required")), st).
Proof.
  intros st.
  exact (proj1 (proj1 (chat_message_required Scripted.services
                         (mkRequest (JStr "")) st (or_intror eq_refl)))).
Defined.

(** C5.  Called with an absent ([null], [undefined]) or empty chunk list,
    the relevance classifier of both variants returns [false] and leaves
    the state, and with it the record of external calls, as it was: the
    completion model is not called. *)
Theorem isRelevantPDFContent_no_chunks {W Store} (svc : Services W Store)
        (results : option (list Document)) (question : jsval)
        (st : ServerState W Store) :
  results = None \/ results = Some [] ->
  IndexJs.isRelevantPDFContent svc results question st = (Ok false, st)
  /\ Part000.isRelevantPDFContent svc results question st = (Ok false, st).
Proof.
  intros [-> | ->]; split; reflexivity.
Qed.

Lemma isRelevantPDFContent_no_chunks_witness :
  let st := Scripted.ready (Scripted.healthy [Ok "true"]) in
  IndexJs.isRelevantPDFContent Scripted.services (Some []) (JStr "Is ice cold?") st
  = (Ok false, st).
Proof.
  intros st.
  exact (proj1 (isRelevantPDFContent_no_chunks Scripted.services (Some [])
                  (JStr "Is ice cold?") st (or_intror eq_refl))).
Defined.

(** C4.  With a non-empty chunk list, when the completion call of the
    classifier resolves with [response], the classifier of both variants
    returns a boolean that is [true] exactly when the lowercased text of
    the response contains the substring [true]; every other text gives
    [false]. *)
Theorem isRelevantPDFContent_true_iff {W Store} (svc : Services W Store)
        (docs : list Document) (question : jsval) (st : ServerState W Store)
        (response : ChatCompletion) (w' : W) :
  docs <> [] ->
  completions_create svc
    (IndexJs.relevance_request question (join nl (map pageContent docs)))
    (world st) = (Ok response, w') ->
  exists b : bool,
    fst (IndexJs.isRelevantPDFContent svc (Some docs) question st) = Ok b
    /\ fst (Part000.isRelevantPDFContent svc (Some docs) question st) = Ok b
    /\ (b = true <->
        exists pre post,
          toLowerCase (first_choice_content response) = pre ++ "true" ++ post).
Proof.
  intros Hne Hcall. destruct docs as [|d docs]; [congruence|].
  exists (includes (toLowerCase (first_choice_content response)) "true").
  change (Part000.isRelevantPDFContent svc (Some (d :: docs)) question st)
    with (IndexJs.isRelevantPDFContent svc (Some (d :: docs)) question st).
  rewrite isRelevant_run. cbv zeta. rewrite Hcall.
  repeat split; apply includes_substring.
Qed.

Lemma isRelevantPDFContent_true_iff_witness :
  exists b : bool,
    fst (IndexJs.isRelevantPDFContent Scripted.services (Some [Scripted.faq])
           (JStr "How cold?") (Scripted.ready (Scripted.healthy [Ok "True."])))
    = Ok b
    /\ b = true.
Proof.
  destruct (isRelevantPDFContent_true_iff Scripted.services [Scripted.faq]
              (JStr "How cold?")
              (Scripted.ready (Scripted.healthy [Ok "True."]))
              (mkCompletion "True.") (Scripted.healthy []))
    as [b [Hi [_ Hb]]].
  - discriminate.
  - reflexivity.
  - exists b. split; [exact Hi|]. apply Hb. now exists "", ".".
Defined.

Ltac unfold_index :=
  unfold IndexJs.chat, IndexJs.chat_try, IndexJs.ensure_vectorStore,
    IndexJs.grounded_answer, IndexJs.getOpenAIResponse,
    IndexJs.isRelevantPDFContent, IndexJs.initializePDF in *.

Ltac unfold_part :=
  unfold Part000.chat, Part000.chat_try, Part000.ensure_vectorStore,
    Part000.grounded_answer, Part000.getOpenAIResponse,
    Part000.isRelevantPDFContent, Part000.initializePDF in *.

Lemma truthy_nonempty s : s <> "" -> truthy (JStr s) = true.
Proof.
  intros H. simpl. destruct (String.eqb_spec s ""); [contradiction|reflexivity].
Qed.

(** The two answers of a successful request and the generic failure. *)
Definition internal_server_error : HttpResponse :=
  mkResponse 500 (ErrorBody "Internal server error").

Definition pdf_answer (r : HttpResponse) : Prop :=
  exists m, r = mkResponse 200 (AnswerBody m "PDF Knowledge Base").

Definition general_answer (r : HttpResponse) : Prop :=
  exists m, r = mkResponse 200 (AnswerBody m "OpenAI General Response").

(** Exactly one of the two [source] values. *)
Definition one_source (r : HttpResponse) : Prop :=
  (source_of r = Some "PDF Knowledge Base"
   /\ source_of r <> Some "OpenAI General Response")
  \/ (source_of r = Some "OpenAI General Response"
      /\ source_of r <> Some "PDF Knowledge Base").

Lemma pdf_answer_one_source r : pdf_answer r -> one_source r.
Proof. intros [m ->]. left. split; [reflexivity|discriminate]. Qed.

Lemma general_answer_one_source r : general_answer r -> one_source r.
Proof. intros [m ->]. right. split; [reflexivity|discriminate]. Qed.

Section Outcomes.

Context {W Store : Type}.
Variable svc : Services W Store.

(** The handler around the [try]: a response whatever happens. *)
Lemma index_chat_truthy req (st : ServerState W Store) :
  truthy (body_message req) = true ->
  IndexJs.chat svc req st
  = match IndexJs.chat_try svc (body_message req) st with
    | (Ok sent, st') => (Ok sent, st')
    | (Throw e, st') =>
        (Ok internal_server_error,
         mkState (vectorStore st') (world st') (calls st')
                 (console st' ++ [ConsoleError "Error processing chat:" e])%list)
    end.
Proof.
  intros H. unfold IndexJs.chat. rewrite H. cbn [negb]. unfold try_catch.
  destruct (IndexJs.chat_try svc (body_message req) st) as [[sent|e] st'];
    reflexivity.
Qed.

Lemma part_chat_truthy req (st : ServerState W Store) :
  truthy (body_message req) = true ->
  Part000.chat svc req st
  = match Part000.chat_try svc (body_message req) st with
    | (Ok sent, st') => (Ok sent, st')
    | (Throw e, st') =>
        (Ok internal_server_error,
         mkState (vectorStore st') (world st') (calls st')
                 (console st' ++ [ConsoleError "Error processing chat:" e])%list)
    end.
Proof.
  intros H. unfold Part000.chat. rewrite H. cbn [negb]. unfold try_catch.
  destruct (Part000.chat_try svc (body_message req) st) as [[sent|e] st'];
    reflexivity.
Qed.

End Outcomes.

Section Totality.

Context {W Store : Type}.
Variable svc : Services W Store.

(** Every request gets exactly one response: the handler never throws. *)
Lemma index_chat_total req (st : ServerState W Store) :
  exists r, fst (IndexJs.chat svc req st) = Ok r.
Proof.
  destruct (truthy (body_message req)) eqn:Hm.
  - rewrite (index_chat_truthy svc req st Hm).
    destruct (IndexJs.chat_try svc (body_message req) st) as [[r|e] st'];
      eexists; reflexivity.
  - destruct (chat_falsy svc req st Hm) as [-> _]. eexists; reflexivity.
Qed.

Lemma part_chat_total req (st : ServerState W Store) :
  exists r, fst (Part000.chat svc req st) = Ok r.
Proof.
  destruct (truthy (body_message req)) eqn:Hm.
  - rewrite (part_chat_truthy svc req st Hm).
    destruct (Part000.chat_try svc (body_message req) st) as [[r|e] st'];
      eexists; reflexivity.
  - destruct (chat_falsy svc req st Hm) as [_ ->]. eexists; reflexivity.
Qed.

End Totality.

(** ** The index variable: what a step may do to it *)

Section Quiet.

Context {W Store : Type}.
Variable svc : Services W Store.

Definition no_ingestion (added : list Call) : bool :=
  forallb (fun c => negb (is_ingestion c)) added.

(** [st'] comes after [st] in a run that left [vectorStore] alone and
    called neither the loader, nor the splitter, nor the embedding store. *)
Definition extends (st st' : ServerState W Store) : Prop :=
  vectorStore st' = vectorStore st
  /\ exists added, calls st' = (calls st ++ added)%list
                   /\ no_ingestion added = true.

Definition quiet {A} (m : M W Store A) : Prop :=
  forall st, extends st (snd (m st)).

Lemma extends_refl st : extends st st.
Proof. split; [reflexivity|]. exists []. now rewrite app_nil_r. Qed.

Lemma extends_trans st1 st2 st3 :
  extends st1 st2 -> extends st2 st3 -> extends st1 st3.
Proof.
  intros [Hv1 [a1 [Hc1 Hn1]]] [Hv2 [a2 [Hc2 Hn2]]]. split; [congruence|].
  exists (a1 ++ a2)%list. split.
  - now rewrite Hc2, Hc1, app_assoc.
  - unfold no_ingestion in *. now rewrite forallb_app, Hn1, Hn2.
Qed.

Lemma quiet_ret {A} (a : A) : quiet (ret a).
Proof. intros st. apply extends_refl. Qed.

Lemma quiet_throw {A} e : quiet (@throw W Store A e).
Proof. intros st. apply extends_refl. Qed.

Lemma quiet_bind {A B} (m : M W Store A) (k : A -> M W Store B) :
  quiet m -> (forall a, quiet (k a)) -> quiet (bind m k).
Proof.
  intros Hm Hk st. unfold bind. specialize (Hm st).
  destruct (m st) as [[a|e] st1]; cbn in *; [|exact Hm].
  eapply extends_trans; [exact Hm | apply Hk].
Qed.

Lemma quiet_try_catch {A} (m : M W Store A) (h : JsError -> M W Store A) :
  quiet m -> (forall e, quiet (h e)) -> quiet (try_catch m h).
Proof.
  intros Hm Hh st. unfold try_catch. specialize (Hm st).
  destruct (m st) as [[a|e] st1]; cbn in *; [exact Hm|].
  eapply extends_trans; [exact Hm | apply Hh].
Qed.

Lemma quiet_console_error text e : quiet (@console_error W Store text e).
Proof. intros st. split; [reflexivity|]. exists []. now rewrite app_nil_r. Qed.

Lemma quiet_external {A} c (f : W -> result A * W) :
  is_ingestion c = false -> quiet (external c f).
Proof.
  intros Hc st. unfold external. destruct (f (world st)) as [r w'].
  split; [reflexivity|]. exists [c]. split; [reflexivity|].
  cbn. now rewrite Hc.
Qed.

Lemma quiet_results_text results : quiet (@results_text W Store results).
Proof. destruct results; [apply quiet_ret | apply quiet_throw]. Qed.

Create HintDb quiet.

#[local] Hint Resolve quiet_ret quiet_throw quiet_console_error quiet_results_text
  : quiet.

Ltac quiet_steps :=
  repeat first
    [ apply quiet_bind; [|intros ?]
    | apply quiet_try_catch; [|intros ?]
    | apply quiet_external; reflexivity
    | solve [auto with quiet] ].

Lemma quiet_isRelevant results q :
  quiet (IndexJs.isRelevantPDFContent svc results q).
Proof.
  unfold IndexJs.isRelevantPDFContent.
  destruct (absent_or_empty results); quiet_steps.
Qed.

Lemma quiet_index_general q : quiet (IndexJs.getOpenAIResponse svc q).
Proof. unfold IndexJs.getOpenAIResponse. quiet_steps. Qed.

Lemma quiet_part_general q : quiet (Part000.getOpenAIResponse svc q).
Proof. unfold Part000.getOpenAIResponse. quiet_steps. Qed.

Lemma quiet_index_grounded store msg :
  quiet (IndexJs.grounded_answer svc store msg).
Proof.
  unfold IndexJs.grounded_answer, similaritySearch,
    openai_chat_completions_create.
  apply quiet_bind; [apply quiet_external; reflexivity | intros results].
  apply quiet_bind; [apply quiet_isRelevant | intros [|]]; quiet_steps.
Qed.

Lemma quiet_part_grounded store msg :
  quiet (Part000.grounded_answer svc store msg).
Proof.
  unfold Part000.grounded_answer, similaritySearch,
    openai_chat_completions_create.
  apply quiet_bind; [apply quiet_external; reflexivity | intros results].
  apply quiet_bind; [apply (quiet_isRelevant results msg) | intros [|]];
    quiet_steps.
Qed.

(** *** Ingestion *)

Lemma initialize_same :
  Part000.initializePDF svc = IndexJs.initializePDF svc.
Proof. reflexivity. Qed.

Lemma ensure_same :
  Part000.ensure_vectorStore svc = IndexJs.ensure_vectorStore svc.
Proof. reflexivity. Qed.

(** [initializePDF] swallows every exception; it answers [true] with the
    variable set, or [false] with the variable as it was; its first
    external call is the load of the PDF. *)
Lemma initializePDF_run (st : ServerState W Store) :
  exists b st' rest,
    IndexJs.initializePDF svc st = (Ok b, st')
    /\ calls st' = (calls st ++ CallLoad IndexJs.pdf :: rest)%list
    /\ (if b then exists store, vectorStore st' = Some store
        else vectorStore st' = vectorStore st).
Proof.
  unfold IndexJs.initializePDF. unfold_monad.
  destruct (loader_load svc IndexJs.pdf (world st)) as [[docs|e] w1];
    cbn [world calls vectorStore console].
  2:{ exists false. do 2 eexists. repeat split; reflexivity. }
  destruct (splitter_splitDocuments svc _ docs w1) as [[chunks|e] w2];
    cbn [world calls vectorStore console].
  2:{ exists false. do 2 eexists. rewrite <- app_assoc.
      repeat split; reflexivity. }
  destruct (store_fromDocuments svc chunks w2) as [[store|e] w3];
    cbn [world calls vectorStore console].
  - exists true. do 2 eexists. rewrite <- !app_assoc.
    repeat split; try reflexivity. now exists store.
  - exists false. do 2 eexists. rewrite <- !app_assoc.
    repeat split; reflexivity.
Qed.

Lemma ensure_ready store (st : ServerState W Store) :
  vectorStore st = Some store ->
  IndexJs.ensure_vectorStore svc st = (Ok tt, st).
Proof.
  intros H. unfold IndexJs.ensure_vectorStore, bind, get_vectorStore.
  now rewrite H.
Qed.

Lemma ensure_unset (st : ServerState W Store) :
  vectorStore st = None ->
  IndexJs.ensure_vectorStore svc st
  = (Ok tt, snd (IndexJs.initializePDF svc st)).
Proof.
  intros H. unfold IndexJs.ensure_vectorStore, bind, get_vectorStore, ret.
  rewrite H. destruct (initializePDF_run st) as [b [st' [rest [-> _]]]].
  reflexivity.
Qed.

Lemma ensure_ok (st : ServerState W Store) :
  fst (IndexJs.ensure_vectorStore svc st) = Ok tt.
Proof.
  destruct (vectorStore st) as [store|] eqn:E.
  - now rewrite (ensure_ready store).
  - now rewrite ensure_unset.
Qed.

(** *** The body of the [try], step by step *)

Definition index_fallback (msg : jsval) : M W Store HttpResponse :=
  fallbackResponse <- IndexJs.getOpenAIResponse svc msg ;;
  ret (res_json (AnswerBody (fst fallbackResponse) (snd fallbackResponse))).

Definition part_fallback (msg : jsval) : M W Store HttpResponse :=
  fallbackResponse <- Part000.getOpenAIResponse svc msg ;;
  ret (res_json (AnswerBody (fst fallbackResponse) (snd fallbackResponse))).

(** After the index check: retrieval and grounded answer when the variable
    is set, the general answer otherwise or when the block falls through. *)
Definition index_after_check (msg : jsval) : M W Store HttpResponse :=
  fun st1 =>
    match vectorStore st1 with
    | Some store =>
        match IndexJs.grounded_answer svc store msg st1 with
        | (Ok (Some sent), st2) => (Ok sent, st2)
        | (Ok None, st2) => index_fallback msg st2
        | (Throw e, st2) => (Throw e, st2)
        end
    | None => index_fallback msg st1
    end.

Definition part_after_check (msg : jsval) : M W Store HttpResponse :=
  fun st1 =>
    match vectorStore st1 with
    | Some store =>
        match Part000.grounded_answer svc store msg st1 with
        | (Ok (Some sent), st2) => (Ok sent, st2)
        | (Ok None, st2) => part_fallback msg st2
        | (Throw e, st2) => (Throw e, st2)
        end
    | None => part_fallback msg st1
    end.

Lemma index_chat_try_steps msg (st : ServerState W Store) :
  IndexJs.chat_try svc msg st
  = index_after_check msg (snd (IndexJs.ensure_vectorStore svc st)).
Proof.
  unfold IndexJs.chat_try, bind at 1.
  pose proof (ensure_ok st) as Hok.
  destruct (IndexJs.ensure_vectorStore svc st) as [r st1]. cbn in Hok. subst r.
  cbn [snd]. unfold index_after_check, bind at 1, get_vectorStore.
  destruct (vectorStore st1) as [store|]; unfold bind at 1.
  - destruct (IndexJs.grounded_answer svc store msg st1) as [[[sent|]|e] st2];
      reflexivity.
  - reflexivity.
Qed.

Lemma part_chat_try_steps msg (st : ServerState W Store) :
  Part000.chat_try svc msg st
  = part_after_check msg (snd (IndexJs.ensure_vectorStore svc st)).
Proof.
  unfold Part000.chat_try, bind at 1. rewrite ensure_same.
  pose proof (ensure_ok st) as Hok.
  destruct (IndexJs.ensure_vectorStore svc st) as [r st1]. cbn in Hok. subst r.
  cbn [snd]. unfold part_after_check, bind at 1, get_vectorStore.
  destruct (vectorStore st1) as [store|]; unfold bind at 1.
  - destruct (Part000.grounded_answer svc store msg st1) as [[[sent|]|e] st2];
      reflexivity.
  - reflexivity.
Qed.

Lemma quiet_index_after_check msg : quiet (index_after_check msg).
Proof.
  intros st. unfold index_after_check.
  assert (Hf : quiet (index_fallback msg)).
  { unfold index_fallback. apply quiet_bind;
      [apply quiet_index_general | intros; apply quiet_ret]. }
  destruct (vectorStore st) as [store|] eqn:E; [|apply Hf].
  pose proof (quiet_index_grounded store msg st) as Hg.
  destruct (IndexJs.grounded_answer svc store msg st) as [[[sent|]|e] st2];
    cbn in *; try exact Hg.
  eapply extends_trans; [exact Hg | apply Hf].
Qed.

Lemma quiet_part_after_check msg : quiet (part_after_check msg).
Proof.
  intros st. unfold part_after_check.
  assert (Hf : quiet (part_fallback msg)).
  { unfold part_fallback. apply quiet_bind;
      [apply quiet_part_general | intros; apply quiet_ret]. }
  destruct (vectorStore st) as [store|] eqn:E; [|apply Hf].
  pose proof (quiet_part_grounded store msg st) as Hg.
  destruct (Part000.grounded_answer svc store msg st) as [[[sent|]|e] st2];
    cbn in *; try exact Hg.
  eapply extends_trans; [exact Hg | apply Hf].
Qed.

End Quiet.

(** ** The index state over a sequence of requests *)

Section IndexState.

Context {W Store : Type}.
Variable svc : Services W Store.

Lemma extends_log (st : ServerState W Store) text e :
  extends st (mkState (vectorStore st) (world st) (calls st)
                      (console st ++ [ConsoleError text e])%list).
Proof. split; [reflexivity|]. exists []. now rewrite app_nil_r. Qed.

(** Whatever the request, the handler ends in the state where the index
    check followed by the rest of the [try] ended, up to a console line;
    a falsy message leaves the state alone. *)
Lemma index_chat_extends req (st : ServerState W Store) :
  truthy (body_message req) = true ->
  extends (snd (IndexJs.ensure_vectorStore svc st))
          (snd (IndexJs.chat svc req st)).
Proof.
  intros Hm. rewrite (index_chat_truthy svc req st Hm), index_chat_try_steps.
  pose proof (quiet_index_after_check svc (body_message req)
                (snd (IndexJs.ensure_vectorStore svc st))) as Hq.
  destruct (index_after_check svc (body_message req) _) as [[sent|e] st'];
    cbn [snd] in *; [exact Hq|].
  eapply extends_trans; [exact Hq | apply extends_log].
Qed.

Lemma part_chat_extends req (st : ServerState W Store) :
  truthy (body_message req) = true ->
  extends (snd (IndexJs.ensure_vectorStore svc st))
          (snd (Part000.chat svc req st)).
Proof.
  intros Hm. rewrite (part_chat_truthy svc req st Hm), part_chat_try_steps.
  pose proof (quiet_part_after_check svc (body_message req)
                (snd (IndexJs.ensure_vectorStore svc st))) as Hq.
  destruct (part_after_check svc (body_message req) _) as [[sent|e] st'];
    cbn [snd] in *; [exact Hq|].
  eapply extends_trans; [exact Hq | apply extends_log].
Qed.

(** The three facts about the variable, for a handler [chat] whose index
    check is [IndexJs.ensure_vectorStore] (both variants have the same). *)
Record index_discipline (chat : Request -> M W Store HttpResponse) : Prop :=
  { (* once set, set for good, and no request ingests again *)
    ready_stays : forall reqs st store,
      vectorStore st = Some store ->
      vectorStore (snd (serve chat reqs st)) = Some store
      /\ no_ingestion (new_calls st (snd (serve chat reqs st))) = true;
    (* a failed ingestion leaves the variable unset *)
    failure_stays : forall req st,
      vectorStore st = None ->
      fst (IndexJs.initializePDF svc st) = Ok false ->
      vectorStore (snd (chat req st)) = None;
    (* unset: a request that passes the message check ingests again *)
    unset_retries : forall req st,
      vectorStore st = None ->
      truthy (body_message req) = true ->
      exists rest,
        new_calls st (snd (chat req st)) = CallLoad "./faqs.pdf" :: rest }.

Lemma discipline_of_extends (chat : Request -> M W Store HttpResponse) :
  (forall req st, truthy (body_message req) = false -> snd (chat req st) = st) ->
  (forall req st, truthy (body_message req) = true ->
                  extends (snd (IndexJs.ensure_vectorStore svc st))
                          (snd (chat req st))) ->
  (forall req st, exists r, fst (chat req st) = Ok r) ->
  index_discipline chat.
Proof.
  intros Hfalsy Htruthy Htotal.
  assert (Hready : forall req st store,
             vectorStore st = Some store -> extends st (snd (chat req st))).
  { intros req st store Hs.
    destruct (truthy (body_message req)) eqn:Hm.
    - specialize (Htruthy req st Hm).
      now rewrite (ensure_ready svc store st Hs) in Htruthy.
    - rewrite (Hfalsy req st Hm). apply extends_refl. }
  split.
  - intros reqs st store Hs.
    assert (He : extends st (snd (serve chat reqs st))).
    { revert st store Hs. induction reqs as [|req reqs IH]; intros st store Hs.
      - apply extends_refl.
      - cbn [serve]. unfold bind at 1.
        pose proof (Hready req st store Hs) as H1.
        destruct (Htotal req st) as [r Hr].
        destruct (chat req st) as [r0 st1]. cbn in Hr, H1. subst r0.
        destruct H1 as [Hv H1].
        assert (Hs1 : vectorStore st1 = Some store) by congruence.
        specialize (IH st1 store Hs1). unfold bind.
        destruct (serve chat reqs st1) as [[rs|e] st2]; cbn [snd ret] in *;
          (eapply extends_trans; [split; [exact Hv | exact H1] | exact IH]). }
    destruct He as [Hv [added [Hc Hn]]]. split; [congruence|].
    now rewrite (new_calls_app _ _ _ Hc).
  - intros req st Hs Hfail.
    destruct (truthy (body_message req)) eqn:Hm.
    + destruct (Htruthy req st Hm) as [Hv _]. rewrite Hv.
      rewrite (ensure_unset svc st Hs). cbn [snd].
      destruct (initializePDF_run svc st) as [b [st' [rest [Hrun [_ Hb]]]]].
      rewrite Hrun in Hfail |- *. cbn in Hfail |- *.
      inversion Hfail; subst b. congruence.
    + now rewrite (Hfalsy req st Hm).
  - intros req st Hs Hm.
    destruct (Htruthy req st Hm) as [_ [added [Hc _]]].
    rewrite (ensure_unset svc st Hs) in Hc. cbn [snd] in Hc.
    destruct (initializePDF_run svc st) as [b [st' [rest [Hrun [Hcalls _]]]]].
    rewrite Hrun in Hc. cbn [snd] in Hc. rewrite Hcalls in Hc.
    exists (rest ++ added)%list. apply new_calls_app.
    rewrite Hc, <- app_assoc. reflexivity.
Qed.

End IndexState.

(** ** The general path *)

Section GeneralPath.

Context {W Store : Type}.
Variable svc : Services W Store.

(** The general answer: a 200 with the general [source], or the exception
    of the completion call thrown again. *)
Lemma index_fallback_outcome msg (st : ServerState W Store) :
  match fst (index_fallback svc msg st) with
  | Ok r => general_answer r
  | Throw _ => True
  end.
Proof.
  unfold index_fallback, IndexJs.getOpenAIResponse. unfold_monad.
  destruct (completions_create svc _ (world st)) as [[response|e] w']; cbn;
    [eexists; reflexivity | exact I].
Qed.

Lemma part_fallback_outcome msg (st : ServerState W Store) :
  match fst (part_fallback svc msg st) with
  | Ok r => general_answer r
  | Throw _ => True
  end.
Proof.
  unfold part_fallback, Part000.getOpenAIResponse. unfold_monad.
  destruct (completions_create svc _ (world st)) as [[response|e] w']; cbn;
    [eexists; reflexivity | exact I].
Qed.

(** "The classifier said no", seen from the state [st1] in which the index
    check ended: the index is unavailable, or retrieval resolved and the
    classifier returned [false] on what was retrieved (an empty retrieval
    included). *)
Definition not_relevant (msg : jsval) (st1 : ServerState W Store) : Prop :=
  match vectorStore st1 with
  | None => True
  | Some store =>
      exists results st2,
        similaritySearch svc store msg 2 st1 = (Ok results, st2)
        /\ fst (IndexJs.isRelevantPDFContent svc results msg st2) = Ok false
  end.

Lemma index_after_check_not_relevant msg (st1 : ServerState W Store) :
  not_relevant msg st1 ->
  exists st2, index_after_check svc msg st1 = index_fallback svc msg st2.
Proof.
  unfold not_relevant, index_after_check.
  destruct (vectorStore st1) as [store|]; [|now exists st1].
  intros [results [st2 [Hsearch Hno]]].
  unfold IndexJs.grounded_answer, bind at 1. rewrite Hsearch.
  unfold bind at 1.
  destruct (IndexJs.isRelevantPDFContent svc results msg st2) as [r st3].
  cbn in Hno. subst r. now exists st3.
Qed.

Lemma part_after_check_not_relevant msg (st1 : ServerState W Store) :
  not_relevant msg st1 ->
  exists st2, part_after_check svc msg st1 = part_fallback svc msg st2.
Proof.
  unfold not_relevant, part_after_check.
  destruct (vectorStore st1) as [store|]; [|now exists st1].
  intros [results [st2 [Hsearch Hno]]].
  unfold Part000.grounded_answer, bind at 1. rewrite Hsearch.
  unfold bind at 1.
  change (Part000.isRelevantPDFContent svc results msg st2)
    with (IndexJs.isRelevantPDFContent svc results msg st2).
  destruct (IndexJs.isRelevantPDFContent svc results msg st2) as [r st3].
  cbn in Hno. subst r. now exists st3.
Qed.

(** The same with the state [st3] in which the general path starts. *)
Definition not_relevant_then (msg : jsval) (st1 st3 : ServerState W Store)
  : Prop :=
  match vectorStore st1 with
  | None => st3 = st1
  | Some store =>
      exists results st2,
        similaritySearch svc store msg 2 st1 = (Ok results, st2)
        /\ IndexJs.isRelevantPDFContent svc results msg st2 = (Ok false, st3)
  end.

Lemma not_relevant_starts msg (st1 : ServerState W Store) :
  not_relevant msg st1 -> exists st3, not_relevant_then msg st1 st3.
Proof.
  unfold not_relevant, not_relevant_then.
  destruct (vectorStore st1) as [store|]; [|now exists st1].
  intros [results [st2 [Hsearch Hno]]].
  destruct (IndexJs.isRelevantPDFContent svc results msg st2) as [r st3] eqn:E.
  cbn in Hno. subst r. exists st3, results, st2. now split.
Qed.

Lemma index_after_check_general msg (st1 st3 : ServerState W Store) :
  not_relevant_then msg st1 st3 ->
  index_after_check svc msg st1 = index_fallback svc msg st3.
Proof.
  unfold not_relevant_then, index_after_check.
  destruct (vectorStore st1) as [store|]; [|now intros ->].
  intros [results [st2 [Hsearch Hno]]].
  unfold IndexJs.grounded_answer, bind at 1. rewrite Hsearch.
  unfold bind at 1. now rewrite Hno.
Qed.

Lemma part_after_check_general msg (st1 st3 : ServerState W Store) :
  not_relevant_then msg st1 st3 ->
  part_after_check svc msg st1 = part_fallback svc msg st3.
Proof.
  unfold not_relevant_then, part_after_check.
  destruct (vectorStore st1) as [store|]; [|now intros ->].
  intros [results [st2 [Hsearch Hno]]].
  unfold Part000.grounded_answer, bind at 1. rewrite Hsearch.
  unfold bind at 1.
  change (Part000.isRelevantPDFContent svc results msg st2)
    with (IndexJs.isRelevantPDFContent svc results msg st2).
  now rewrite Hno.
Qed.

Lemma index_fallback_run msg (st : ServerState W Store) :
  index_fallback svc msg st
  = match completions_create svc (IndexJs.general_request msg) (world st) with
    | (Ok answer, w') =>
        (Ok (mkResponse 200 (AnswerBody (first_choice_content answer)
                                        "OpenAI General Response")),
         mkState (vectorStore st) w'
                 (calls st ++ [CallCompletion (IndexJs.general_request msg)])%list
                 (console st))
    | (Throw e, w') =>
        (Throw e,
         mkState (vectorStore st) w'
                 (calls st ++ [CallCompletion (IndexJs.general_request msg)])%list
                 (console st ++ [ConsoleError "Error getting OpenAI response:" e])%list)
    end.
Proof.
  unfold index_fallback, IndexJs.getOpenAIResponse. unfold_monad.
  destruct (completions_create svc _ (world st)) as [[answer|e] w'];
    reflexivity.
Qed.

Lemma part_fallback_run msg (st : ServerState W Store) :
  part_fallback svc msg st
  = match completions_create svc (Part000.general_request msg) (world st) with
    | (Ok answer, w') =>
        (Ok (mkResponse 200
               (AnswerBody (Part000.formatLinksAsHTML (first_choice_content answer))
                           "OpenAI General Response")),
         mkState (vectorStore st) w'
                 (calls st ++ [CallCompletion (Part000.general_request msg)])%list
                 (console st))
    | (Throw e, w') =>
        (Throw e,
         mkState (vectorStore st) w'
                 (calls st ++ [CallCompletion (Part000.general_request msg)])%list
                 (console st ++ [ConsoleError "Error getting OpenAI response:" e])%list)
    end.
Proof.
  unfold part_fallback, Part000.getOpenAIResponse. unfold_monad.
  destruct (completions_create svc _ (world st)) as [[answer|e] w'];
    reflexivity.
Qed.

End GeneralPath.

(** On completions that carry a text.  For a request that passes the
    message check, whenever the classifier returns [false], an empty
    retrieval result and an unavailable index included, the handler of
    both variants makes the general completion call next, in the state
    [st3] that the classifier (or the index check, when the index is
    unavailable) left.  When that call resolves, the response is a 200
    with its text and the [source] ['OpenAI General Response']; when it is
    rejected, the response is the generic 500, which has no [source]. *)
Theorem chat_not_relevant_general_text {W Store} (svc : Services W Store)
        (req : Request) (st : ServerState W Store) :
  truthy (body_message req) = true ->
  not_relevant svc (body_message req)
               (snd (IndexJs.ensure_vectorStore svc st)) ->
  exists st3,
    not_relevant_then svc (body_message req)
                      (snd (IndexJs.ensure_vectorStore svc st)) st3
    /\ IndexJs.chat svc req st
       = match completions_create svc
                 (IndexJs.general_request (body_message req)) (world st3) with
         | (Ok answer, w') =>
             (Ok (mkResponse 200 (AnswerBody (first_choice_content answer)
                                             "OpenAI General Response")),
              mkState (vectorStore st3) w'
                (calls st3
                 ++ [CallCompletion (IndexJs.general_request (body_message req))])%list
                (console st3))
         | (Throw e, w') =>
             (Ok (mkResponse 500 (ErrorBody "Internal server error")),
              mkState (vectorStore st3) w'
                (calls st3
                 ++ [CallCompletion (IndexJs.general_request (body_message req))])%list
                (console st3
                 ++ [ConsoleError "Error getting OpenAI response:" e;
                     ConsoleError "Error processing chat:" e])%list)
         end
    /\ Part000.chat svc req st
       = match completions_create svc
                 (Part000.general_request (body_message req)) (world st3) with
         | (Ok answer, w') =>
             (Ok (mkResponse 200
                    (AnswerBody
                       (Part000.formatLinksAsHTML (first_choice_content answer))
                       "OpenAI General Response")),
              mkState (vectorStore st3) w'
                (calls st3
                 ++ [CallCompletion (Part000.general_request (body_message req))])%list
                (console st3))
         | (Throw e, w') =>
             (Ok (mkResponse 500 (ErrorBody "Internal server error")),
              mkState (vectorStore st3) w'
                (calls st3
                 ++ [CallCompletion (Part000.general_request (body_message req))])%list
                (console st3
                 ++ [ConsoleError "Error getting OpenAI response:" e;
                     ConsoleError "Error processing chat:" e])%list)
         end.
Proof.
  intros Hm Hno.
  destruct (not_relevant_starts svc _ _ Hno) as [st3 Hthen].
  exists st3. split; [exact Hthen|]. split.
  - rewrite (index_chat_truthy svc req st Hm), index_chat_try_steps.
    rewrite (index_after_check_general svc _ _ _ Hthen), index_fallback_run.
    destruct (completions_create svc _ (world st3)) as [[answer|e] w'];
      cbn [vectorStore world calls console]; rewrite <- ?app_assoc;
      reflexivity.
  - rewrite (part_chat_truthy svc req st Hm), part_chat_try_steps.
    rewrite (part_after_check_general svc _ _ _ Hthen), part_fallback_run.
    destruct (completions_create svc _ (world st3)) as [[answer|e] w'];
      cbn [vectorStore world calls console]; rewrite <- ?app_assoc;
      reflexivity.
Qed.

Lemma chat_not_relevant_general_text_example :
  fst (IndexJs.chat Scripted.services
         (mkRequest (JStr "What's the weather today?"))
         (Scripted.boot (Scripted.healthy [Ok "false"; Ok "Ask a forecaster."])))
  = Ok (mkResponse 200 (AnswerBody "Ask a forecaster." "OpenAI General Response")).
Proof.
  destruct (chat_not_relevant_general_text Scripted.services
              (mkRequest (JStr "What's the weather today?"))
              (Scripted.boot
                 (Scripted.healthy [Ok "false"; Ok "Ask a forecaster."]))
              eq_refl)
    as [st3 [Hthen [Hi _]]].
  - cbn. do 2 eexists. split; reflexivity.
  - cbn in Hthen. destruct Hthen as [results [st2 [Hsearch Hrel]]].
    inversion Hsearch; subst results st2. clear Hsearch.
    vm_compute in Hrel. inversion Hrel; subst st3. clear Hrel.
    rewrite Hi. reflexivity.
Defined.

(** C7 as stated fails: the index is ready, retrieval returns no chunk, so
    the classifier is forced to [false]; the general completion is
    rejected; the response is the 500 error body, which has no [source]. *)
Lemma chat_not_relevant_source_counterexample :
  let w := Scripted.mkWorld (Ok [Scripted.faq]) (Ok [Scripted.faq]) (Ok tt)
             (Ok (Some [])) [Throw (mkError "429 rate limit")] in
  let st := Scripted.ready w in
  let req := mkRequest (JStr "What's the weather today?") in
  truthy (body_message req) = true
  /\ not_relevant Scripted.services (body_message req)
       (snd (IndexJs.ensure_vectorStore Scripted.services st))
  /\ fst (IndexJs.chat Scripted.services req st)
     = Ok (mkResponse 500 (ErrorBody "Internal server error"))
  /\ source_of (mkResponse 500 (ErrorBody "Internal server error"))
     <> Some "OpenAI General Response".
Proof.
  cbv zeta. split; [reflexivity|]. split.
  - cbn. do 2 eexists. split; reflexivity.
  - split; [reflexivity | discriminate].
Qed.

(** C6.  When the completion call of the classifier is rejected, the
    classifier of both variants returns [false]: the exception does not
    reach its caller.  In the handler the request then takes the general
    path: after the retrieval and the rejected classification call, the
    next and last external call is the general completion. *)
Theorem isRelevantPDFContent_call_failure {W Store} (svc : Services W Store)
        (docs : list Document) (question : jsval) (w w' : W) (e : JsError) :
  completions_create svc
    (IndexJs.relevance_request question (join nl (map pageContent docs))) w
  = (Throw e, w') ->
  (forall st : ServerState W Store,
      world st = w ->
      fst (IndexJs.isRelevantPDFContent svc (Some docs) question st) = Ok false
      /\ fst (Part000.isRelevantPDFContent svc (Some docs) question st)
         = Ok false)
  /\ (forall (st0 : ServerState W Store) (store : Store),
         truthy question = true ->
         docs <> [] ->
         vectorStore st0 = Some store ->
         store_similaritySearch svc store question 2 (world st0)
         = (Ok (Some docs), w) ->
         new_calls st0 (snd (IndexJs.chat svc (mkRequest question) st0))
         = [ CallSimilaritySearch question 2;
             CallCompletion
               (IndexJs.relevance_request question
                  (join nl (map pageContent docs)));
             CallCompletion (IndexJs.general_request question) ]
         /\ new_calls st0 (snd (Part000.chat svc (mkRequest question) st0))
            = [ CallSimilaritySearch question 2;
                CallCompletion
                  (Part000.relevance_request question
                     (join nl (map pageContent docs)));
                CallCompletion (Part000.general_request question) ]).
Proof.
  intros Hfail. split.
  - intros st Hw.
    change (Part000.isRelevantPDFContent svc (Some docs) question st)
      with (IndexJs.isRelevantPDFContent svc (Some docs) question st).
    destruct docs as [|d docs]; [now split|].
    rewrite isRelevant_run. cbv zeta. rewrite Hw, Hfail. now split.
  - intros st0 store Hq Hne Hs Hsearch.
    destruct docs as [|d docs]; [congruence|].
    split.
    + unfold IndexJs.chat. cbn [body_message]. rewrite Hq. cbn [negb].
      unfold_index. unfold_monad. rewrite Hs. cbv beta iota.
      rewrite Hs, Hsearch. cbn [absent_or_empty List.length Nat.eqb].
      cbn [world calls vectorStore console].
      unfold IndexJs.relevance_request in Hfail |- *. rewrite Hfail.
      cbn [world calls vectorStore console].
      destruct (completions_create svc _ w') as [[response|e'] w''];
        cbn [snd calls]; apply new_calls_app; rewrite <- !app_assoc;
        reflexivity.
    + unfold Part000.chat. cbn [body_message]. rewrite Hq. cbn [negb].
      unfold_part. unfold_monad. rewrite Hs. cbv beta iota.
      rewrite Hs, Hsearch. cbn [absent_or_empty List.length Nat.eqb].
      cbn [world calls vectorStore console].
      unfold IndexJs.relevance_request in Hfail.
      unfold Part000.relevance_request. 
      change Part000.relevance_systemPrompt with IndexJs.relevance_systemPrompt.
      rewrite Hfail.
      cbn [world calls vectorStore console].
      destruct (completions_create svc _ w') as [[response|e'] w''];
        cbn [snd calls]; apply new_calls_app; rewrite <- !app_assoc;
        reflexivity.
Qed.

Lemma isRelevantPDFContent_call_failure_witness :
  fst (IndexJs.isRelevantPDFContent Scripted.services (Some [Scripted.faq])
         (JStr "How cold?")
         (Scripted.ready (Scripted.healthy [Throw (mkError "timeout")])))
  = Ok false.
Proof.
  exact (proj1 (proj1 (isRelevantPDFContent_call_failure Scripted.services
                         [Scripted.faq] (JStr "How cold?")
                         (Scripted.healthy [Throw (mkError "timeout")])
                         (Scripted.healthy []) (mkError "timeout") eq_refl)
                      (Scripted.ready
                         (Scripted.healthy [Throw (mkError "timeout")]))
                      eq_refl)).
Defined.

(** ** The two variants side by side *)

(** What [part_000] sends where [index.js] sends [r]: the same status and
    [source], with the links of the [message] rewritten. *)
Definition format_response (r : HttpResponse) : HttpResponse :=
  mkResponse (status r)
    (match body r with
     | AnswerBody m src => AnswerBody (Part000.formatLinksAsHTML m) src
     | ErrorBody err => ErrorBody err
     end).

(** The completion service does not tell the two general prompts apart. *)
Definition same_service_behaviour {W Store} (svc : Services W Store) : Prop :=
  forall question w,
    completions_create svc (Part000.general_request question) w
    = completions_create svc (IndexJs.general_request question) w.

Section Variants.

Context {W Store : Type}.
Variable svc : Services W Store.
Hypothesis same_replies : same_service_behaviour svc.

(** Two states of the process that differ at most in the record of calls. *)
Definition same_process (s1 s2 : ServerState W Store) : Prop :=
  vectorStore s2 = vectorStore s1
  /\ world s2 = world s1
  /\ console s2 = console s1.

Definition simulates (x y : result HttpResponse * ServerState W Store) : Prop :=
  match x, y with
  | (Ok r1, s1), (Ok r2, s2) => r2 = format_response r1 /\ same_process s1 s2
  | (Throw e1, s1), (Throw e2, s2) => e2 = e1 /\ same_process s1 s2
  | _, _ => False
  end.

Lemma same_process_refl s : same_process s s.
Proof. now repeat split. Qed.

Lemma same_process_trans s1 s2 s3 :
  same_process s1 s2 -> same_process s2 s3 -> same_process s1 s3.
Proof.
  intros [Hv1 [Hw1 Hc1]] [Hv2 [Hw2 Hc2]]. repeat split; congruence.
Qed.

(** A computation that reads the process only through its index, world and
    console: the record of calls has no influence on what it does. *)
Definition respects {A} (m : M W Store A) : Prop :=
  forall s1 s2,
    same_process s1 s2 ->
    fst (m s2) = fst (m s1) /\ same_process (snd (m s1)) (snd (m s2)).

Lemma respects_ret {A} (a : A) : respects (ret a).
Proof. intros s1 s2 H. now split. Qed.

Lemma respects_throw {A} e : respects (@throw W Store A e).
Proof. intros s1 s2 H. now split. Qed.

Lemma respects_bind {A B} (m : M W Store A) (k : A -> M W Store B) :
  respects m -> (forall a, respects (k a)) -> respects (bind m k).
Proof.
  intros Hm Hk s1 s2 H. unfold bind. destruct (Hm s1 s2 H) as [Hr Hs].
  destruct (m s1) as [r1 t1], (m s2) as [r2 t2]. cbn in Hr, Hs. subst r2.
  destruct r1 as [a|e]; [now apply Hk | now split].
Qed.

Lemma respects_try_catch {A} (m : M W Store A) (h : JsError -> M W Store A) :
  respects m -> (forall e, respects (h e)) -> respects (try_catch m h).
Proof.
  intros Hm Hh s1 s2 H. unfold try_catch. destruct (Hm s1 s2 H) as [Hr Hs].
  destruct (m s1) as [r1 t1], (m s2) as [r2 t2]. cbn in Hr, Hs. subst r2.
  destruct r1 as [a|e]; [now split | now apply Hh].
Qed.

Lemma respects_get : respects (@get_vectorStore W Store).
Proof.
  intros s1 s2 [Hv [Hw Hc]]. unfold get_vectorStore. cbn. rewrite Hv.
  split; [reflexivity | now repeat split].
Qed.

Lemma respects_set v : respects (@set_vectorStore W Store v).
Proof.
  intros s1 s2 [Hv [Hw Hc]]. unfold set_vectorStore. cbn.
  split; [reflexivity | now repeat split].
Qed.

Lemma respects_console_log text : respects (@console_log W Store text).
Proof.
  intros s1 s2 [Hv [Hw Hc]]. unfold console_log. cbn.
  split; [reflexivity|]. repeat split; cbn; congruence.
Qed.

Lemma respects_console_error text e :
  respects (@console_error W Store text e).
Proof.
  intros s1 s2 [Hv [Hw Hc]]. unfold console_error. cbn.
  split; [reflexivity|]. repeat split; cbn; congruence.
Qed.

Lemma respects_external {A} c (f : W -> result A * W) :
  respects (external c f).
Proof.
  intros s1 s2 [Hv [Hw Hc]]. unfold external. rewrite Hw.
  destruct (f (world s1)) as [r w']. cbn.
  split; [reflexivity | now repeat split].
Qed.

Lemma respects_results_text results :
  respects (@results_text W Store results).
Proof. destruct results; [apply respects_ret | apply respects_throw]. Qed.

Ltac respects_steps :=
  repeat first
    [ apply respects_ret | apply respects_throw | apply respects_get
    | apply respects_set | apply respects_console_log
    | apply respects_console_error | apply respects_external
    | apply respects_results_text
    | apply respects_bind; [|intros ?]
    | apply respects_try_catch; [|intros ?]
    | match goal with
      | |- respects (match ?x with _ => _ end) => destruct x
      | |- respects (if ?x then _ else _) => destruct x
      end ].

Lemma respects_part_chat req : respects (Part000.chat svc req).
Proof.
  unfold Part000.chat, Part000.chat_try, Part000.ensure_vectorStore,
    Part000.grounded_answer, Part000.getOpenAIResponse,
    Part000.isRelevantPDFContent, Part000.initializePDF, PDFLoader_load,
    splitDocuments, MemoryVectorStore_fromDocuments, similaritySearch,
    openai_chat_completions_create.
  cbv zeta. respects_steps.
Qed.

Lemma grounded_answer_formats store msg (st : ServerState W Store) :
  Part000.grounded_answer svc store msg st
  = match IndexJs.grounded_answer svc store msg st with
    | (Ok (Some r), st') => (Ok (Some (format_response r)), st')
    | other => other
    end.
Proof.
  unfold Part000.grounded_answer, IndexJs.grounded_answer,
    Part000.isRelevantPDFContent, IndexJs.isRelevantPDFContent.
  change Part000.grounded_request with IndexJs.grounded_request.
  change Part000.relevance_request with IndexJs.relevance_request.
  run; reflexivity.
Qed.

Lemma fallback_simulates msg (st : ServerState W Store) :
  simulates (index_fallback svc msg st) (part_fallback svc msg st).
Proof.
  unfold index_fallback, part_fallback, IndexJs.getOpenAIResponse,
    Part000.getOpenAIResponse. unfold_monad. rewrite same_replies.
  destruct (completions_create svc (IndexJs.general_request msg) (world st))
    as [[response|e] w']; cbn; repeat split.
Qed.

Lemma after_check_simulates msg (st1 : ServerState W Store) :
  simulates (index_after_check svc msg st1) (part_after_check svc msg st1).
Proof.
  unfold index_after_check, part_after_check.
  destruct (vectorStore st1) as [store|]; [|apply fallback_simulates].
  rewrite grounded_answer_formats.
  destruct (IndexJs.grounded_answer svc store msg st1) as [[[r|]|e] st2].
  - split; [reflexivity | apply same_process_refl].
  - apply fallback_simulates.
  - split; [reflexivity | apply same_process_refl].
Qed.

Lemma chat_simulates req (st : ServerState W Store) :
  simulates (IndexJs.chat svc req st) (Part000.chat svc req st).
Proof.
  destruct (truthy (body_message req)) eqn:Hm.
  - rewrite (index_chat_truthy svc req st Hm), (part_chat_truthy svc req st Hm).
    rewrite index_chat_try_steps, part_chat_try_steps.
    pose proof (after_check_simulates (body_message req)
                  (snd (IndexJs.ensure_vectorStore svc st))) as Hsim.
    destruct (index_after_check svc _ _) as [[r1|e1] s1];
      destruct (part_after_check svc _ _) as [[r2|e2] s2];
      cbn in Hsim; try contradiction; [exact Hsim|].
    destruct Hsim as [-> [Hv [Hw Hc]]].
    split; [reflexivity|]. cbn. now rewrite Hv, Hw, Hc.
  - destruct (chat_falsy svc req st Hm) as [-> ->].
    split; [reflexivity | apply same_process_refl].
Qed.

(** The same over a sequence of requests, each variant running on its own
    state. *)
Lemma serve_simulates reqs : forall s1 s2 : ServerState W Store,
  same_process s1 s2 ->
  exists rs t1 t2,
    serve (IndexJs.chat svc) reqs s1 = (Ok rs, t1)
    /\ serve (Part000.chat svc) reqs s2 = (Ok (map format_response rs), t2)
    /\ same_process t1 t2.
Proof.
  induction reqs as [|req reqs IH]; intros s1 s2 Hs.
  - exists [], s1, s2. split; [reflexivity | split; [reflexivity | exact Hs]].
  - cbn [serve]. unfold bind at 1 3.
    pose proof (chat_simulates req s1) as Hsim.
    destruct (respects_part_chat req s1 s2 Hs) as [Hr Hp].
    destruct (index_chat_total svc req s1) as [r1 Hr1].
    destruct (IndexJs.chat svc req s1) as [ri u1]. cbn in Hr1. subst ri.
    destruct (Part000.chat svc req s1) as [[r|e] u]; cbn in Hsim;
      [|contradiction].
    destruct Hsim as [-> Hu].
    destruct (Part000.chat svc req s2) as [r2 u2]. cbn in Hr, Hp. subst r2.
    destruct (IH u1 u2 (same_process_trans _ _ _ Hu Hp))
      as [rs [t1 [t2 [H1 [H2 Ht]]]]].
    unfold bind. rewrite H1, H2. exists (r1 :: rs), t1, t2.
    split; [reflexivity | split; [reflexivity | exact Ht]].
Qed.

End Variants.

(** On completions that carry a text.  When the completion service
    answers the general requests of the two variants alike, the handlers
    agree on every request, from every state of the process: both respond, with the same status and the same
    [source]; the [message] of [part_000] is [formatLinksAsHTML] applied to
    the [message] of [index.js]; an error body is the same in both; and
    the process is left with the same index, world and console.  So the
    responses to any sequence of requests correspond one by one.  The
    default ports are 3000 and 5000. *)
Theorem chat_variants_equivalent_text {W Store} (svc : Services W Store)
        (req : Request) (st : ServerState W Store) :
  same_service_behaviour svc ->
  (exists r1 r2,
      fst (IndexJs.chat svc req st) = Ok r1
      /\ fst (Part000.chat svc req st) = Ok r2
      /\ status r2 = status r1
      /\ source_of r2 = source_of r1
      /\ message_of r2 = option_map Part000.formatLinksAsHTML (message_of r1)
      /\ (forall err, body r1 = ErrorBody err -> body r2 = ErrorBody err))
  /\ same_process (snd (IndexJs.chat svc req st)) (snd (Part000.chat svc req st))
  /\ (forall reqs, exists rs,
         fst (serve (IndexJs.chat svc) reqs st) = Ok rs
         /\ fst (serve (Part000.chat svc) reqs st)
            = Ok (map format_response rs))
  /\ IndexJs.PORT undefined = JOther true "3000"
  /\ Part000.PORT undefined = JOther true "5000".
Proof.
  intros Hsvc. pose proof (chat_simulates svc Hsvc req st) as Hsim.
  destruct (index_chat_total svc req st) as [r1 Hr1].
  destruct (IndexJs.chat svc req st) as [ri s1]. cbn in Hr1. subst ri.
  destruct (Part000.chat svc req st) as [[r2|e2] s2]; cbn in Hsim;
    [|contradiction].
  destruct Hsim as [-> Hp]. split; [|split; [exact Hp | split; [|now split]]].
  - exists r1, (format_response r1). cbn [fst].
    repeat split; try reflexivity.
    + unfold source_of, format_response. cbn. now destruct (body r1).
    + unfold message_of, format_response. cbn. now destruct (body r1).
    + intros err Hb. unfold format_response. cbn. now rewrite Hb.
  - intros reqs.
    destruct (serve_simulates svc Hsvc reqs st st (same_process_refl st))
      as [rs [t1 [t2 [H1 [H2 _]]]]].
    exists rs. now rewrite H1, H2.
Qed.

Lemma chat_variants_equivalent_text_example :
  exists r1 r2,
    fst (IndexJs.chat Scripted.services (mkRequest (JStr "Where are you?"))
           (Scripted.boot
              (Scripted.healthy [Ok "no"; Ok "Visit https://theicebutcher.com/ now"])))
    = Ok r1
    /\ fst (Part000.chat Scripted.services (mkRequest (JStr "Where are you?"))
              (Scripted.boot
                 (Scripted.healthy [Ok "no"; Ok "Visit https://theicebutcher.com/ now"])))
       = Ok r2
    /\ status r2 = status r1
    /\ source_of r2 = source_of r1
    /\ message_of r2 = option_map Part000.formatLinksAsHTML (message_of r1).
Proof.
  destruct (chat_variants_equivalent_text Scripted.services
              (mkRequest (JStr "Where are you?"))
              (Scripted.boot
                 (Scripted.healthy
                    [Ok "no"; Ok "Visit https://theicebutcher.com/ now"])))
    as [[r1 [r2 [H1 [H2 [H3 [H4 [H5 _]]]]]]] _].
  - intros question w. reflexivity.
  - exists r1, r2. repeat split; assumption.
Defined.

(** ** Which answer a request gets *)

Section Sources.

Context {W Store : Type}.
Variable svc : Services W Store.

(** What the body of the [try] can end in. *)
Definition try_outcome (r : result HttpResponse) : Prop :=
  match r with
  | Ok sent => pdf_answer sent \/ general_answer sent
  | Throw _ => True
  end.

(** An early response of the block under [if (vectorStore)] is a 200 from
    the PDF knowledge base. *)
Lemma index_grounded_outcome store msg (st : ServerState W Store) :
  match fst (IndexJs.grounded_answer svc store msg st) with
  | Ok (Some sent) => pdf_answer sent
  | _ => True
  end.
Proof.
  unfold IndexJs.grounded_answer, bind.
  destruct (similaritySearch svc store msg 2 st) as [[results|e] st1];
    [|exact I].
  destruct (IndexJs.isRelevantPDFContent svc results msg st1)
    as [[[|]|e] st2]; try exact I.
  destruct (results_text results st2) as [[text|e] st3]; [|exact I].
  destruct (openai_chat_completions_create svc _ st3) as [[response|e] st4];
    [eexists; reflexivity | exact I].
Qed.

Lemma part_grounded_outcome store msg (st : ServerState W Store) :
  match fst (Part000.grounded_answer svc store msg st) with
  | Ok (Some sent) => pdf_answer sent
  | _ => True
  end.
Proof.
  rewrite grounded_answer_formats.
  pose proof (index_grounded_outcome store msg st) as H.
  destruct (IndexJs.grounded_answer svc store msg st) as [[[sent|]|e] st1];
    cbn in *; try exact I.
  destruct H as [m ->]. eexists; reflexivity.
Qed.

Lemma index_chat_try_outcome msg (st : ServerState W Store) :
  try_outcome (fst (IndexJs.chat_try svc msg st)).
Proof.
  rewrite index_chat_try_steps. unfold index_after_check.
  set (st1 := snd (IndexJs.ensure_vectorStore svc st)).
  assert (Hf : forall s, try_outcome (fst (index_fallback svc msg s))).
  { intros s. pose proof (index_fallback_outcome svc msg s) as H.
    destruct (fst (index_fallback svc msg s)); cbn; auto. }
  destruct (vectorStore st1) as [store|]; [|apply Hf].
  pose proof (index_grounded_outcome store msg st1) as Hg.
  destruct (IndexJs.grounded_answer svc store msg st1) as [[[sent|]|e] st2];
    cbn in *; auto.
Qed.

Lemma part_chat_try_outcome msg (st : ServerState W Store) :
  try_outcome (fst (Part000.chat_try svc msg st)).
Proof.
  rewrite part_chat_try_steps. unfold part_after_check.
  set (st1 := snd (IndexJs.ensure_vectorStore svc st)).
  assert (Hf : forall s, try_outcome (fst (part_fallback svc msg s))).
  { intros s. pose proof (part_fallback_outcome svc msg s) as H.
    destruct (fst (part_fallback svc msg s)); cbn; auto. }
  destruct (vectorStore st1) as [store|]; [|apply Hf].
  pose proof (part_grounded_outcome store msg st1) as Hg.
  destruct (Part000.grounded_answer svc store msg st1) as [[[sent|]|e] st2];
    cbn in *; auto.
Qed.

End Sources.

(** A request that passes the message check always gets a response, and a
    response of status 200 has exactly one of the two [source] values. *)
Lemma chat_truthy_one_source {W Store} (svc : Services W Store)
      (req : Request) (st : ServerState W Store) :
  truthy (body_message req) = true ->
  (exists r, fst (IndexJs.chat svc req st) = Ok r
             /\ (status r = 200 -> one_source r))
  /\ (exists r, fst (Part000.chat svc req st) = Ok r
                /\ (status r = 200 -> one_source r)).
Proof.
  intros Hm. split.
  - rewrite (index_chat_truthy svc req st Hm).
    pose proof (index_chat_try_outcome svc (body_message req) st) as Ho.
    destruct (IndexJs.chat_try svc (body_message req) st) as [[sent|e] st'];
      cbn in *.
    + exists sent. split; [reflexivity|]. intros _.
      destruct Ho; [now apply pdf_answer_one_source
                   | now apply general_answer_one_source].
    + exists internal_server_error. split; [reflexivity|discriminate].
  - rewrite (part_chat_truthy svc req st Hm).
    pose proof (part_chat_try_outcome svc (body_message req) st) as Ho.
    destruct (Part000.chat_try svc (body_message req) st) as [[sent|e] st'];
      cbn in *.
    + exists sent. split; [reflexivity|]. intros _.
      destruct Ho; [now apply pdf_answer_one_source
                   | now apply general_answer_one_source].
    + exists internal_server_error. split; [reflexivity|discriminate].
Qed.

(** C1.  A request whose [message] is a non-empty string always gets a
    response, in both variants, and a response of status 200 carries a
    [source] that is exactly one of ['PDF Knowledge Base'] and
    ['OpenAI General Response']: one of them and not the other. *)
Theorem chat_one_source {W Store} (svc : Services W Store)
        (req : Request) (s : string) (st : ServerState W Store) :
  body_message req = JStr s ->
  s <> "" ->
  (exists r, fst (IndexJs.chat svc req st) = Ok r
             /\ (status r = 200 -> one_source r))
  /\ (exists r, fst (Part000.chat svc req st) = Ok r
                /\ (status r = 200 -> one_source r)).
Proof.
  intros Hreq Hs. apply chat_truthy_one_source.
  rewrite Hreq. now apply truthy_nonempty.
Qed.

Lemma chat_one_source_witness :
  exists r,
    fst (IndexJs.chat Scripted.services (mkRequest (JStr "How cold is ice?"))
           (Scripted.boot (Scripted.healthy [Ok "true"; Ok "Below zero."])))
    = Ok r
    /\ status r = 200 /\ one_source r.
Proof.
  destruct (chat_one_source Scripted.services
              (mkRequest (JStr "How cold is ice?")) "How cold is ice?"
              (Scripted.boot (Scripted.healthy [Ok "true"; Ok "Below zero."]))
              eq_refl) as [[r [Hr Hs]] _].
  - discriminate.
  - exists r. split; [exact Hr|].
    assert (H200 : status r = 200) by (vm_compute in Hr; now inversion Hr).
    split; [exact H200 | exact (Hs H200)].
Defined.

(** ** Failures inside the [try] *)

Section Failures.

Context {W Store : Type}.
Variable svc : Services W Store.

(** A rejected retrieval leaves the [try] as an exception. *)
Lemma index_retrieval_failure msg store e w' (st : ServerState W Store) :
  vectorStore st = Some store ->
  store_similaritySearch svc store msg 2 (world st) = (Throw e, w') ->
  fst (IndexJs.chat_try svc msg st) = Throw e.
Proof.
  intros Hs Hsearch.
  rewrite index_chat_try_steps, (ensure_ready svc store st Hs). cbn [snd].
  unfold index_after_check. rewrite Hs.
  unfold IndexJs.grounded_answer, bind, similaritySearch, external.
  now rewrite Hsearch.
Qed.

Lemma part_retrieval_failure msg store e w' (st : ServerState W Store) :
  vectorStore st = Some store ->
  store_similaritySearch svc store msg 2 (world st) = (Throw e, w') ->
  fst (Part000.chat_try svc msg st) = Throw e.
Proof.
  intros Hs Hsearch.
  rewrite part_chat_try_steps, (ensure_ready svc store st Hs). cbn [snd].
  unfold part_after_check. rewrite Hs.
  unfold Part000.grounded_answer, bind, similaritySearch, external.
  now rewrite Hsearch.
Qed.

(** So does a rejected general completion, which [getOpenAIResponse] logs
    and throws again. *)
Lemma index_general_failure msg e w' (st : ServerState W Store) :
  completions_create svc (IndexJs.general_request msg) (world st)
  = (Throw e, w') ->
  fst (index_fallback svc msg st) = Throw e.
Proof.
  intros H. unfold index_fallback, IndexJs.getOpenAIResponse. unfold_monad.
  now rewrite H.
Qed.

Lemma part_general_failure msg e w' (st : ServerState W Store) :
  completions_create svc (Part000.general_request msg) (world st)
  = (Throw e, w') ->
  fst (part_fallback svc msg st) = Throw e.
Proof.
  intros H. unfold part_fallback, Part000.getOpenAIResponse. unfold_monad.
  now rewrite H.
Qed.

End Failures.

(** C9.  For a request that passes the message check, an exception that
    leaves the body of the handler's [try], wherever it was raised
    (retrieval, grounded or general answer generation; ingestion and
    classification catch their own), is turned into status 500 with the
    fixed body [{ error: 'Internal server error' }], in both variants; the
    exception itself goes to the console only.  A rejected retrieval is
    such a failure. *)
Theorem chat_internal_server_error {W Store} (svc : Services W Store)
        (req : Request) (st : ServerState W Store) :
  truthy (body_message req) = true ->
  (forall e st',
      IndexJs.chat_try svc (body_message req) st = (Throw e, st') ->
      IndexJs.chat svc req st
      = (Ok (mkResponse 500 (ErrorBody "Internal server error")),
         mkState (vectorStore st') (world st') (calls st')
                 (console st' ++ [ConsoleError "Error processing chat:" e])%list))
  /\ (forall e st',
         Part000.chat_try svc (body_message req) st = (Throw e, st') ->
         Part000.chat svc req st
         = (Ok (mkResponse 500 (ErrorBody "Internal server error")),
            mkState (vectorStore st') (world st') (calls st')
                    (console st' ++ [ConsoleError "Error processing chat:" e])%list))
  /\ (forall store e w',
         vectorStore st = Some store ->
         store_similaritySearch svc store (body_message req) 2 (world st)
         = (Throw e, w') ->
         fst (IndexJs.chat svc req st)
         = Ok (mkResponse 500 (ErrorBody "Internal server error"))
         /\ fst (Part000.chat svc req st)
            = Ok (mkResponse 500 (ErrorBody "Internal server error"))).
Proof.
  intros Hm. split; [|split].
  - intros e st' Ht.
    rewrite (index_chat_truthy svc req st Hm), Ht. reflexivity.
  - intros e st' Ht.
    rewrite (part_chat_truthy svc req st Hm), Ht. reflexivity.
  - intros store e w' Hs Hsearch.
    pose proof (index_retrieval_failure svc _ _ _ _ st Hs Hsearch) as Hi.
    pose proof (part_retrieval_failure svc _ _ _ _ st Hs Hsearch) as Hp.
    rewrite (index_chat_truthy svc req st Hm), (part_chat_truthy svc req st Hm).
    destruct (IndexJs.chat_try svc (body_message req) st) as [ri si].
    destruct (Part000.chat_try svc (body_message req) st) as [rp sp].
    cbn in Hi, Hp. subst ri rp. now split.
Qed.

Lemma chat_internal_server_error_witness :
  let w := Scripted.mkWorld (Ok [Scripted.faq]) (Ok [Scripted.faq]) (Ok tt)
             (Throw (mkError "embedding service unreachable: key sk-123"))
             [Ok "unused"] in
  fst (IndexJs.chat Scripted.services (mkRequest (JStr "How cold is ice?"))
         (Scripted.ready w))
  = Ok (mkResponse 500 (ErrorBody "Internal server error")).
Proof.
  intros w.
  exact (proj1 (proj2 (proj2 (chat_internal_server_error Scripted.services
                                (mkRequest (JStr "How cold is ice?"))
                                (Scripted.ready w) eq_refl))
                      tt (mkError "embedding service unreachable: key sk-123")
                      w eq_refl eq_refl)).
Defined.

(** Requests handled one after the other.  In both variants: once
    [vectorStore] is set it keeps its value over any sequence of requests
    and none of them calls the loader, the splitter or the embedding store
    again; when ingestion fails ([initializePDF] answers [false]) the
    variable stays unset; and while it is unset, every request that passes
    the message check starts ingestion again, with the load of the PDF as
    its first external call. *)
Theorem chat_index_discipline {W Store} (svc : Services W Store) :
  index_discipline svc (IndexJs.chat svc)
  /\ index_discipline svc (Part000.chat svc).
Proof.
  split; apply discipline_of_extends.
  - intros req st Hm. now destruct (chat_falsy svc req st Hm) as [-> _].
  - apply index_chat_extends.
  - apply index_chat_total.
  - intros req st Hm. now destruct (chat_falsy svc req st Hm) as [_ ->].
  - apply part_chat_extends.
  - apply part_chat_total.
Qed.

Lemma chat_index_discipline_example :
  let broken := Scripted.mkWorld (Throw (mkError "ENOENT: ./faqs.pdf"))
                  (Ok []) (Ok tt) (Ok None) [Ok "A general answer."] in
  vectorStore (snd (IndexJs.chat Scripted.services
                      (mkRequest (JStr "How cold is ice?"))
                      (Scripted.boot broken))) = None
  /\ exists rest,
      new_calls (Scripted.boot broken)
                (snd (IndexJs.chat Scripted.services
                        (mkRequest (JStr "How cold is ice?"))
                        (Scripted.boot broken)))
      = CallLoad "./faqs.pdf" :: rest.
Proof.
  intros broken.
  destruct (chat_index_discipline Scripted.services) as [Hi _].
  split.
  - apply (failure_stays _ _ Hi); reflexivity.
  - apply (unset_retries _ _ Hi); reflexivity.
Defined.

(** C8 as stated fails on "every subsequent request re-attempts
    ingestion": after a first request whose ingestion failed, the variable
    is unset; a next request with an empty body is answered 400 and makes
    no external call at all. *)
Lemma chat_empty_message_no_retry_counterexample :
  let broken := Scripted.mkWorld (Throw (mkError "ENOENT: ./faqs.pdf"))
                  (Ok []) (Ok tt) (Ok None) [Ok "A general answer."] in
  let st1 := snd (IndexJs.chat Scripted.services
                    (mkRequest (JStr "How cold is ice?"))
                    (Scripted.boot broken)) in
  let next := IndexJs.chat Scripted.services (mkRequest undefined) st1 in
  vectorStore st1 = None
  /\ fst (IndexJs.initializePDF Scripted.services (Scripted.boot broken))
     = Ok false
  /\ fst next = Ok (mkResponse 400 (ErrorBody "Message is required"))
  /\ new_calls st1 (snd next) = [].
Proof.
  cbv zeta. repeat split; reflexivity.
Qed.

(** ** The link formatter *)

Module LinkFacts.

Import UrlRegex.

(** The pattern matches somewhere in the text. *)
Fixpoint has_url (s : string) : bool :=
  match exec_at s with
  | Some _ => true
  | None =>
      match s with
      | EmptyString => false
      | String _ s' => has_url s'
      end
  end.

Lemma length_append (a b : string) :
  String.length (a ++ b) = String.length a + String.length b.
Proof. induction a as [|c a IH]; simpl; [reflexivity | now rewrite IH]. Qed.

Lemma append_assoc (a b c : string) : (a ++ b) ++ c = a ++ (b ++ c).
Proof. induction a as [|x a IH]; simpl; [reflexivity | now rewrite IH]. Qed.

Lemma span_nonspace_app s : forall run rest,
  span_nonspace s = (run, rest) -> s = run ++ rest.
Proof.
  induction s as [|c s IH]; intros run rest H; simpl in H.
  - now inversion H.
  - destruct (isWhiteSpace c).
    + now inversion H.
    + destruct (span_nonspace s) as [run' rest'].
      inversion H; subst. simpl. now rewrite (IH run' rest eq_refl).
Qed.

Lemma span_nonspace_head s c run rest :
  span_nonspace s = (String c run, rest) -> isWhiteSpace c = false.
Proof.
  destruct s as [|a s]; simpl; [discriminate|].
  destruct (isWhiteSpace a) eqn:E; [discriminate|].
  destruct (span_nonspace s). intros H. inversion H. now subst.
Qed.

(** A match is a prefix of the text: the scheme, [://] and a non-empty run
    that starts with a non-blank code unit. *)
Lemma match_tail_shape scheme r url rest :
  match_tail scheme r = Some (url, rest) ->
  exists c run,
    url = scheme ++ "://" ++ String c run
    /\ r = "://" ++ String c run ++ rest
    /\ isWhiteSpace c = false.
Proof.
  unfold match_tail.
  destruct (strip_prefix "://" r) as [t|] eqn:E; [|discriminate].
  apply strip_prefix_app in E.
  destruct (span_nonspace t) as [[|c run] rest'] eqn:E2; [discriminate|].
  intros H. inversion H; subst. exists c, run.
  pose proof (span_nonspace_head _ _ _ _ E2).
  apply span_nonspace_app in E2. subst t. now repeat split.
Qed.

Lemma exec_at_shape s url rest :
  exec_at s = Some (url, rest) ->
  s = url ++ rest
  /\ exists c run,
      isWhiteSpace c = false
      /\ (url = "http://" ++ String c run \/ url = "https://" ++ String c run).
Proof.
  unfold exec_at.
  destruct (strip_prefix "http" s) as [r|] eqn:E; [|discriminate].
  apply strip_prefix_app in E. subst s.
  assert (Hhttp : match_tail "http" r = Some (url, rest) ->
                  "http" ++ r = url ++ rest
                  /\ exists c run,
                      isWhiteSpace c = false
                      /\ (url = "http://" ++ String c run
                          \/ url = "https://" ++ String c run)).
  { intros H. apply match_tail_shape in H.
    destruct H as [c [run [-> [-> Hc]]]]. split; [reflexivity|].
    exists c, run. split; [exact Hc | now left]. }
  destruct (strip_prefix "s" r) as [r'|] eqn:E1; [|exact Hhttp].
  destruct (match_tail "https" r') as [m|] eqn:E2; [|exact Hhttp].
  intros H. inversion H; subst m. apply strip_prefix_app in E1. subst r.
  apply match_tail_shape in E2. destruct E2 as [c [run [-> [-> Hc]]]].
  split; [reflexivity|]. exists c, run. split; [exact Hc | now right].
Qed.

(** Conversely the pattern matches wherever a scheme, [://] and a
    non-blank code unit stand. *)
Lemma exec_at_http c s :
  isWhiteSpace c = false -> exec_at ("http://" ++ String c s) <> None.
Proof.
  intros Hc. unfold exec_at, match_tail. simpl. rewrite Hc.
  destruct (span_nonspace s). discriminate.
Qed.

Lemma exec_at_https c s :
  isWhiteSpace c = false -> exec_at ("https://" ++ String c s) <> None.
Proof.
  intros Hc. unfold exec_at, match_tail. simpl. rewrite Hc.
  destruct (span_nonspace s). discriminate.
Qed.

Lemma exec_at_startsWith s url rest :
  exec_at s = Some (url, rest) ->
  startsWith s "http://" = true \/ startsWith s "https://" = true.
Proof.
  intros H. apply exec_at_shape in H.
  destruct H as [-> [c [run [_ [-> | ->]]]]];
    [left | right]; apply startsWith_app; eexists;
    rewrite append_assoc; reflexivity.
Qed.

Lemma has_url_cons c s : has_url s = true -> has_url (String c s) = true.
Proof.
  intros H. cbn [has_url]. now destruct (exec_at (String c s)).
Qed.

Lemma has_url_app p s : has_url s = true -> has_url (p ++ s) = true.
Proof.
  intros H. induction p as [|c p IH]; [exact H|].
  simpl append. now apply has_url_cons.
Qed.

Lemma has_url_match s : exec_at s <> None -> has_url s = true.
Proof.
  intros H. destruct s; cbn [has_url]; destruct (exec_at _); congruence.
Qed.

Lemma includes_false_cons c s p :
  includes (String c s) p = false ->
  startsWith (String c s) p = false /\ includes s p = false.
Proof. rewrite includes_cons. apply orb_false_iff. Qed.

Lemma no_scheme_no_url s :
  includes s "http://" = false -> includes s "https://" = false ->
  has_url s = false.
Proof.
  induction s as [|c s IH]; intros H1 H2; [reflexivity|].
  apply includes_false_cons in H1, H2.
  destruct H1 as [S1 I1], H2 as [S2 I2]. cbn [has_url].
  destruct (exec_at (String c s)) as [[url rest]|] eqn:E; [|now apply IH].
  apply exec_at_startsWith in E. destruct E; congruence.
Qed.

(** The anchor holds the URL twice and is longer than it. *)
Lemma anchor_longer url :
  String.length url < String.length (Part000.anchor url).
Proof.
  unfold Part000.anchor. rewrite !length_append. simpl. lia.
Qed.

Lemma replace_nil f : replace f "" = "".
Proof. now simp replace. Qed.

Lemma replace_match f s url rest :
  exec_at s = Some (url, rest) -> replace f s = f url ++ replace f rest.
Proof.
  intros H. destruct s as [|c s].
  - discriminate.
  - simp replace.
    destruct (inspect (exec_at (String c s))) as [[[url' rest']|] Ho];
      simp replace.
    + assert (Heq : Some (url', rest') = Some (url, rest)) by congruence.
      now inversion Heq.
    + congruence.
Qed.

Lemma replace_skip f c s :
  exec_at (String c s) = None ->
  replace f (String c s) = String c (replace f s).
Proof.
  intros H. simp replace.
  destruct (inspect (exec_at (String c s))) as [[[url' rest']|] Ho];
    simp replace.
  - congruence.
  - reflexivity.
Qed.

(** Induction along the scan of [replace]. *)
Lemma scan_ind (P : string -> Prop) :
  P "" ->
  (forall c s, exec_at (String c s) = None -> P s -> P (String c s)) ->
  (forall s url rest, exec_at s = Some (url, rest) -> P rest -> P s) ->
  forall s, P s.
Proof.
  intros Hnil Hskip Hmatch s.
  remember (String.length s) as n eqn:Hn. revert s Hn.
  induction n as [n IH] using lt_wf_ind. intros s Hn.
  destruct (exec_at s) as [[url rest]|] eqn:E.
  - apply (Hmatch s url rest E).
    apply (IH (String.length rest)); [|reflexivity].
    subst n. now apply exec_at_shorter in E.
  - destruct s as [|c s]; [exact Hnil|].
    apply (Hskip c s E). apply (IH (String.length s)); [|reflexivity].
    subst n. simpl. lia.
Qed.

Lemma format_without_url s :
  has_url s = false -> Part000.formatLinksAsHTML s = s.
Proof.
  unfold Part000.formatLinksAsHTML.
  induction s as [|c s E IH|s url rest E IH] using scan_ind; intros H.
  - apply replace_nil.
  - rewrite (replace_skip _ _ _ E). f_equal. apply IH.
    cbn [has_url] in H. now rewrite E in H.
  - destruct s; cbn [has_url] in H; rewrite E in H; discriminate.
Qed.

Lemma format_length s :
  String.length s <= String.length (Part000.formatLinksAsHTML s)
  /\ (has_url s = true ->
      String.length s < String.length (Part000.formatLinksAsHTML s)).
Proof.
  unfold Part000.formatLinksAsHTML.
  induction s as [|c s E IH|s url rest E IH] using scan_ind.
  - rewrite replace_nil. split; [lia | discriminate].
  - rewrite (replace_skip _ _ _ E). simpl. destruct IH as [IH1 IH2].
    split; [lia|]. intros H. cbn [has_url] in H. rewrite E in H.
    specialize (IH2 H). lia.
  - rewrite (replace_match _ _ _ _ E), length_append.
    pose proof (anchor_longer url) as Ha.
    destruct (exec_at_shape _ _ _ E) as [-> _]. rewrite length_append.
    destruct IH as [IH1 _]. split; [lia | intros _; lia].
Qed.

Lemma has_url_anchor url rest tail :
  exec_at (url ++ rest) = Some (url, rest) ->
  has_url (Part000.anchor url ++ tail) = true.
Proof.
  intros E. destruct (exec_at_shape _ _ _ E) as [_ [c [run [Hc Hurl]]]].
  unfold Part000.anchor. rewrite !append_assoc.
  apply has_url_app, has_url_app, has_url_match.
  destruct Hurl as [-> | ->].
  - change ("http://" ++ String c run) with ("http://" ++ (String c run)).
    rewrite append_assoc. simpl (String c run ++ _). now apply exec_at_http.
  - rewrite append_assoc. simpl (String c run ++ _). now apply exec_at_https.
Qed.

Lemma format_keeps_url s :
  has_url s = true -> has_url (Part000.formatLinksAsHTML s) = true.
Proof.
  unfold Part000.formatLinksAsHTML.
  induction s as [|c s E IH|s url rest E IH] using scan_ind; intros H.
  - discriminate.
  - rewrite (replace_skip _ _ _ E). apply has_url_cons, IH.
    cbn [has_url] in H. now rewrite E in H.
  - rewrite (replace_match _ _ _ _ E).
    destruct (exec_at_shape _ _ _ E) as [Hs _]. subst s.
    now apply (has_url_anchor url rest).
Qed.

Lemma format_changes_url s :
  has_url s = true -> Part000.formatLinksAsHTML s <> s.
Proof.
  intros H Heq. pose proof (proj2 (format_length s) H) as Hlt.
  rewrite Heq in Hlt. lia.
Qed.

End LinkFacts.

(** C3, amended.  [formatLinksAsHTML] is the identity on every text with
    no occurrence of [http://] or [https://], and more generally on every
    text in which the pattern does not match; there it is idempotent.  On
    a text in which the pattern matches, wrapped in an anchor or not, an
    application makes the text longer and leaves a match in it, so that a
    second application changes the text again. *)
Theorem formatLinksAsHTML_identity_without_url :
  (forall text,
      includes text "http://" = false ->
      includes text "https://" = false ->
      Part000.formatLinksAsHTML text = text)
  /\ (forall text,
         LinkFacts.has_url text = false ->
         Part000.formatLinksAsHTML text = text
         /\ Part000.formatLinksAsHTML (Part000.formatLinksAsHTML text)
            = Part000.formatLinksAsHTML text)
  /\ (forall text,
         LinkFacts.has_url text = true ->
         String.length text < String.length (Part000.formatLinksAsHTML text)
         /\ LinkFacts.has_url (Part000.formatLinksAsHTML text) = true
         /\ Part000.formatLinksAsHTML (Part000.formatLinksAsHTML text)
            <> Part000.formatLinksAsHTML text).
Proof.
  split; [|split].
  - intros text H1 H2.
    apply LinkFacts.format_without_url, LinkFacts.no_scheme_no_url; assumption.
  - intros text H. rewrite !(LinkFacts.format_without_url text H). now split.
  - intros text H. split; [now apply LinkFacts.format_length|].
    pose proof (LinkFacts.format_keeps_url text H) as Hk.
    split; [exact Hk | now apply LinkFacts.format_changes_url].
Qed.

Lemma formatLinksAsHTML_identity_without_url_witness :
  Part000.formatLinksAsHTML "Ice sculptures should be stored at -10F."
  = "Ice sculptures should be stored at -10F.".
Proof.
  exact (proj1 formatLinksAsHTML_identity_without_url
               "Ice sculptures should be stored at -10F." eq_refl eq_refl).
Defined.

(** C3 as stated fails on the idempotence: in a text whose only URL is
    already wrapped in an anchor, the pattern matches inside the [href]
    attribute and inside the element, so the transform wraps again, at
    every application. *)
Lemma formatLinksAsHTML_not_idempotent_counterexample :
  let wrapped := Part000.anchor "https://theicebutcher.com/" in
  wrapped = Part000.formatLinksAsHTML "https://theicebutcher.com/"
  /\ Part000.formatLinksAsHTML wrapped <> wrapped
  /\ Part000.formatLinksAsHTML (Part000.formatLinksAsHTML wrapped)
     <> Part000.formatLinksAsHTML wrapped.
Proof.
  cbv zeta. split; [reflexivity|].
  split; intros H; vm_compute in H; discriminate.
Qed.

(** * Further properties of the two servers *)

(** ** The external calls of one request *)

Section Traces.

Context {W Store : Type}.
Variable svc : Services W Store.

(** The calls of an ingestion: the steps up to the first one that fails. *)
Inductive ingestion_calls : list Call -> Prop :=
| ing_none : ingestion_calls []
| ing_load : ingestion_calls [CallLoad "./faqs.pdf"]
| ing_split :
    ingestion_calls [CallLoad "./faqs.pdf"; CallSplit (mkSplitter ". " 1000 500)]
| ing_embed chunks :
    ingestion_calls [CallLoad "./faqs.pdf"; CallSplit (mkSplitter ". " 1000 500);
                     CallFromDocuments chunks].

(** The calls of the index check of a request that finds the state [st]:
    none when the variable is set, those of [initializePDF] when it is
    not. *)
Definition ingestion_of (st : ServerState W Store) : list Call :=
  match vectorStore st with
  | Some _ => []
  | None => new_calls st (snd (IndexJs.initializePDF svc st))
  end.

(** Whether the variable is set when the index check is over: it was set,
    or the ingestion of the request answered [true]. *)
Definition index_ready (st : ServerState W Store) : bool :=
  match vectorStore st with
  | Some _ => true
  | None =>
      match fst (IndexJs.initializePDF svc st) with
      | Ok b => b
      | Throw _ => false
      end
  end.

(** The calls after the index check, with the response they end in;
    [general] is the general request of the variant, [ready] tells whether
    the variable is set after the index check. *)
Inductive exchange (general : ChatRequest) (msg : jsval)
  : bool -> list Call -> HttpResponse -> Prop :=
| ex_no_index r :
    general_answer r \/ r = internal_server_error ->
    exchange general msg false [CallCompletion general] r
| ex_search_failed :
    exchange general msg true [CallSimilaritySearch msg 2] internal_server_error
| ex_nothing_retrieved r :
    general_answer r \/ r = internal_server_error ->
    exchange general msg true
      [CallSimilaritySearch msg 2; CallCompletion general] r
| ex_not_relevant text r :
    general_answer r \/ r = internal_server_error ->
    exchange general msg true
      [CallSimilaritySearch msg 2;
       CallCompletion (IndexJs.relevance_request msg text);
       CallCompletion general] r
| ex_grounded text r :
    pdf_answer r \/ r = internal_server_error ->
    exchange general msg true
      [CallSimilaritySearch msg 2;
       CallCompletion (IndexJs.relevance_request msg text);
       CallCompletion (IndexJs.grounded_request msg text)] r.

Definition is_set (v : option Store) : bool :=
  match v with Some _ => true | None => false end.

(** What the handler sends for an outcome of the body of its [try]. *)
Definition response_of (r : result HttpResponse) : HttpResponse :=
  match r with
  | Ok sent => sent
  | Throw _ => internal_server_error
  end.

Lemma ensure_calls (st : ServerState W Store) :
  calls (snd (IndexJs.ensure_vectorStore svc st))
  = (calls st ++ ingestion_of st)%list
  /\ is_set (vectorStore (snd (IndexJs.ensure_vectorStore svc st)))
     = index_ready st.
Proof.
  unfold ingestion_of, index_ready.
  destruct (vectorStore st) as [store|] eqn:Hs.
  - rewrite (ensure_ready svc store st Hs). cbn [snd].
    now rewrite app_nil_r, Hs.
  - rewrite (ensure_unset svc st Hs). cbn [snd].
    destruct (initializePDF_run svc st) as [b [st' [rest [Hr [Hc Hb]]]]].
    rewrite Hr. cbn [fst snd]. split.
    + now rewrite (new_calls_app _ _ _ Hc).
    + destruct b; [destruct Hb as [store ->]; reflexivity|].
      now rewrite Hb, Hs.
Qed.

End Traces.

Ltac solve_answer :=
  first [ left; eexists; reflexivity | right; reflexivity ].

Ltac solve_exchange :=
  first [ apply ex_search_failed
        | apply ex_no_index; solve_answer
        | apply ex_nothing_retrieved; solve_answer
        | eapply ex_not_relevant; solve_answer
        | eapply ex_grounded; solve_answer ].

Ltac solve_after_check :=
  eexists; split;
  [ cbn [snd calls]; rewrite <- ?app_assoc; cbn [app]; reflexivity
  | cbn [fst response_of is_set]; solve_exchange ].

Section AfterCheck.

Context {W Store : Type}.
Variable svc : Services W Store.

Lemma index_after_check_exchange msg (st1 : ServerState W Store) :
  exists tail,
    calls (snd (index_after_check svc msg st1)) = (calls st1 ++ tail)%list
    /\ exchange (IndexJs.general_request msg) msg (is_set (vectorStore st1))
         tail (response_of (fst (index_after_check svc msg st1))).
Proof.
  unfold index_after_check, index_fallback, IndexJs.grounded_answer,
    IndexJs.getOpenAIResponse, IndexJs.isRelevantPDFContent.
  run; solve_after_check.
Qed.

Lemma part_after_check_exchange msg (st1 : ServerState W Store) :
  exists tail,
    calls (snd (part_after_check svc msg st1)) = (calls st1 ++ tail)%list
    /\ exchange (Part000.general_request msg) msg (is_set (vectorStore st1))
         tail (response_of (fst (part_after_check svc msg st1))).
Proof.
  unfold part_after_check, part_fallback, Part000.grounded_answer,
    Part000.getOpenAIResponse, Part000.isRelevantPDFContent.
  run; solve_after_check.
Qed.

End AfterCheck.

(** X1.  The external calls of a request that passes the message check, in
    both variants.  First come the calls of the index check: none when the
    variable is set on arrival, otherwise exactly the calls of
    [initializePDF], which stop at its first failing step.  Then comes one
    of five sequences: the general completion alone, exactly when the
    variable is not set after the index check; otherwise a similarity
    search for the message itself with [k = 2], alone when it is rejected,
    or followed by the general completion, or by the classification call
    and then either the general or the grounded completion.  The answer
    comes from the PDF knowledge base only after the last sequence, and a
    request never makes both a grounded and a general completion. *)
Theorem chat_request_calls {W Store} (svc : Services W Store)
        (req : Request) (st : ServerState W Store) :
  truthy (body_message req) = true ->
  ingestion_calls (ingestion_of svc st)
  /\ (exists r tail,
         fst (IndexJs.chat svc req st) = Ok r
         /\ new_calls st (snd (IndexJs.chat svc req st))
            = (ingestion_of svc st ++ tail)%list
         /\ exchange (IndexJs.general_request (body_message req))
              (body_message req) (index_ready svc st) tail r)
  /\ (exists r tail,
         fst (Part000.chat svc req st) = Ok r
         /\ new_calls st (snd (Part000.chat svc req st))
            = (ingestion_of svc st ++ tail)%list
         /\ exchange (Part000.general_request (body_message req))
              (body_message req) (index_ready svc st) tail r).
Proof.
  intros Hm. destruct (ensure_calls svc st) as [Hc Hr].
  split; [|split].
  - unfold ingestion_of. destruct (vectorStore st); [constructor|].
    destruct (initializePDF_run svc st) as [b [st' [rest [Hi [Hcalls _]]]]].
    clear Hc Hr. revert Hi. unfold IndexJs.initializePDF. unfold_monad.
    destruct (loader_load svc IndexJs.pdf (world st)) as [[docs|e] w1];
      cbn [world calls vectorStore console].
    2:{ intros _. erewrite new_calls_app by reflexivity. constructor. }
    destruct (splitter_splitDocuments svc _ docs w1) as [[chunks|e] w2];
      cbn [world calls vectorStore console].
    2:{ intros _.
        erewrite new_calls_app by (cbn; rewrite <- app_assoc; reflexivity).
        constructor. }
    destruct (store_fromDocuments svc chunks w2) as [[store|e] w3];
      cbn [world calls vectorStore console]; intros _;
      erewrite new_calls_app by (cbn; rewrite <- !app_assoc; reflexivity);
      constructor.
  - rewrite (index_chat_truthy svc req st Hm), index_chat_try_steps.
    destruct (index_after_check_exchange svc (body_message req)
                (snd (IndexJs.ensure_vectorStore svc st))) as [tail [Ht He]].
    rewrite Hc in Ht. rewrite Hr in He.
    destruct (index_after_check svc (body_message req) _) as [[r|e] st'];
      cbn [fst snd response_of calls] in *; do 2 eexists;
      (split; [reflexivity|]); (split; [|exact He]);
      apply new_calls_app; cbn [calls]; now rewrite Ht, app_assoc.
  - rewrite (part_chat_truthy svc req st Hm), part_chat_try_steps.
    destruct (part_after_check_exchange svc (body_message req)
                (snd (IndexJs.ensure_vectorStore svc st))) as [tail [Ht He]].
    rewrite Hc in Ht. rewrite Hr in He.
    destruct (part_after_check svc (body_message req) _) as [[r|e] st'];
      cbn [fst snd response_of calls] in *; do 2 eexists;
      (split; [reflexivity|]); (split; [|exact He]);
      apply new_calls_app; cbn [calls]; now rewrite Ht, app_assoc.
Qed.

Lemma chat_request_calls_witness :
  exists r tail,
    fst (IndexJs.chat Scripted.services (mkRequest (JStr "How cold is ice?"))
           (Scripted.boot (Scripted.healthy [Ok "true"; Ok "Below zero."])))
    = Ok r
    /\ new_calls
         (Scripted.boot (Scripted.healthy [Ok "true"; Ok "Below zero."]))
         (snd (IndexJs.chat Scripted.services
                 (mkRequest (JStr "How cold is ice?"))
                 (Scripted.boot (Scripted.healthy [Ok "true"; Ok "Below zero."]))))
       = ([CallLoad "./faqs.pdf"; CallSplit (mkSplitter ". " 1000 500);
           CallFromDocuments [Scripted.faq]] ++ tail)%list
    /\ exchange (IndexJs.general_request (JStr "How cold is ice?"))
         (JStr "How cold is ice?") true tail r.
Proof.
  exact (proj1 (proj2 (chat_request_calls Scripted.services
                         (mkRequest (JStr "How cold is ice?"))
                         (Scripted.boot
                            (Scripted.healthy [Ok "true"; Ok "Below zero."]))
                         eq_refl))).
Defined.

(** ** Ingestion *)

(** X2.  [initializePDF] never throws and is all or nothing, in both
    variants.  It answers [true] only when the load, the split and the
    embedding all resolved, each fed with the result of the one before;
    then [vectorStore] holds the store just built and the console says so.
    Otherwise it answers [false], [vectorStore] is what it was, the error
    of the failing step is on the console, and the calls stop at that
    step: the load alone when the load is rejected, the load and the
    split when the split is rejected, all three when the embedding is
    rejected. *)
Theorem initializePDF_all_or_nothing {W Store} (svc : Services W Store)
        (st : ServerState W Store) :
  exists b st',
    IndexJs.initializePDF svc st = (Ok b, st')
    /\ Part000.initializePDF svc st = (Ok b, st')
    /\ ingestion_calls (new_calls st st')
    /\ if b then
         exists docs w1 chunks w2 store,
           loader_load svc "./faqs.pdf" (world st) = (Ok docs, w1)
           /\ splitter_splitDocuments svc (mkSplitter ". " 1000 500) docs w1
              = (Ok chunks, w2)
           /\ store_fromDocuments svc chunks w2 = (Ok store, world st')
           /\ vectorStore st' = Some store
           /\ new_calls st st'
              = [CallLoad "./faqs.pdf"; CallSplit (mkSplitter ". " 1000 500);
                 CallFromDocuments chunks]
           /\ console st'
              = (console st ++ [ConsoleLog "PDF initialization complete"])%list
       else
         vectorStore st' = vectorStore st
         /\ exists e,
             console st'
             = (console st ++ [ConsoleError "Error loading PDF:" e])%list
             /\ ((loader_load svc "./faqs.pdf" (world st) = (Throw e, world st')
                  /\ new_calls st st' = [CallLoad "./faqs.pdf"])
                 \/ (exists docs w1,
                        loader_load svc "./faqs.pdf" (world st) = (Ok docs, w1)
                        /\ splitter_splitDocuments svc
                             (mkSplitter ". " 1000 500) docs w1
                           = (Throw e, world st')
                        /\ new_calls st st'
                           = [CallLoad "./faqs.pdf";
                              CallSplit (mkSplitter ". " 1000 500)])
                 \/ (exists docs w1 chunks w2,
                        loader_load svc "./faqs.pdf" (world st) = (Ok docs, w1)
                        /\ splitter_splitDocuments svc
                             (mkSplitter ". " 1000 500) docs w1
                           = (Ok chunks, w2)
                        /\ store_fromDocuments svc chunks w2
                           = (Throw e, world st')
                        /\ new_calls st st'
                           = [CallLoad "./faqs.pdf";
                              CallSplit (mkSplitter ". " 1000 500);
                              CallFromDocuments chunks])).
Proof.
  change (Part000.initializePDF svc st) with (IndexJs.initializePDF svc st).
  unfold IndexJs.initializePDF. unfold_monad.
  destruct (loader_load svc IndexJs.pdf (world st)) as [[docs|e] w1] eqn:Hl;
    cbn [world calls vectorStore console].
  2:{ exists false. eexists. split; [reflexivity|]. split; [reflexivity|].
      assert (Hn : forall v c,
                 new_calls st (mkState v w1 (calls st ++ [CallLoad IndexJs.pdf])%list c)
                 = [CallLoad "./faqs.pdf"])
        by (intros; now apply new_calls_app).
      split; [rewrite Hn; constructor|]. split; [reflexivity|].
      exists e. split; [reflexivity|]. left. split; [exact Hl | apply Hn]. }
  destruct (splitter_splitDocuments svc _ docs w1) as [[chunks|e] w2] eqn:Hs;
    cbn [world calls vectorStore console].
  2:{ exists false. eexists. split; [reflexivity|]. split; [reflexivity|].
      assert (Hn : forall v c,
                 new_calls st
                   (mkState v w2
                      ((calls st ++ [CallLoad IndexJs.pdf])
                       ++ [CallSplit (mkSplitter ". " 1000 500)])%list c)
                 = [CallLoad "./faqs.pdf"; CallSplit (mkSplitter ". " 1000 500)])
        by (intros; apply new_calls_app; cbn; now rewrite <- app_assoc).
      split; [rewrite Hn; constructor|]. split; [reflexivity|].
      exists e. split; [reflexivity|]. right; left.
      exists docs, w1. split; [exact Hl|]. split; [exact Hs | apply Hn]. }
  assert (Hn : forall v w c,
             new_calls st
               (mkState v w
                  (((calls st ++ [CallLoad IndexJs.pdf])
                    ++ [CallSplit (mkSplitter ". " 1000 500)])
                   ++ [CallFromDocuments chunks])%list c)
             = [CallLoad "./faqs.pdf"; CallSplit (mkSplitter ". " 1000 500);
                CallFromDocuments chunks])
    by (intros; apply new_calls_app; cbn; now rewrite <- !app_assoc).
  destruct (store_fromDocuments svc chunks w2) as [[store|e] w3] eqn:He;
    cbn [world calls vectorStore console].
  - exists true. eexists. split; [reflexivity|]. split; [reflexivity|].
    split; [rewrite Hn; constructor|].
    exists docs, w1, chunks, w2, store.
    split; [exact Hl|]. split; [exact Hs|]. split; [exact He|].
    split; [reflexivity|]. split; [apply Hn | reflexivity].
  - exists false. eexists. split; [reflexivity|]. split; [reflexivity|].
    split; [rewrite Hn; constructor|]. split; [reflexivity|].
    exists e. split; [reflexivity|]. right; right.
    exists docs, w1, chunks, w2.
    split; [exact Hl|]. split; [exact Hs|]. split; [exact He | apply Hn].
Qed.

Section LazyIndex.

Context {W Store : Type}.
Variable svc : Services W Store.


End LazyIndex.



(** ** The grounded path *)



(** ** Lazy ingestion inside a request *)

Section NewIndex.

Context {W Store : Type}.
Variable svc : Services W Store.

(** The block under [if (vectorStore)] starts with the similarity search
    and leaves the variable alone. *)
Lemma index_grounded_calls store msg (st : ServerState W Store) :
  exists rest,
    calls (snd (IndexJs.grounded_answer svc store msg st))
    = (calls st ++ CallSimilaritySearch msg 2 :: rest)%list
    /\ vectorStore (snd (IndexJs.grounded_answer svc store msg st))
       = vectorStore st.
Proof.
  unfold IndexJs.grounded_answer, IndexJs.isRelevantPDFContent.
  run; cbn [snd calls vectorStore]; eexists;
    (split; [rewrite <- ?app_assoc; reflexivity | reflexivity]).
Qed.

Lemma part_grounded_calls store msg (st : ServerState W Store) :
  exists rest,
    calls (snd (Part000.grounded_answer svc store msg st))
    = (calls st ++ CallSimilaritySearch msg 2 :: rest)%list
    /\ vectorStore (snd (Part000.grounded_answer svc store msg st))
       = vectorStore st.
Proof.
  rewrite grounded_answer_formats.
  destruct (index_grounded_calls store msg st) as [rest H].
  exists rest.
  now destruct (IndexJs.grounded_answer svc store msg st) as [[[r|]|e] st'].
Qed.

Lemma index_after_check_ready store msg (st1 : ServerState W Store) :
  vectorStore st1 = Some store ->
  exists rest,
    calls (snd (index_after_check svc msg st1))
    = (calls st1 ++ CallSimilaritySearch msg 2 :: rest)%list
    /\ vectorStore (snd (index_after_check svc msg st1)) = Some store.
Proof.
  intros Hs. unfold index_after_check. rewrite Hs.
  destruct (index_grounded_calls store msg st1) as [rest [Hc Hv]].
  rewrite Hs in Hv.
  destruct (IndexJs.grounded_answer svc store msg st1) as [[[r|]|e] st2];
    cbn [snd] in *; try (now exists rest).
  rewrite index_fallback_run.
  destruct (completions_create svc _ (world st2)) as [[answer|e] w'];
    cbn [snd calls vectorStore]; eexists;
    (split; [rewrite Hc, <- app_assoc; reflexivity | exact Hv]).
Qed.

Lemma part_after_check_ready store msg (st1 : ServerState W Store) :
  vectorStore st1 = Some store ->
  exists rest,
    calls (snd (part_after_check svc msg st1))
    = (calls st1 ++ CallSimilaritySearch msg 2 :: rest)%list
    /\ vectorStore (snd (part_after_check svc msg st1)) = Some store.
Proof.
  intros Hs. unfold part_after_check. rewrite Hs.
  destruct (part_grounded_calls store msg st1) as [rest [Hc Hv]].
  rewrite Hs in Hv.
  destruct (Part000.grounded_answer svc store msg st1) as [[[r|]|e] st2];
    cbn [snd] in *; try (now exists rest).
  rewrite part_fallback_run.
  destruct (completions_create svc _ (world st2)) as [[answer|e] w'];
    cbn [snd calls vectorStore]; eexists;
    (split; [rewrite Hc, <- app_assoc; reflexivity | exact Hv]).
Qed.

End NewIndex.

(** X5.  When the index is unset and the ingestion of a request succeeds,
    the same request goes on to a similarity search for its message, and
    the new index outlives the request whatever its end, a 500 included:
    the variable holds the store that [initializePDF] set. *)
Theorem chat_keeps_new_index {W Store} (svc : Services W Store)
        (req : Request) (st st1 : ServerState W Store) :
  truthy (body_message req) = true ->
  vectorStore st = None ->
  IndexJs.initializePDF svc st = (Ok true, st1) ->
  (exists store rest,
      vectorStore st1 = Some store
      /\ vectorStore (snd (IndexJs.chat svc req st)) = Some store
      /\ new_calls st1 (snd (IndexJs.chat svc req st))
         = CallSimilaritySearch (body_message req) 2 :: rest)
  /\ (exists store rest,
         vectorStore st1 = Some store
         /\ vectorStore (snd (Part000.chat svc req st)) = Some store
         /\ new_calls st1 (snd (Part000.chat svc req st))
            = CallSimilaritySearch (body_message req) 2 :: rest).
Proof.
  intros Hm Hs Hi.
  destruct (initializePDF_run svc st) as [b [st' [rest0 [Hr [_ Hb]]]]].
  rewrite Hi in Hr. inversion Hr; subst b st'. destruct Hb as [store Hst].
  split; exists store.
  - rewrite (index_chat_truthy svc req st Hm), index_chat_try_steps.
    rewrite (ensure_unset svc st Hs), Hi. cbn [snd].
    destruct (index_after_check_ready svc store (body_message req) st1 Hst)
      as [rest [Hc Hv]].
    exists rest.
    destruct (index_after_check svc (body_message req) st1) as [[r|e] st2];
      cbn [snd calls vectorStore] in *;
      (split; [exact Hst | split; [exact Hv | now apply new_calls_app]]).
  - rewrite (part_chat_truthy svc req st Hm), part_chat_try_steps.
    rewrite (ensure_unset svc st Hs), Hi. cbn [snd].
    destruct (part_after_check_ready svc store (body_message req) st1 Hst)
      as [rest [Hc Hv]].
    exists rest.
    destruct (part_after_check svc (body_message req) st1) as [[r|e] st2];
      cbn [snd calls vectorStore] in *;
      (split; [exact Hst | split; [exact Hv | now apply new_calls_app]]).
Qed.

Lemma chat_keeps_new_index_witness :
  let w := Scripted.mkWorld (Ok [Scripted.faq]) (Ok [Scripted.faq]) (Ok tt)
             (Throw (mkError "embedding service unreachable")) [] in
  vectorStore (snd (IndexJs.chat Scripted.services
                      (mkRequest (JStr "How cold is ice?")) (Scripted.boot w)))
  = Some tt.
Proof.
  intros w.
  destruct (proj1 (chat_keeps_new_index Scripted.services
                     (mkRequest (JStr "How cold is ice?")) (Scripted.boot w)
                     (snd (IndexJs.initializePDF Scripted.services
                             (Scripted.boot w)))
                     eq_refl eq_refl eq_refl))
    as [store [rest [_ [H _]]]].
  destruct store. exact H.
Defined.

(** ** The link formatter, token by token *)

Module LinkTokens.

Import UrlRegex LinkFacts.

(** No code unit of the text is matched by [\s]. *)
Fixpoint no_whitespace (s : string) : bool :=
  match s with
  | EmptyString => true
  | String c s' => negb (isWhiteSpace c) && no_whitespace s'
  end.

Lemma append_nil_r (s : string) : s ++ "" = s.
Proof. induction s as [|c s IH]; simpl; [reflexivity | now rewrite IH]. Qed.

Lemma span_nonspace_token s :
  no_whitespace s = true -> span_nonspace s = (s, "").
Proof.
  induction s as [|c s IH]; intros H; [reflexivity|].
  simpl in *. apply andb_true_iff in H. destruct H as [Hc Hs].
  apply negb_true_iff in Hc. now rewrite Hc, (IH Hs).
Qed.

(** A blank after the text stops the run where the end of the text did. *)
Lemma span_nonspace_blank ws b s : forall run rest,
  isWhiteSpace ws = true ->
  span_nonspace s = (run, rest) ->
  span_nonspace (s ++ String ws b) = (run, rest ++ String ws b).
Proof.
  induction s as [|c s IH]; intros run rest Hws H; simpl in *.
  - inversion H; subst. simpl. now rewrite Hws.
  - destruct (isWhiteSpace c).
    + now inversion H.
    + destruct (span_nonspace s) as [run' rest'].
      inversion H; subst. now rewrite (IH run' rest Hws eq_refl).
Qed.

Lemma blank_differs a ws :
  isWhiteSpace a = false -> isWhiteSpace ws = true -> Ascii.eqb a ws = false.
Proof.
  intros Ha Hws. destruct (Ascii.eqb_spec a ws) as [->|]; congruence.
Qed.

Lemma strip_prefix_blank ws b p : forall r,
  no_whitespace p = true ->
  isWhiteSpace ws = true ->
  strip_prefix p (r ++ String ws b)
  = option_map (fun t => t ++ String ws b) (strip_prefix p r).
Proof.
  induction p as [|a p IH]; intros r Hp Hws; [reflexivity|].
  simpl in Hp. apply andb_true_iff in Hp. destruct Hp as [Ha Hp].
  apply negb_true_iff in Ha. destruct r as [|c r]; simpl.
  - now rewrite (blank_differs a ws Ha Hws).
  - destruct (Ascii.eqb a c); [now apply IH | reflexivity].
Qed.

Definition shift (ws : ascii) (b : string) (m : string * string)
  : string * string :=
  (fst m, snd m ++ String ws b).

Lemma match_tail_blank ws b scheme r :
  isWhiteSpace ws = true ->
  match_tail scheme (r ++ String ws b)
  = option_map (shift ws b) (match_tail scheme r).
Proof.
  intros Hws. unfold match_tail.
  rewrite (strip_prefix_blank ws b "://" r eq_refl Hws).
  destruct (strip_prefix "://" r) as [t|]; [|reflexivity]. cbn [option_map].
  destruct (span_nonspace t) as [run rest] eqn:E.
  rewrite (span_nonspace_blank ws b t run rest Hws E).
  now destruct run.
Qed.

Lemma exec_at_blank ws b s :
  isWhiteSpace ws = true ->
  exec_at (s ++ String ws b) = option_map (shift ws b) (exec_at s).
Proof.
  intros Hws. unfold exec_at.
  rewrite (strip_prefix_blank ws b "http" s eq_refl Hws).
  destruct (strip_prefix "http" s) as [r|]; [|reflexivity]. cbn [option_map].
  rewrite (strip_prefix_blank ws b "s" r eq_refl Hws).
  destruct (strip_prefix "s" r) as [r'|]; cbn [option_map].
  - rewrite (match_tail_blank ws b "https" r' Hws).
    destruct (match_tail "https" r') as [m|]; [reflexivity|].
    cbn [option_map]. apply match_tail_blank, Hws.
  - apply match_tail_blank, Hws.
Qed.

Lemma exec_at_token_http c run :
  no_whitespace (String c run) = true ->
  exec_at ("http://" ++ String c run)
  = Some ("http://" ++ String c run, "").
Proof.
  intros H. unfold exec_at, match_tail.
  cbn [strip_prefix append Ascii.eqb Bool.eqb].
  now rewrite (span_nonspace_token _ H).
Qed.

Lemma exec_at_token_https c run :
  no_whitespace (String c run) = true ->
  exec_at ("https://" ++ String c run)
  = Some ("https://" ++ String c run, "").
Proof.
  intros H. unfold exec_at, match_tail.
  cbn [strip_prefix append Ascii.eqb Bool.eqb].
  now rewrite (span_nonspace_token _ H).
Qed.

End LinkTokens.

(** X7.  A token made of [http://] or [https://] followed by at least one
    code unit, with no blank in it, is wrapped as a whole: the anchor takes
    everything up to the end of the token, closing punctuation included. *)
Theorem formatLinksAsHTML_wraps_token (scheme run : string) :
  scheme = "http" \/ scheme = "https" ->
  run <> "" ->
  LinkTokens.no_whitespace run = true ->
  Part000.formatLinksAsHTML (scheme ++ "://" ++ run)
  = Part000.anchor (scheme ++ "://" ++ run).
Proof.
  intros Hscheme Hrun Hns. destruct run as [|c run]; [congruence|].
  unfold Part000.formatLinksAsHTML.
  destruct Hscheme as [-> | ->].
  - rewrite (LinkFacts.replace_match _ _ _ _
               (LinkTokens.exec_at_token_http c run Hns)).
    now rewrite LinkFacts.replace_nil, LinkTokens.append_nil_r.
  - rewrite (LinkFacts.replace_match _ _ _ _
               (LinkTokens.exec_at_token_https c run Hns)).
    now rewrite LinkFacts.replace_nil, LinkTokens.append_nil_r.
Qed.

Lemma formatLinksAsHTML_wraps_token_witness :
  Part000.formatLinksAsHTML "https://theicebutcher.com/."
  = Part000.anchor "https://theicebutcher.com/.".
Proof.
  exact (formatLinksAsHTML_wraps_token "https" "theicebutcher.com/."
           (or_intror eq_refl) ltac:(discriminate) eq_refl).
Defined.

(** X8.  The transform works on each side of a blank alone: for a code
    unit [ws] matched by [\s], the result on [a ++ ws ++ b] is the result
    on [a], then [ws], then the result on [b].  No match runs over a
    blank, and the blanks of the text are kept as they are. *)
Theorem formatLinksAsHTML_splits_at_blank (a b : string) (ws : ascii) :
  isWhiteSpace ws = true ->
  Part000.formatLinksAsHTML (a ++ String ws b)
  = Part000.formatLinksAsHTML a ++ String ws (Part000.formatLinksAsHTML b).
Proof.
  intros Hws. unfold Part000.formatLinksAsHTML.
  induction a as [|c s E IH|s url rest E IH] using LinkFacts.scan_ind.
  - rewrite LinkFacts.replace_nil. cbn [append].
    apply LinkFacts.replace_skip.
    exact (LinkTokens.exec_at_blank ws b "" Hws).
  - rewrite (LinkFacts.replace_skip _ _ _ E). cbn [append].
    rewrite LinkFacts.replace_skip.
    + now rewrite IH.
    + change (String c (s ++ String ws b)) with (String c s ++ String ws b).
      now rewrite (LinkTokens.exec_at_blank ws b _ Hws), E.
  - rewrite (LinkFacts.replace_match _ _ _ _ E).
    assert (E' : UrlRegex.exec_at (s ++ String ws b)
                 = Some (url, rest ++ String ws b))
      by now rewrite (LinkTokens.exec_at_blank ws b _ Hws), E.
    rewrite (LinkFacts.replace_match _ _ _ _ E'), IH.
    now rewrite LinkFacts.append_assoc.
Qed.

Lemma formatLinksAsHTML_splits_at_blank_witness :
  Part000.formatLinksAsHTML "Visit https://theicebutcher.com/"
  = "Visit " ++ Part000.formatLinksAsHTML "https://theicebutcher.com/".
Proof.
  exact (formatLinksAsHTML_splits_at_blank "Visit"
           "https://theicebutcher.com/" " "%char eq_refl).
Defined.

(** ** Nothing of the text is lost *)

Module LinkKeeps.

Import UrlRegex LinkFacts.

(** [s] can be read in [t], in order, skipping code units of [t]. *)
Inductive subsequence : string -> string -> Prop :=
| sub_nil t : subsequence "" t
| sub_keep c s t : subsequence s t -> subsequence (String c s) (String c t)
| sub_skip c s t : subsequence s t -> subsequence s (String c t).

Lemma subsequence_refl s : subsequence s s.
Proof. induction s; constructor; assumption. Qed.

Lemma subsequence_after p s t : subsequence s t -> subsequence s (p ++ t).
Proof. intros H. induction p; simpl; [exact H | now constructor]. Qed.

Lemma subsequence_app s1 t1 s2 t2 :
  subsequence s1 t1 -> subsequence s2 t2 ->
  subsequence (s1 ++ s2) (t1 ++ t2).
Proof.
  intros H1 H2. induction H1; cbn [append].
  - now apply subsequence_after.
  - now constructor.
  - now constructor.
Qed.

Lemma subsequence_before s q : subsequence s (s ++ q).
Proof.
  rewrite <- (LinkTokens.append_nil_r s) at 1.
  apply subsequence_app; [apply subsequence_refl | constructor].
Qed.

Lemma subsequence_anchor url : subsequence url (Part000.anchor url).
Proof.
  unfold Part000.anchor.
  do 2 apply subsequence_after. apply subsequence_before.
Qed.

End LinkKeeps.

(** X9.  [formatLinksAsHTML] only adds: every code unit of the text is in
    the result, in the same order, and the result is never shorter than
    the text. *)
Theorem formatLinksAsHTML_keeps_text (text : string) :
  LinkKeeps.subsequence text (Part000.formatLinksAsHTML text)
  /\ String.length text <= String.length (Part000.formatLinksAsHTML text).
Proof.
  split; [|apply LinkFacts.format_length].
  unfold Part000.formatLinksAsHTML.
  induction text as [|c s E IH|s url rest E IH] using LinkFacts.scan_ind.
  - constructor.
  - rewrite (LinkFacts.replace_skip _ _ _ E). now constructor.
  - rewrite (LinkFacts.replace_match _ _ _ _ E).
    destruct (LinkFacts.exec_at_shape _ _ _ E) as [-> _].
    apply LinkKeeps.subsequence_app;
      [apply LinkKeeps.subsequence_anchor | exact IH].
Qed.

(** ** The message check *)

(** X10.  The handler of both variants answers 400 exactly when [message]
    is falsy: missing, [null], [false], [0] or the empty string.  Every
    other message, a string or not, enters the [try] and is answered 200
    or 500. *)
Theorem chat_400_iff_falsy {W Store} (svc : Services W Store)
        (req : Request) (st : ServerState W Store) :
  (exists r, fst (IndexJs.chat svc req st) = Ok r
             /\ (status r = 400 <-> truthy (body_message req) = false)
             /\ (status r = 200 \/ status r = 400 \/ status r = 500))
  /\ (exists r, fst (Part000.chat svc req st) = Ok r
                /\ (status r = 400 <-> truthy (body_message req) = false)
                /\ (status r = 200 \/ status r = 400 \/ status r = 500)).
Proof.
  destruct (truthy (body_message req)) eqn:Hm.
  - split.
    + rewrite (index_chat_truthy svc req st Hm).
      pose proof (index_chat_try_outcome svc (body_message req) st) as Ho.
      destruct (IndexJs.chat_try svc (body_message req) st) as [[r|e] st'];
        cbn in *; eexists; (split; [reflexivity|]).
      * destruct Ho as [[m ->] | [m ->]]; cbn;
          (split; [split; discriminate | now left]).
      * cbn. split; [split; discriminate | now right; right].
    + rewrite (part_chat_truthy svc req st Hm).
      pose proof (part_chat_try_outcome svc (body_message req) st) as Ho.
      destruct (Part000.chat_try svc (body_message req) st) as [[r|e] st'];
        cbn in *; eexists; (split; [reflexivity|]).
      * destruct Ho as [[m ->] | [m ->]]; cbn;
          (split; [split; discriminate | now left]).
      * cbn. split; [split; discriminate | now right; right].
  - destruct (chat_falsy svc req st Hm) as [-> ->].
    split; eexists; (split; [reflexivity|]); cbn;
      (split; [now split | now right; left]).
Qed.

(** * The asynchronous servers *)

(** ** Running alone and the first part *)

Ltac unfold_async :=
  cbv beta iota zeta delta
    [Async.chat Async.chat_try Async.grounded_answer Async.getOpenAIResponse
     Async.isRelevantPDFContent Async.initializePDF Async.await
     Async.await_async Async.bindP Async.try_catchP Async.retP Async.throwP
     Async.of_result Async.read_vectorStore Async.write_vectorStore
     Async.console_logP Async.console_errorP Async.results_textP
     Async.general Async.message_from Async.index_js Async.part_000
     Async.reply_content run oracle_of Async.call_of] in *.

Ltac run_both :=
  unfold res_status_json, res_json in *; unfold_monad;
  repeat (cbn [fst snd vectorStore world calls console body status];
          next_outcome).

Section Refinement.

Context {W Store : Type}.
Variable svc : Services W Store.

Lemma run_initializePDF (st : ServerState W Store) :
  run (oracle_of svc) Async.initializePDF st = IndexJs.initializePDF svc st.
Proof.
  unfold IndexJs.initializePDF, IndexJs.pdf. unfold_async. run_both; reflexivity.
Qed.

(** Run alone on completions that carry a text, the asynchronous handler
    of each variant is the handler of the first part. *)
Lemma run_chat_index req (st : ServerState W Store) :
  run (oracle_of svc) (Async.chat Async.index_js req) st
  = sent_of_outcome (IndexJs.chat svc req st).
Proof.
  unfold sent_of_outcome, sent_of. unfold_index. unfold IndexJs.pdf.
  unfold_async. run_both; reflexivity.
Qed.

Lemma run_chat_part req (st : ServerState W Store) :
  run (oracle_of svc) (Async.chat Async.part_000 req) st
  = sent_of_outcome (Part000.chat svc req st).
Proof.
  unfold sent_of_outcome, sent_of. unfold_part. unfold Part000.pdf.
  change Part000.relevance_request with IndexJs.relevance_request.
  change Part000.grounded_request with IndexJs.grounded_request.
  unfold_async. run_both; reflexivity.
Qed.

End Refinement.

(** ** Tasks that interleave

    The process runs one task at a time and a task keeps the thread until
    it suspends.  A turn of a task runs its steps up to the next
    suspension; an external call is made, and recorded, in the turn that
    reaches its [await], and settles in a later turn.  Between two turns
    of a task any other task may take turns, and requests may arrive. *)

Section Turns.

Context {Store : Type}.

(** The steps of a program up to its next suspension, from the value of
    [vectorStore] and the console. *)
Fixpoint settle {A} (p : Async.Prog Store A) (index : option Store)
         (out : list LogLine)
  : Async.Prog Store A * (option Store * list LogLine) :=
  match p with
  | Async.ReadIndex k => settle (k index) index out
  | Async.SetIndex store k => settle k (Some store) out
  | Async.Console line k => settle k index (out ++ [line])%list
  | _ => (p, (index, out))
  end.

(** The call a suspended program has made and waits for. *)
Definition awaited {A} (p : Async.Prog Store A) : list Call :=
  match p with
  | Async.Await c _ => [Async.call_of c]
  | _ => []
  end.

(** A task: the request it handles ([None] for the ingestion started by
    [app.listen]), whether it found [vectorStore] set when it started, the
    external calls it has made, and what is left of its program. *)
Record Job : Type := mkJob
  { job_request : option Request;
    found_set : bool;
    job_calls : list Call;
    job_type : Type;
    job_code : Async.Prog Store job_type }.

End Turns.

Arguments Job : clear implicits.

Section Interleaving.

Context {W Store : Type}.
Variable o : @Oracle W Store.
Variable v : Async.Variant.

Record System : Type := mkSystem
  { shared : ServerState W Store;
    jobs : list (Job Store) }.

(** One turn of a program in the process state [st]. *)
Definition turn {A} (p : Async.Prog Store A) (st : ServerState W Store)
  : Async.Prog Store A * ServerState W Store :=
  let '(p', (index, out)) := settle p (vectorStore st) (console st) in
  (p', mkState index (world st) (calls st ++ awaited p')%list out).

Definition start_job {A} (request : option Request)
           (p : Async.Prog Store A) (st : ServerState W Store)
  : Job Store * ServerState W Store :=
  let (p', st') := turn p st in
  (mkJob request (is_set (vectorStore st)) (awaited p') A p', st').

Definition continue_job {A} (job : Job Store) (p : Async.Prog Store A)
           (st : ServerState W Store) : Job Store * ServerState W Store :=
  let (p', st') := turn p st in
  (mkJob (job_request job) (found_set job)
         (job_calls job ++ awaited p')%list A p', st').

Fixpoint set_nth {A} (i : nat) (x : A) (l : list A) : list A :=
  match l, i with
  | [], _ => []
  | _ :: rest, 0 => x :: rest
  | y :: rest, S j => y :: set_nth j x rest
  end.

Inductive Event : Type :=
| Arrived (req : Request)
| Settled (job : nat) (call : Call) (resolved : bool)
| Resumed (job : nat).

Definition resolved {X} (r : result X) : bool :=
  match r with Ok _ => true | Throw _ => false end.

(** The turns of the process: a request arrives and its handler runs to
    its first suspension; the call a task waits for settles and the task
    goes on; a task waiting for a function of the file goes on. *)
Inductive step : System -> Event -> System -> Prop :=
| step_arrive sys req job st' :
    start_job (Some req) (Async.chat v req) (shared sys) = (job, st') ->
    step sys (Arrived req) (mkSystem st' (jobs sys ++ [job]))
| step_settle sys i job X (c : Async.Ext Store X)
              (k : result X -> Async.Prog Store (job_type job)) r w' job' st' :
    nth_error (jobs sys) i = Some job ->
    job_code job = Async.Await c k ->
    o X c (world (shared sys)) = (r, w') ->
    continue_job job (k r)
      (mkState (vectorStore (shared sys)) w' (calls (shared sys))
               (console (shared sys)))
    = (job', st') ->
    step sys (Settled i (Async.call_of c) (resolved r))
         (mkSystem st' (set_nth i job' (jobs sys)))
| step_resume sys i job k job' st' :
    nth_error (jobs sys) i = Some job ->
    job_code job = Async.Tick k ->
    continue_job job k (shared sys) = (job', st') ->
    step sys (Resumed i) (mkSystem st' (set_nth i job' (jobs sys))).

(** Lines 172-175 of [index.js], 192-195 of [part_000]: the callback of
    [app.listen] prints the port and calls [initializePDF] without
    awaiting it; the ingestion runs to its first [await] and goes on as a
    task of its own. *)
Definition on_listen (port : jsval) (st : ServerState W Store) : System :=
  let st0 := mkState (vectorStore st) (world st) (calls st)
               (console st
                ++ [ConsoleLog ("Server running on port " ++ toString port)])%list in
  let (job, st1) := start_job None (@Async.initializePDF Store) st0 in
  mkSystem st1 [job].

(** The states of a server started in the world [w]: [vectorStore] is
    [null] when the module is loaded. *)
Inductive reachable (port : jsval) (w : W) : System -> Prop :=
| reach_listen : reachable port w (on_listen port (mkState None w [] []))
| reach_step sys e sys' :
    reachable port w sys -> step sys e sys' -> reachable port w sys'.

End Interleaving.


(** ** What a program may do to the index, whoever runs in between *)

Section Discipline.

Context {Store : Type}.

(** The store that may be assigned in the turn after the call [c] has
    settled with [r]: the one a [fromDocuments] call resolved with. *)
Definition assignable {X} (c : Async.Ext Store X) : result X -> option Store :=
  match c in Async.Ext _ X return result X -> option Store with
  | Async.ExtFromDocuments _ =>
      fun r => match r with Ok store => Some store | Throw _ => None end
  | _ => fun _ => None
  end.

(** [tidy may p]: the program [p] assigns [vectorStore] only in the turn
    that follows a resolved [fromDocuments] call, and assigns the store
    that call resolved with; [may] is what the current turn may assign. *)
Fixpoint tidy {A} (may : option Store) (p : Async.Prog Store A) : Prop :=
  match p with
  | Async.Return _ => True
  | Async.Await c k => forall r, tidy (assignable c r) (k r)
  | Async.Tick k => tidy None k
  | Async.ReadIndex k => forall index, tidy may (k index)
  | Async.SetIndex store k => may = Some store /\ tidy None k
  | Async.Console _ k => tidy may k
  end.

(** [ingestion_free p]: the program [p] never calls the loader, the
    splitter or the embedding store, whatever its calls settle with and
    whatever it reads. *)
Fixpoint ingestion_free {A} (p : Async.Prog Store A) : Prop :=
  match p with
  | Async.Return _ => True
  | Async.Await c k =>
      is_ingestion (Async.call_of c) = false /\ forall r, ingestion_free (k r)
  | Async.Tick k => ingestion_free k
  | Async.ReadIndex k => forall index, ingestion_free (k index)
  | Async.SetIndex _ k => ingestion_free k
  | Async.Console _ k => ingestion_free k
  end.

Lemma tidy_weaken {A} (p : Async.Prog Store A) may :
  tidy None p -> tidy may p.
Proof.
  revert may. induction p as [r|X c k IH|k IH|k IH|store k IH|line k IH];
    intros may H; cbn in *; auto.
  destruct H as [H _]. discriminate.
Qed.

Lemma tidy_bind {A B} (p : Async.Prog Store A) (k : A -> Async.Prog Store B) :
  forall may,
    tidy may p -> (forall a, tidy None (k a)) -> tidy may (Async.bindP p k).
Proof.
  induction p as [r|X c h IH|h IH|h IH|store h IH|line h IH];
    intros may Hp Hk; cbn in *.
  - destruct r; [apply tidy_weaken, Hk | exact I].
  - intros r. now apply IH.
  - now apply IH.
  - intros index. now apply IH.
  - destruct Hp as [Hm Hp]. split; [exact Hm | now apply IH].
  - now apply IH.
Qed.

Lemma tidy_try_catch {A} (p : Async.Prog Store A)
      (h : JsError -> Async.Prog Store A) :
  forall may,
    tidy may p -> (forall e, tidy None (h e)) ->
    tidy may (Async.try_catchP p h).
Proof.
  induction p as [r|X c k IH|k IH|k IH|store k IH|line k IH];
    intros may Hp Hh; cbn in *.
  - destruct r; [exact I | apply tidy_weaken, Hh].
  - intros r. now apply IH.
  - now apply IH.
  - intros index. now apply IH.
  - destruct Hp as [Hm Hp]. split; [exact Hm | now apply IH].
  - now apply IH.
Qed.

Lemma tidy_await_async {A} (p : Async.Prog Store A) :
  forall may, tidy may p -> tidy may (Async.await_async p).
Proof.
  induction p as [r|X c k IH|k IH|k IH|store k IH|line k IH];
    intros may Hp; cbn in *; auto.
  destruct Hp as [Hm Hp]. split; [exact Hm | now apply IH].
Qed.

Lemma free_bind {A B} (p : Async.Prog Store A) (k : A -> Async.Prog Store B) :
  ingestion_free p -> (forall a, ingestion_free (k a)) ->
  ingestion_free (Async.bindP p k).
Proof.
  induction p as [r|X c h IH|h IH|h IH|store h IH|line h IH];
    intros Hp Hk; cbn in *; auto.
  - destruct r; [apply Hk | exact I].
  - destruct Hp as [Hc Hp]. split; [exact Hc|]. intros r. now apply IH.
Qed.

Lemma free_try_catch {A} (p : Async.Prog Store A)
      (h : JsError -> Async.Prog Store A) :
  ingestion_free p -> (forall e, ingestion_free (h e)) ->
  ingestion_free (Async.try_catchP p h).
Proof.
  induction p as [r|X c k IH|k IH|k IH|store k IH|line k IH];
    intros Hp Hh; cbn in *; auto.
  - destruct r; [exact I | apply Hh].
  - destruct Hp as [Hc Hp]. split; [exact Hc|]. intros r. now apply IH.
Qed.

Lemma free_await_async {A} (p : Async.Prog Store A) :
  ingestion_free p -> ingestion_free (Async.await_async p).
Proof.
  induction p as [r|X c k IH|k IH|k IH|store k IH|line k IH];
    intros Hp; cbn in *; auto.
  destruct Hp as [Hc Hp]. split; [exact Hc|]. intros r. now apply IH.
Qed.

(** A turn keeps both properties; it changes [vectorStore] only to the
    store the turn may assign. *)
Lemma settle_tidy {A} (p : Async.Prog Store A) :
  forall may index out,
    tidy may p ->
    tidy None (fst (settle p index out))
    /\ (fst (snd (settle p index out)) = index
        \/ (may <> None /\ fst (snd (settle p index out)) = may)).
Proof.
  induction p as [r|X c k IH|k IH|k IH|store k IH|line k IH];
    intros may index out Hp; cbn in *.
  - split; [exact I | now left].
  - split; [exact Hp | now left].
  - split; [exact Hp | now left].
  - apply (IH index may index out), Hp.
  - destruct Hp as [-> Hp].
    destruct (IH None (Some store) out Hp) as [Ht [He | [Hne _]]].
    + split; [exact Ht|]. right. split; [discriminate | exact He].
    + congruence.
  - apply (IH may index _ Hp).
Qed.

Lemma settle_free {A} (p : Async.Prog Store A) :
  forall index out,
    ingestion_free p -> ingestion_free (fst (settle p index out)).
Proof.
  induction p as [r|X c k IH|k IH|k IH|store k IH|line k IH];
    intros index out Hp; cbn in *; auto.
Qed.

Lemma awaited_free {A} (p : Async.Prog Store A) :
  ingestion_free p -> no_ingestion (awaited p) = true.
Proof.
  destruct p; cbn; try reflexivity. intros [-> _]. reflexivity.
Qed.

Variable v : Async.Variant.

Lemma tidy_initializePDF : tidy None (@Async.initializePDF Store).
Proof.
  unfold Async.initializePDF. cbn. intros [docs|e]; cbn; [|exact I].
  intros [chunks|e]; cbn; [|exact I].
  intros [store|e]; cbn; [|exact I]. now split.
Qed.

Lemma tidy_isRelevant results q :
  tidy None (@Async.isRelevantPDFContent Store results q).
Proof.
  unfold Async.isRelevantPDFContent.
  destruct (absent_or_empty results); [exact I|].
  destruct results as [docs|]; cbn; [|exact I].
  intros [[[content|]]|e]; cbn; exact I.
Qed.

Lemma tidy_general q : tidy None (@Async.getOpenAIResponse Store v q).
Proof.
  unfold Async.getOpenAIResponse. cbn. intros [response|e]; cbn; [|exact I].
  destruct (Async.message_from v (Async.reply_content response)); exact I.
Qed.

Lemma tidy_grounded store msg :
  tidy None (@Async.grounded_answer Store v store msg).
Proof.
  unfold Async.grounded_answer.
  cbn [tidy Async.bindP Async.await]. intros [results|e]; [|exact I].
  cbn [Async.bindP].
  apply tidy_bind; [apply tidy_await_async, tidy_isRelevant|].
  intros [|]; [|exact I].
  destruct results as [docs|]; cbn; [|exact I].
  intros [response|e]; cbn; [|exact I].
  destruct (Async.message_from v (Async.reply_content response)); exact I.
Qed.

Lemma tidy_chat req : tidy None (@Async.chat Store v req).
Proof.
  unfold Async.chat. destruct (negb (truthy (body_message req))); [exact I|].
  apply tidy_try_catch; [|intros e; exact I].
  unfold Async.chat_try.
  cbn [tidy Async.bindP Async.read_vectorStore Async.retP]. intros before.
  apply tidy_bind.
  { destruct before; [exact I|].
    apply tidy_bind; [apply tidy_await_async, tidy_initializePDF|].
    intros _. exact I. }
  intros _. cbn [tidy Async.bindP Async.read_vectorStore Async.retP].
  intros current. apply tidy_bind.
  { destruct current; [apply tidy_grounded | exact I]. }
  intros [sent|]; [exact I|].
  apply tidy_bind; [apply tidy_await_async, tidy_general | intros; exact I].
Qed.

Lemma free_isRelevant results q :
  ingestion_free (@Async.isRelevantPDFContent Store results q).
Proof.
  unfold Async.isRelevantPDFContent.
  destruct (absent_or_empty results); [exact I|].
  destruct results as [docs|]; cbn; [|exact I].
  split; [reflexivity|]. intros [[[content|]]|e]; cbn; exact I.
Qed.

Lemma free_general q : ingestion_free (@Async.getOpenAIResponse Store v q).
Proof.
  unfold Async.getOpenAIResponse. cbn. split; [reflexivity|].
  intros [response|e]; cbn; [|exact I].
  destruct (Async.message_from v (Async.reply_content response)); exact I.
Qed.

Lemma free_grounded store msg :
  ingestion_free (@Async.grounded_answer Store v store msg).
Proof.
  unfold Async.grounded_answer.
  cbn [ingestion_free Async.bindP Async.await]. split; [reflexivity|].
  intros [results|e]; [|exact I]. cbn [Async.bindP].
  apply free_bind; [apply free_await_async, free_isRelevant|].
  intros [|]; [|exact I].
  destruct results as [docs|]; cbn; [|exact I].
  split; [reflexivity|]. intros [response|e]; cbn; [|exact I].
  destruct (Async.message_from v (Async.reply_content response)); exact I.
Qed.

(** What the handler has left to do once it has found the index set. *)
Lemma free_chat_set req store out :
  ingestion_free (fst (settle (@Async.chat Store v req) (Some store) out)).
Proof.
  unfold Async.chat. destruct (negb (truthy (body_message req))); [exact I|].
  unfold Async.chat_try.
  cbn [settle Async.bindP Async.try_catchP Async.read_vectorStore Async.retP].
  apply settle_free, free_try_catch; [|intros e; exact I].
  apply free_bind; [apply free_grounded|].
  intros [sent|]; [exact I|].
  apply free_bind; [apply free_await_async, free_general | intros; exact I].
Qed.

(** Finding it unset, a handler that passes the message check suspends
    on the load of the PDF. *)
Lemma chat_unset_loads req out :
  truthy (body_message req) = true ->
  awaited (fst (settle (@Async.chat Store v req) None out))
  = [CallLoad "./faqs.pdf"]
  /\ snd (settle (@Async.chat Store v req) None out) = (None, out).
Proof.
  intros Hm. unfold Async.chat. rewrite Hm. cbn. now split.
Qed.

Lemma chat_falsy_ends req index out :
  truthy (body_message req) = false ->
  settle (@Async.chat Store v req) index out
  = (Async.Return (Ok (Async.mkSent 400 (Async.JsonError "Message is required"))),
     (index, out)).
Proof.
  intros Hm. unfold Async.chat. now rewrite Hm.
Qed.

End Discipline.

(** ** The assignment after a resolved embedding *)

Section Assignment.

Context {Store : Type}.

(** [commits p]: whenever a [fromDocuments] call of [p] resolves, the
    turn that follows assigns the new store to [vectorStore]. *)
Fixpoint commits {A} (p : Async.Prog Store A) : Prop :=
  match p with
  | Async.Return _ => True
  | Async.Await c k =>
      forall r,
        (forall store,
            assignable c r = Some store ->
            forall index out,
              fst (snd (settle (k r) index out)) = Some store)
        /\ commits (k r)
  | Async.Tick k => commits k
  | Async.ReadIndex k => forall index, commits (k index)
  | Async.SetIndex _ k => commits k
  | Async.Console _ k => commits k
  end.

Lemma settle_bind_index {A B} (p : Async.Prog Store A)
      (f : A -> Async.Prog Store B) :
  (forall a, tidy None (f a)) ->
  forall index out,
    fst (snd (settle (Async.bindP p f) index out))
    = fst (snd (settle p index out)).
Proof.
  intros Hf.
  induction p as [r|X c k IH|k IH|k IH|store k IH|line k IH];
    intros index out; cbn; auto.
  destruct r as [a|e]; [|reflexivity].
  destruct (settle_tidy (f a) None index out (Hf a)) as [_ [H | [H _]]];
    [exact H | congruence].
Qed.

Lemma settle_try_index {A} (p : Async.Prog Store A)
      (h : JsError -> Async.Prog Store A) :
  (forall e, tidy None (h e)) ->
  forall index out,
    fst (snd (settle (Async.try_catchP p h) index out))
    = fst (snd (settle p index out)).
Proof.
  intros Hh.
  induction p as [r|X c k IH|k IH|k IH|store k IH|line k IH];
    intros index out; cbn; auto.
  destruct r as [a|e]; [reflexivity|].
  destruct (settle_tidy (h e) None index out (Hh e)) as [_ [H | [H _]]];
    [exact H | congruence].
Qed.

Lemma settle_await_async_index {A} (p : Async.Prog Store A) :
  forall index out,
    fst (snd (settle (Async.await_async p) index out))
    = fst (snd (settle p index out)).
Proof.
  induction p as [r|X c k IH|k IH|k IH|store k IH|line k IH];
    intros index out; cbn; auto.
Qed.

Lemma commits_bind {A B} (p : Async.Prog Store A)
      (f : A -> Async.Prog Store B) :
  commits p -> (forall a, commits (f a)) -> (forall a, tidy None (f a)) ->
  commits (Async.bindP p f).
Proof.
  intros Hp Hf Ht.
  induction p as [r|X c k IH|k IH|k IH|store k IH|line k IH]; cbn in *; auto.
  - destruct r; [apply Hf | exact I].
  - intros r. destruct (Hp r) as [Hset Hk]. split; [|now apply IH].
    intros store Hs index out. rewrite settle_bind_index by exact Ht.
    now apply Hset.
Qed.

Lemma commits_try_catch {A} (p : Async.Prog Store A)
      (h : JsError -> Async.Prog Store A) :
  commits p -> (forall e, commits (h e)) -> (forall e, tidy None (h e)) ->
  commits (Async.try_catchP p h).
Proof.
  intros Hp Hh Ht.
  induction p as [r|X c k IH|k IH|k IH|store k IH|line k IH]; cbn in *; auto.
  - destruct r; [exact I | apply Hh].
  - intros r. destruct (Hp r) as [Hset Hk]. split; [|now apply IH].
    intros store Hs index out. rewrite settle_try_index by exact Ht.
    now apply Hset.
Qed.

Lemma commits_await_async {A} (p : Async.Prog Store A) :
  commits p -> commits (Async.await_async p).
Proof.
  intros Hp.
  induction p as [r|X c k IH|k IH|k IH|store k IH|line k IH]; cbn in *; auto.
  intros r. destruct (Hp r) as [Hset Hk]. split; [|now apply IH].
  intros store Hs index out. rewrite settle_await_async_index.
  now apply Hset.
Qed.

Lemma settle_commits {A} (p : Async.Prog Store A) :
  forall index out, commits p -> commits (fst (settle p index out)).
Proof.
  induction p as [r|X c k IH|k IH|k IH|store k IH|line k IH];
    intros index out Hp; cbn in *; auto.
Qed.

(** A program without ingestion call has no embedding to assign. *)
Lemma free_commits {A} (p : Async.Prog Store A) :
  ingestion_free p -> commits p.
Proof.
  induction p as [r|X c k IH|k IH|k IH|store k IH|line k IH];
    intros Hp; cbn in *; auto.
  destruct Hp as [Hc Hk]. intros r. split; [|now apply IH].
  intros store Hs. destruct c; cbn in Hc, Hs; discriminate.
Qed.

Variable v : Async.Variant.

Lemma commits_initializePDF : commits (@Async.initializePDF Store).
Proof.
  unfold Async.initializePDF. cbn.
  intros [docs|e]; (split; [discriminate|]); cbn; [|exact I].
  intros [chunks|e]; (split; [discriminate|]); cbn; [|exact I].
  intros [store|e]; cbn; (split; [|exact I]).
  - intros s Hs index out. now inversion Hs.
  - discriminate.
Qed.

Lemma commits_chat req : commits (@Async.chat Store v req).
Proof.
  unfold Async.chat. destruct (negb (truthy (body_message req))); [exact I|].
  apply commits_try_catch; [|intros e; exact I|intros e; exact I].
  unfold Async.chat_try.
  cbn [commits Async.bindP Async.read_vectorStore Async.retP]. intros before.
  apply commits_bind.
  - destruct before; [exact I|].
    apply commits_bind;
      [apply commits_await_async, commits_initializePDF
      |intros _; exact I | intros _; exact I].
  - intros _. apply free_commits.
    cbn [ingestion_free Async.bindP Async.read_vectorStore Async.retP].
    intros current. apply free_bind.
    { destruct current; [apply free_grounded | exact I]. }
    intros [sent|]; [exact I|].
    apply free_bind; [apply free_await_async, free_general | intros; exact I].
  - intros _. cbn [tidy Async.bindP Async.read_vectorStore Async.retP].
    intros current. apply tidy_bind.
    { destruct current; [apply tidy_grounded | exact I]. }
    intros [sent|]; [exact I|].
    apply tidy_bind; [apply tidy_await_async, tidy_general | intros; exact I].
Qed.

End Assignment.

(** ** The index over every interleaving *)

Section Reachable.

Context {W Store : Type}.
Variable o : @Oracle W Store.
Variable v : Async.Variant.

(** What holds of every task of a running server. *)
Definition orderly (job : Job Store) : Prop :=
  tidy None (job_code job)
  /\ commits (job_code job)
  /\ (found_set job = true ->
      ingestion_free (job_code job) /\ no_ingestion (job_calls job) = true).

Lemma no_ingestion_app a b :
  no_ingestion a = true -> no_ingestion b = true ->
  no_ingestion (a ++ b) = true.
Proof. unfold no_ingestion. intros Ha Hb. now rewrite forallb_app, Ha, Hb. Qed.

Lemma Forall_set_nth {A} (P : A -> Prop) i x l :
  Forall P l -> P x -> Forall P (set_nth i x l).
Proof.
  intros Hl Hx. revert i. induction Hl as [|y l Hy Hl IH]; intros i.
  - destruct i; constructor.
  - destruct i; cbn; constructor; auto.
Qed.

(** The turn of a tidy program: what is left is tidy, and the index is
    what it was unless the turn was allowed to assign it. *)
Lemma turn_tidy {A} (p : Async.Prog Store A) may (st : ServerState W Store) :
  tidy may p ->
  tidy None (fst (turn p st))
  /\ (vectorStore (snd (turn p st)) = vectorStore st
      \/ (may <> None /\ vectorStore (snd (turn p st)) = may))
  /\ world (snd (turn p st)) = world st.
Proof.
  intros Hp. unfold turn.
  destruct (settle_tidy p may (vectorStore st) (console st) Hp) as [Ht Hi].
  destruct (settle p (vectorStore st) (console st)) as [p' [index out]].
  cbn in *. auto.
Qed.

Lemma turn_free {A} (p : Async.Prog Store A) (st : ServerState W Store) :
  ingestion_free p ->
  ingestion_free (fst (turn p st))
  /\ no_ingestion (awaited (fst (turn p st))) = true.
Proof.
  intros Hp. unfold turn.
  pose proof (settle_free p (vectorStore st) (console st) Hp) as Hf.
  destruct (settle p (vectorStore st) (console st)) as [p' [index out]].
  cbn in *. split; [exact Hf | now apply awaited_free].
Qed.

Lemma turn_commits {A} (p : Async.Prog Store A) (st : ServerState W Store) :
  commits p -> commits (fst (turn p st)).
Proof.
  intros Hp. unfold turn.
  pose proof (settle_commits p (vectorStore st) (console st) Hp) as Hc.
  destruct (settle p (vectorStore st) (console st)) as [p' [index out]].
  exact Hc.
Qed.

Lemma turn_index {A} (p : Async.Prog Store A) (st : ServerState W Store) :
  vectorStore (snd (turn p st))
  = fst (snd (settle p (vectorStore st) (console st))).
Proof.
  unfold turn.
  now destruct (settle p (vectorStore st) (console st)) as [p' [index out]].
Qed.

Lemma continue_orderly {A} (job : Job Store) (p : Async.Prog Store A) may
      (st : ServerState W Store) :
  tidy may p ->
  commits p ->
  (found_set job = true ->
   ingestion_free p /\ no_ingestion (job_calls job) = true) ->
  orderly (fst (continue_job job p st))
  /\ (vectorStore (snd (continue_job job p st)) = vectorStore st
      \/ (may <> None /\ vectorStore (snd (continue_job job p st)) = may))
  /\ vectorStore (snd (continue_job job p st))
     = fst (snd (settle p (vectorStore st) (console st))).
Proof.
  intros Hp Hc Hfree. unfold continue_job.
  destruct (turn_tidy p may st Hp) as [Ht [Hi _]].
  pose proof (turn_free p st) as Hf.
  pose proof (turn_commits p st Hc) as Hc'.
  pose proof (turn_index p st) as Hx.
  destruct (turn p st) as [p' st']. cbn in *.
  split; [|split; [exact Hi | exact Hx]].
  split; [exact Ht|]. split; [exact Hc'|]. intros Hfound.
  destruct (Hfree Hfound) as [Hfp Hcalls].
  destruct (Hf Hfp) as [Hf1 Hf2].
  split; [exact Hf1 | now apply no_ingestion_app].
Qed.

Lemma arrival_orderly req (st : ServerState W Store) :
  orderly (fst (start_job (Some req) (Async.chat v req) st))
  /\ vectorStore (snd (start_job (Some req) (Async.chat v req) st))
     = vectorStore st
  /\ found_set (fst (start_job (Some req) (Async.chat v req) st))
     = is_set (vectorStore st)
  /\ job_request (fst (start_job (Some req) (Async.chat v req) st))
     = Some req.
Proof.
  unfold start_job.
  destruct (turn_tidy (Async.chat v req) None st (tidy_chat v req))
    as [Ht [[Hi | [Hne _]] _]]; [|congruence].
  pose proof (@free_chat_set Store v req) as Hset.
  pose proof (turn_commits (Async.chat v req) st (commits_chat v req)) as Hc.
  unfold turn in *.
  destruct (settle (Async.chat v req) (vectorStore st) (console st))
    as [p' [index out]] eqn:E.
  cbn in *. repeat split; auto.
  - destruct (vectorStore st) as [store|]; [|discriminate].
    specialize (Hset store (console st)). now rewrite E in Hset.
  - destruct (vectorStore st) as [store|]; [|discriminate].
    apply awaited_free.
    specialize (Hset store (console st)). now rewrite E in Hset.
Qed.

Lemma listen_orderly port w :
  Forall orderly (jobs (on_listen port (@mkState W Store None w [] []))).
Proof.
  unfold on_listen, start_job.
  destruct (turn_tidy (@Async.initializePDF Store) None
              (@mkState W Store None w []
                 ([] ++ [ConsoleLog ("Server running on port " ++ toString port)])%list)
              tidy_initializePDF) as [Ht _].
  pose proof (turn_commits (@Async.initializePDF Store)
                (@mkState W Store None w []
                   ([] ++ [ConsoleLog ("Server running on port " ++ toString port)])%list)
                commits_initializePDF) as Hc.
  cbn [vectorStore world calls console] in *.
  destruct (turn _ _) as [p' st']. cbn in *.
  constructor; [|constructor].
  split; [exact Ht | split; [exact Hc | discriminate]].
Qed.

(** Every task of a reachable state is orderly.  A turn changes
    [vectorStore] only when a [fromDocuments] call has resolved, and then
    it does. *)
Lemma step_orderly sys e sys' :
  Forall orderly (jobs sys) ->
  step o v sys e sys' ->
  Forall orderly (jobs sys')
  /\ match e with
     | Settled _ (CallFromDocuments _) true =>
         exists store, vectorStore (shared sys') = Some store
     | _ => vectorStore (shared sys') = vectorStore (shared sys)
     end.
Proof.
  intros Hall Hstep.
  destruct Hstep as [sys req job st' Hstart
                    |sys i job X c k r w' job' st' Hnth Hcode Horacle Hcont
                    |sys i job k job' st' Hnth Hcode Hcont]; cbn [jobs shared].
  - destruct (arrival_orderly req (shared sys)) as [Ho [Hv _]].
    rewrite Hstart in Ho, Hv. cbn in Ho, Hv. split; [|exact Hv].
    apply Forall_app. split; [exact Hall | now constructor].
  - assert (Hjob : orderly job)
      by (eapply Forall_forall; [exact Hall | eapply nth_error_In, Hnth]).
    destruct Hjob as [Ht [Hc Hf]]. rewrite Hcode in Ht, Hc, Hf.
    cbn in Ht, Hc, Hf.
    set (st := mkState (vectorStore (shared sys)) w' (calls (shared sys))
                 (console (shared sys))) in *.
    destruct (continue_orderly job (k r) (assignable c r) st (Ht r)
                (proj2 (Hc r)))
      as [Ho [Hv Hx]].
    { intros Hfound. destruct (Hf Hfound) as [[_ Hk] Hcalls]. auto. }
    rewrite Hcont in Ho, Hv, Hx. cbn [fst snd] in Ho, Hv, Hx.
    split; [now apply Forall_set_nth|].
    destruct c; cbn [Async.call_of assignable] in *;
      try (destruct Hv as [Hv | [Hne _]]; [exact Hv | congruence]).
    destruct r as [store|err]; cbn [resolved] in *.
    + exists store. rewrite Hx. now apply (proj1 (Hc (Ok store))).
    + destruct Hv as [Hv | [Hne _]]; [exact Hv | congruence].
  - assert (Hjob : orderly job)
      by (eapply Forall_forall; [exact Hall | eapply nth_error_In, Hnth]).
    destruct Hjob as [Ht [Hc Hf]]. rewrite Hcode in Ht, Hc, Hf.
    cbn in Ht, Hc, Hf.
    destruct (continue_orderly job k None (shared sys) Ht Hc) as [Ho [Hv _]].
    { exact Hf. }
    rewrite Hcont in Ho, Hv. cbn in Ho, Hv.
    split; [now apply Forall_set_nth|].
    destruct Hv as [Hv | [Hne _]]; [exact Hv | congruence].
Qed.

Lemma reachable_orderly port w sys :
  reachable o v port w sys -> Forall orderly (jobs sys).
Proof.
  induction 1 as [|sys e sys' Hreach IH Hstep].
  - apply listen_orderly.
  - now destruct (step_orderly sys e sys' IH Hstep).
Qed.

End Reachable.

(** C8, amended.  In every state a started server can reach, whatever
    the interleaving of the ingestion started by [app.listen] and of the
    handlers of any number of requests, and for both variants, a turn of
    the process from [sys] to [sys']:
    - sets [vectorStore] when a [fromDocuments] call has resolved, and
      otherwise leaves it as it is: a failed ingestion leaves the variable
      unset, and a variable that is set stays set, so the state goes from
      unset to set at most once;
    - when it is the arrival of a request that passes the message check
      while the variable is unset, starts an ingestion: the handler makes
      the load call of the PDF and waits for it; a request that fails the
      message check makes no call;
    - never makes a request that found the variable set on arrival call
      the loader, the splitter or the embedding store. *)
Theorem index_set_at_most_once {W Store} (o : @Oracle W Store)
        (v : Async.Variant) (port : jsval) (w : W)
        (sys : System) (e : Event) (sys' : System) :
  reachable o v port w sys ->
  step o v sys e sys' ->
  match e with
  | Settled _ (CallFromDocuments _) true =>
      exists store, vectorStore (shared sys') = Some store
  | _ => vectorStore (shared sys') = vectorStore (shared sys)
  end
  /\ (forall store,
         vectorStore (shared sys) = Some store ->
         exists store', vectorStore (shared sys') = Some store')
  /\ (forall req,
         e = Arrived req ->
         exists job,
           jobs sys' = (jobs sys ++ [job])%list
           /\ job_request job = Some req
           /\ found_set job = is_set (vectorStore (shared sys))
           /\ (truthy (body_message req) = true ->
               vectorStore (shared sys) = None ->
               job_calls job = [CallLoad "./faqs.pdf"])
           /\ (truthy (body_message req) = false -> job_calls job = []))
  /\ (forall job,
         In job (jobs sys') ->
         found_set job = true ->
         no_ingestion (job_calls job) = true).
Proof.
  intros Hreach Hstep.
  pose proof (reachable_orderly o v port w sys Hreach) as Hall.
  destruct (step_orderly o v sys e sys' Hall Hstep) as [Hall' Hchange].
  split; [exact Hchange|]. split; [|split].
  - intros store Hs.
    destruct e as [req|i [path|cfg|docs|q k|creq] [|]|i];
      try (rewrite Hchange; eauto); exact Hchange.
  - intros req ->. inversion Hstep as [sys0 req0 job st' Hstart| |]; subst.
    exists job. cbn [jobs shared].
    destruct (arrival_orderly v req (shared sys)) as [_ [_ [Hf Hr]]].
    rewrite Hstart in Hf, Hr. cbn in Hf, Hr.
    split; [reflexivity|]. split; [exact Hr|]. split; [exact Hf|]. split.
    + intros Hm Hs. revert Hstart. unfold start_job, turn. rewrite Hs.
      destruct (@chat_unset_loads Store v req (console (shared sys)) Hm)
        as [Ha Hsnd].
      destruct (settle (Async.chat v req) None (console (shared sys)))
        as [p' [index out]]. cbn in Ha.
      intros Hstart. inversion Hstart; subst. exact Ha.
    + intros Hm. revert Hstart. unfold start_job, turn.
      rewrite (@chat_falsy_ends Store v req _ _ Hm).
      intros Hstart. inversion Hstart; subst. reflexivity.
  - intros job Hin Hfound.
    assert (Hjob : orderly job)
      by (eapply Forall_forall; [exact Hall' | exact Hin]).
    now destruct Hjob as [_ [_ Hf]]; destruct (Hf Hfound).
Qed.

Lemma index_set_at_most_once_witness :
  let req := mkRequest (JStr "Do you deliver?") in
  let sys := on_listen (JOther true "3000") (Canned.boot []) in
  let arrival := start_job (Some req) (Async.chat Async.index_js req)
                           (shared sys) in
  exists job,
    In job (jobs (mkSystem (snd arrival) (jobs sys ++ [fst arrival])%list))
    /\ job_request job = Some req
    /\ found_set job = false
    /\ job_calls job = [CallLoad "./faqs.pdf"].
Proof.
  intros req sys arrival.
  destruct (index_set_at_most_once Canned.oracle Async.index_js
              (JOther true "3000") [] sys (Arrived req)
              (mkSystem (snd arrival) (jobs sys ++ [fst arrival])%list)
              (reach_listen Canned.oracle Async.index_js (JOther true "3000") [])
              (step_arrive Canned.oracle Async.index_js sys req
                 (fst arrival) (snd arrival) (surjective_pairing arrival)))
    as [_ [_ [Harrived _]]].
  destruct (Harrived req eq_refl) as [job [Hjobs [Hreq [Hfound [Hcalls _]]]]].
  exists job. split; [|split; [exact Hreq | split]].
  - rewrite Hjobs. apply in_or_app. right. now left.
  - rewrite Hfound. reflexivity.
  - apply Hcalls; reflexivity.
Defined.

(** ** A handler run alone, step by step *)

Section RunSteps.

Context {W Store : Type}.
Variable o : @Oracle W Store.

Lemma run_bind {A B} (p : Async.Prog Store A) (f : A -> Async.Prog Store B) :
  forall st,
    run o (Async.bindP p f) st
    = match run o p st with
      | (Ok a, st') => run o (f a) st'
      | (Throw e, st') => (Throw e, st')
      end.
Proof.
  induction p as [r|X c k IH|k IH|k IH|store k IH|line k IH];
    intros st; cbn [Async.bindP run]; auto.
  - now destruct r.
  - destruct (o X c (world st)) as [r w']. apply IH.
Qed.

Lemma run_try_catch {A} (p : Async.Prog Store A)
      (h : JsError -> Async.Prog Store A) :
  forall st,
    run o (Async.try_catchP p h) st
    = match run o p st with
      | (Ok a, st') => (Ok a, st')
      | (Throw e, st') => run o (h e) st'
      end.
Proof.
  induction p as [r|X c k IH|k IH|k IH|store k IH|line k IH];
    intros st; cbn [Async.try_catchP run]; auto.
  - now destruct r.
  - destruct (o X c (world st)) as [r w']. apply IH.
Qed.

Lemma run_await_async {A} (p : Async.Prog Store A) :
  forall st, run o (Async.await_async p) st = run o p st.
Proof.
  induction p as [r|X c k IH|k IH|k IH|store k IH|line k IH];
    intros st; cbn [Async.await_async run]; auto.
  destruct (o X c (world st)) as [r w']. apply IH.
Qed.

(** [initializePDF] never throws. *)
Lemma run_initializePDF_returns (st : ServerState W Store) :
  exists b, fst (run o Async.initializePDF st) = Ok b.
Proof.
  unfold Async.initializePDF. cbn.
  destruct (o _ (Async.ExtLoad "./faqs.pdf") (world st)) as [[docs|e] w1];
    cbn; [|now exists false].
  destruct (o _ (Async.ExtSplit _ docs) w1) as [[chunks|e] w2];
    cbn; [|now exists false].
  destruct (o _ (Async.ExtFromDocuments chunks) w2) as [[store|e] w3];
    cbn; [now exists true | now exists false].
Qed.

(** The state in which the handler reads [vectorStore] for the second
    time: the one it started in when the index was set, the one
    [initializePDF] left otherwise. *)
Definition after_index_check (st : ServerState W Store) : ServerState W Store :=
  match vectorStore st with
  | Some _ => st
  | None => snd (run o Async.initializePDF st)
  end.

Variable v : Async.Variant.

(** The general path, from the call of [getOpenAIResponse] to the
    response. *)
Definition fallback (message : jsval) (st : ServerState W Store)
  : result Async.Sent * ServerState W Store :=
  match run o (Async.getOpenAIResponse v message) st with
  | (Ok fallbackResponse, st') =>
      (Ok (Async.mkSent 200 (Async.JsonAnswer (fst fallbackResponse)
                                              (snd fallbackResponse))), st')
  | (Throw e, st') => (Throw e, st')
  end.

Lemma run_chat_try message (st : ServerState W Store) :
  run o (Async.chat_try v message) st
  = let st1 := after_index_check st in
    match vectorStore st1 with
    | Some store =>
        match run o (Async.grounded_answer v store message) st1 with
        | (Ok (Some sent), st2) => (Ok sent, st2)
        | (Ok None, st2) => fallback message st2
        | (Throw e, st2) => (Throw e, st2)
        end
    | None => fallback message st1
    end.
Proof.
  unfold Async.chat_try, after_index_check, fallback.
  cbn [run Async.bindP Async.read_vectorStore Async.retP].
  rewrite run_bind.
  destruct (vectorStore st) as [store|] eqn:Hv.
  - cbn [run Async.retP]. rewrite Hv. rewrite run_bind.
    destruct (run o (Async.grounded_answer v store message) st)
      as [[[sent|]|e] st2]; cbn [run Async.retP]; try reflexivity.
    rewrite run_bind, run_await_async.
    now destruct (run o (Async.getOpenAIResponse v message) st2)
      as [[fr|e] st'].
  - rewrite run_bind, run_await_async.
    destruct (run_initializePDF_returns st) as [b Hb].
    destruct (run o Async.initializePDF st) as [r st1]. cbn in Hb. subst r.
    cbn [run Async.retP snd Async.bindP Async.read_vectorStore].
    rewrite run_bind.
    destruct (vectorStore st1) as [store|].
    + destruct (run o (Async.grounded_answer v store message) st1)
        as [[[sent|]|e] st2]; cbn [run Async.retP]; try reflexivity.
      rewrite run_bind, run_await_async.
      now destruct (run o (Async.getOpenAIResponse v message) st2)
        as [[fr|e] st'].
    + cbn [run Async.retP]. rewrite run_bind, run_await_async.
      now destruct (run o (Async.getOpenAIResponse v message) st1)
        as [[fr|e] st'].
Qed.

(** [getOpenAIResponse] run alone. *)
Lemma run_getOpenAIResponse message (st : ServerState W Store) :
  run o (Async.getOpenAIResponse v message) st
  = let made := (calls st
                 ++ [CallCompletion (Async.general v message)])%list in
    match o _ (Async.ExtCompletion (Async.general v message)) (world st) with
    | (Ok response, w') =>
        match Async.message_from v (Async.reply_content response) with
        | Ok content =>
            (Ok (content, "OpenAI General Response"),
             mkState (vectorStore st) w' made (console st))
        | Throw e =>
            (Throw e,
             mkState (vectorStore st) w' made
               (console st
                ++ [ConsoleError "Error getting OpenAI response:" e])%list)
        end
    | (Throw e, w') =>
        (Throw e,
         mkState (vectorStore st) w' made
           (console st ++ [ConsoleError "Error getting OpenAI response:" e])%list)
    end.
Proof.
  unfold Async.getOpenAIResponse. cbn.
  destruct (o _ (Async.ExtCompletion (Async.general v message)) (world st))
    as [[response|e] w']; cbn; [|reflexivity].
  now destruct (Async.message_from v (Async.reply_content response)).
Qed.

(** The handler, when the classifier has returned [false]: what the
    retrieval and the classifier did, from the state [st1] after the index
    check to the state [st3] in which the general path starts. *)
Definition classified_false (message : jsval) (st1 st3 : ServerState W Store)
  : Prop :=
  match vectorStore st1 with
  | None => st3 = st1
  | Some store =>
      exists results w2,
        o _ (Async.ExtSimilaritySearch store message 2) (world st1)
        = (Ok results, w2)
        /\ run o (Async.isRelevantPDFContent results message)
               (mkState (vectorStore st1) w2
                  (calls st1 ++ [CallSimilaritySearch message 2])%list
                  (console st1))
           = (Ok false, st3)
  end.

Lemma run_chat_classified_false req (st st3 : ServerState W Store) :
  truthy (body_message req) = true ->
  classified_false (body_message req) (after_index_check st) st3 ->
  run o (Async.chat v req) st
  = match fallback (body_message req) st3 with
    | (Ok sent, st') => (Ok sent, st')
    | (Throw e, st') =>
        (Ok (Async.mkSent 500 (Async.JsonError "Internal server error")),
         mkState (vectorStore st') (world st') (calls st')
           (console st' ++ [ConsoleError "Error processing chat:" e])%list)
    end.
Proof.
  intros Hm Hfalse. unfold Async.chat. rewrite Hm. cbn [negb].
  rewrite run_try_catch, run_chat_try. cbv zeta.
  unfold classified_false in Hfalse.
  destruct (vectorStore (after_index_check st)) as [store|] eqn:Hv.
  - destruct Hfalse as [results [w2 [Hsearch Hrel]]].
    unfold Async.grounded_answer.
    cbn [run Async.bindP Async.await Async.call_of]. rewrite Hsearch.
    cbn [run Async.bindP]. rewrite run_bind, run_await_async, Hv, Hrel.
    cbn [run Async.retP].
    now destruct (fallback (body_message req) st3) as [[sent|e] st'].
  - subst st3.
    now destruct (fallback (body_message req) (after_index_check st))
      as [[sent|e] st'].
Qed.

End RunSteps.

(** ** The general path on any completion *)

Section GeneralAnswer.

Context {W Store : Type}.
Variable o : @Oracle W Store.
Variable v : Async.Variant.

Lemma chat_general_after_false req (st st3 : ServerState W Store) :
  truthy (body_message req) = true ->
  classified_false o (body_message req) (after_index_check o st) st3 ->
  run o (Async.chat v req) st
  = let made := (calls st3
                 ++ [CallCompletion (Async.general v (body_message req))])%list in
    match o _ (Async.ExtCompletion (Async.general v (body_message req)))
            (world st3) with
    | (Ok response, w') =>
        match Async.message_from v (Async.reply_content response) with
        | Ok content =>
            (Ok (Async.mkSent 200
                   (Async.JsonAnswer content "OpenAI General Response")),
             mkState (vectorStore st3) w' made (console st3))
        | Throw e =>
            (Ok (Async.mkSent 500 (Async.JsonError "Internal server error")),
             mkState (vectorStore st3) w' made
               (console st3
                ++ [ConsoleError "Error getting OpenAI response:" e;
                    ConsoleError "Error processing chat:" e])%list)
        end
    | (Throw e, w') =>
        (Ok (Async.mkSent 500 (Async.JsonError "Internal server error")),
         mkState (vectorStore st3) w' made
           (console st3
            ++ [ConsoleError "Error getting OpenAI response:" e;
                ConsoleError "Error processing chat:" e])%list)
    end.
Proof.
  intros Hm Hfalse.
  rewrite (run_chat_classified_false o v req st st3 Hm Hfalse).
  unfold fallback. rewrite run_getOpenAIResponse. cbv zeta.
  destruct (o _ (Async.ExtCompletion (Async.general v (body_message req)))
              (world st3)) as [[response|e] w'].
  - destruct (Async.message_from v (Async.reply_content response));
      cbn [fst snd vectorStore world calls console]; rewrite <- ?app_assoc;
      reflexivity.
  - cbn [fst snd vectorStore world calls console]. rewrite <- ?app_assoc.
    reflexivity.
Qed.

End GeneralAnswer.

(** C7, amended.  For a request that passes the message check, run with
    no other task in between, whenever the classifier returns [false], an
    empty retrieval result and an unavailable index included, the handler
    of both variants makes the general completion call next, in the state
    [st3] that the classifier (or the index check, when the index is
    unavailable) left.  In [index.js], when that call resolves the
    response is a 200 with its content and the [source]
    ['OpenAI General Response'], and when it is rejected the response is
    the generic 500, which has no [source].  In [part_000] the same holds
    when the content is a text, with the links rewritten; a [null] content
    makes [formatLinksAsHTML] throw and the response is the generic 500
    as well.  In no case is the [source] ['PDF Knowledge Base']. *)
Theorem chat_classified_false_general {W Store} (o : @Oracle W Store)
        (req : Request) (st st3 : ServerState W Store) :
  truthy (body_message req) = true ->
  classified_false o (body_message req) (after_index_check o st) st3 ->
  run o (Async.chat Async.index_js req) st
  = match o _ (Async.ExtCompletion (IndexJs.general_request (body_message req)))
            (world st3) with
    | (Ok response, w') =>
        (Ok (Async.mkSent 200
               (Async.JsonAnswer (Async.reply_content response)
                                 "OpenAI General Response")),
         mkState (vectorStore st3) w'
           (calls st3
            ++ [CallCompletion (IndexJs.general_request (body_message req))])%list
           (console st3))
    | (Throw e, w') =>
        (Ok (Async.mkSent 500 (Async.JsonError "Internal server error")),
         mkState (vectorStore st3) w'
           (calls st3
            ++ [CallCompletion (IndexJs.general_request (body_message req))])%list
           (console st3
            ++ [ConsoleError "Error getting OpenAI response:" e;
                ConsoleError "Error processing chat:" e])%list)
    end
  /\ run o (Async.chat Async.part_000 req) st
     = match o _ (Async.ExtCompletion
                    (Part000.general_request (body_message req)))
               (world st3) with
       | (Ok response, w') =>
           match Async.reply_content response with
           | Some text =>
               (Ok (Async.mkSent 200
                      (Async.JsonAnswer (Some (Part000.formatLinksAsHTML text))
                                        "OpenAI General Response")),
                mkState (vectorStore st3) w'
                  (calls st3
                   ++ [CallCompletion
                         (Part000.general_request (body_message req))])%list
                  (console st3))
           | None =>
               (Ok (Async.mkSent 500 (Async.JsonError "Internal server error")),
                mkState (vectorStore st3) w'
                  (calls st3
                   ++ [CallCompletion
                         (Part000.general_request (body_message req))])%list
                  (console st3
                   ++ [ConsoleError "Error getting OpenAI response:"
                         (TypeError
                            "Cannot read properties of null (reading 'replace')");
                       ConsoleError "Error processing chat:"
                         (TypeError
                            "Cannot read properties of null (reading 'replace')")])%list)
           end
       | (Throw e, w') =>
           (Ok (Async.mkSent 500 (Async.JsonError "Internal server error")),
            mkState (vectorStore st3) w'
              (calls st3
               ++ [CallCompletion
                     (Part000.general_request (body_message req))])%list
              (console st3
               ++ [ConsoleError "Error getting OpenAI response:" e;
                   ConsoleError "Error processing chat:" e])%list)
       end.
Proof.
  intros Hm Hfalse. split.
  - rewrite (chat_general_after_false o Async.index_js req st st3 Hm Hfalse).
    cbn [Async.general Async.message_from Async.index_js].
    now destruct (o _ _ (world st3)) as [[response|e] w'].
  - rewrite (chat_general_after_false o Async.part_000 req st st3 Hm Hfalse).
    cbn [Async.general Async.message_from Async.part_000].
    destruct (o _ _ (world st3)) as [[[[text|]]|e] w']; reflexivity.
Qed.

Lemma chat_classified_false_general_witness :
  fst (run Canned.oracle
         (Async.chat Async.index_js (mkRequest (JStr "What's the weather today?")))
         (Canned.boot [Ok (Some "false"); Ok (Some "Ask a forecaster.")]))
  = Ok (Async.mkSent 200
          (Async.JsonAnswer (Some "Ask a forecaster.") "OpenAI General Response")).
Proof.
  edestruct (chat_classified_false_general Canned.oracle
               (mkRequest (JStr "What's the weather today?"))
               (Canned.boot [Ok (Some "false"); Ok (Some "Ask a forecaster.")]))
    as [Hi _].
  - reflexivity.
  - cbn. do 2 eexists. split; reflexivity.
  - rewrite Hi. reflexivity.
Defined.

(** ** The two variants on any completion *)

(** The completion service answers the general requests of the two
    variants, which differ in their system prompt, alike. *)
Definition alike {W Store} (o : @Oracle W Store) : Prop :=
  forall question w,
    o _ (Async.ExtCompletion (Part000.general_request question)) w
    = o _ (Async.ExtCompletion (IndexJs.general_request question)) w.

(** What [part_000] sends where [index.js] sends [sent]. *)
Definition part_of (sent : Async.Sent) : Async.Sent :=
  match Async.sent_body sent with
  | Async.JsonAnswer (Some text) source =>
      Async.mkSent (Async.sent_status sent)
        (Async.JsonAnswer (Some (Part000.formatLinksAsHTML text)) source)
  | Async.JsonAnswer None _ =>
      Async.mkSent 500 (Async.JsonError "Internal server error")
  | Async.JsonError _ => sent
  end.

(** What [part_000] prints on top of [index.js]. *)
Definition part_errors (sent : Async.Sent) : list LogLine :=
  let error :=
    TypeError "Cannot read properties of null (reading 'replace')" in
  match Async.sent_body sent with
  | Async.JsonAnswer None source =>
      if String.eqb source "OpenAI General Response"
      then [ConsoleError "Error getting OpenAI response:" error;
            ConsoleError "Error processing chat:" error]
      else [ConsoleError "Error processing chat:" error]
  | _ => []
  end.

(** The handler's [catch]. *)
Definition caught {W Store} (x : result Async.Sent * ServerState W Store)
  : result Async.Sent * ServerState W Store :=
  match x with
  | (Ok sent, st') => (Ok sent, st')
  | (Throw e, st') =>
      (Ok (Async.mkSent 500 (Async.JsonError "Internal server error")),
       mkState (vectorStore st') (world st') (calls st')
         (console st' ++ [ConsoleError "Error processing chat:" e])%list)
  end.

(** How the outcome [xp] of [part_000] corresponds to the outcome [xi] of
    [index.js]. *)
Definition corresponds {W Store}
           (xi xp : result Async.Sent * ServerState W Store) : Prop :=
  (exists sent,
      fst xi = Ok sent
      /\ fst xp = Ok (part_of sent)
      /\ (forall source,
             Async.sent_body sent = Async.JsonAnswer None source ->
             Async.sent_status sent = 200)
      /\ console (snd xp) = (console (snd xi) ++ part_errors sent)%list)
  /\ vectorStore (snd xp) = vectorStore (snd xi)
  /\ world (snd xp) = world (snd xi).

Section Correspondence.

Context {W Store : Type}.
Variable o : @Oracle W Store.
Hypothesis Halike : alike o.

Lemma run_chat_truthy v req (st : ServerState W Store) :
  truthy (body_message req) = true ->
  run o (Async.chat v req) st
  = caught (run o (Async.chat_try v (body_message req)) st).
Proof.
  intros Hm. unfold Async.chat, caught. rewrite Hm. cbn [negb].
  rewrite run_try_catch.
  now destruct (run o (Async.chat_try v (body_message req)) st)
    as [[sent|e] st'].
Qed.

Lemma run_chat_falsy v req (st : ServerState W Store) :
  truthy (body_message req) = false ->
  run o (Async.chat v req) st
  = (Ok (Async.mkSent 400 (Async.JsonError "Message is required")), st).
Proof. intros Hm. unfold Async.chat. now rewrite Hm. Qed.

Ltac solve_corresponds :=
  unfold corresponds, caught, part_of, part_errors;
  cbn [fst snd vectorStore world calls console Async.sent_body
       Async.sent_status String.eqb Ascii.eqb Bool.eqb];
  split; [|split; reflexivity];
  eexists; split; [reflexivity|];
  cbn [fst snd vectorStore world calls console Async.sent_body
       Async.sent_status String.eqb Ascii.eqb Bool.eqb];
  split; [reflexivity|];
  split; [intros; try discriminate; reflexivity|];
  rewrite <- ?app_assoc, ?app_nil_r; reflexivity.

Lemma fallback_corresponds message (st3 : ServerState W Store) :
  corresponds (caught (fallback o Async.index_js message st3))
              (caught (fallback o Async.part_000 message st3)).
Proof.
  unfold fallback. rewrite !run_getOpenAIResponse. cbv zeta.
  cbn [Async.general Async.message_from Async.index_js Async.part_000].
  rewrite Halike.
  destruct (o _ (Async.ExtCompletion (IndexJs.general_request message))
              (world st3)) as [[[[text|]]|e] w'];
    cbn [Async.reply_content]; solve_corresponds.
Qed.

(** The block under [if (vectorStore)] in the two variants: both go on
    to the general path, both throw, or both have a grounded completion,
    whose content [part_000] formats. *)
Lemma grounded_cases store message (st1 : ServerState W Store) :
  (exists st2,
      run o (Async.grounded_answer Async.index_js store message) st1
      = (Ok None, st2)
      /\ run o (Async.grounded_answer Async.part_000 store message) st1
         = (Ok None, st2))
  \/ (exists e st2,
         run o (Async.grounded_answer Async.index_js store message) st1
         = (Throw e, st2)
         /\ run o (Async.grounded_answer Async.part_000 store message) st1
            = (Throw e, st2))
  \/ (exists response st2,
         run o (Async.grounded_answer Async.index_js store message) st1
         = (Ok (Some (Async.mkSent 200
                        (Async.JsonAnswer (Async.reply_content response)
                                          "PDF Knowledge Base"))), st2)
         /\ run o (Async.grounded_answer Async.part_000 store message) st1
            = (match Async.reply_content response with
               | Some text =>
                   Ok (Some (Async.mkSent 200
                               (Async.JsonAnswer
                                  (Some (Part000.formatLinksAsHTML text))
                                  "PDF Knowledge Base")))
               | None =>
                   Throw (TypeError
                            "Cannot read properties of null (reading 'replace')")
               end, st2)).
Proof.
  unfold Async.grounded_answer.
  cbn [run Async.bindP Async.await Async.call_of].
  destruct (o _ (Async.ExtSimilaritySearch store message 2) (world st1))
    as [[results|e] w2]; cbn [run Async.bindP];
    [|right; left; now do 2 eexists].
  rewrite !run_bind, !run_await_async.
  destruct (run o (Async.isRelevantPDFContent results message) _)
    as [[[|]|e] st3]; cbn [run Async.retP];
    [|left; now eexists | right; left; now do 2 eexists].
  destruct results as [docs|]; cbn [Async.results_textP Async.bindP run
                                    Async.throwP Async.retP Async.await
                                    Async.call_of];
    [|right; left; now do 2 eexists].
  destruct (o _ (Async.ExtCompletion _) (world st3)) as [[response|e] w4];
    cbn [run Async.bindP Async.of_result Async.message_from Async.index_js
         Async.part_000 Async.retP];
    [|right; left; now do 2 eexists].
  right; right. exists response. eexists. split; [reflexivity|].
  now destruct (Async.reply_content response).
Qed.

Lemma chat_corresponds req (st : ServerState W Store) :
  corresponds (run o (Async.chat Async.index_js req) st)
              (run o (Async.chat Async.part_000 req) st).
Proof.
  destruct (truthy (body_message req)) eqn:Hm.
  - rewrite !run_chat_truthy by exact Hm. rewrite !run_chat_try. cbv zeta.
    destruct (vectorStore (after_index_check o st)) as [store|];
      [|apply fallback_corresponds].
    destruct (grounded_cases store (body_message req) (after_index_check o st))
      as [[st2 [-> ->]] | [[e [st2 [-> ->]]] | [response [st2 [-> ->]]]]].
    + apply fallback_corresponds.
    + solve_corresponds.
    + destruct response as [[text|]]; cbn [Async.reply_content];
        solve_corresponds.
  - rewrite !run_chat_falsy by exact Hm. solve_corresponds.
Qed.

End Correspondence.

(** C10, amended.  For every request, from every state of the process and
    run with no other task in between, when the completion service
    answers the general requests of the two variants alike: both handlers
    respond; where [index.js] sends an error body, [part_000] sends the
    same response; where [index.js] sends an answer whose [message] is a
    text, [part_000] sends the same status and [source] with
    [formatLinksAsHTML] applied to the [message]; where [index.js] sends
    an answer whose [message] is [null], which it does with status 200,
    [part_000] sends the generic 500 and prints the [TypeError] of
    [formatLinksAsHTML].  Both leave the same index and the same world.
    The default ports are 3000 and 5000. *)
Theorem chat_variants_correspond {W Store} (o : @Oracle W Store)
        (req : Request) (st : ServerState W Store) :
  alike o ->
  (exists sent,
      fst (run o (Async.chat Async.index_js req) st) = Ok sent
      /\ fst (run o (Async.chat Async.part_000 req) st) = Ok (part_of sent)
      /\ (forall source,
             Async.sent_body sent = Async.JsonAnswer None source ->
             Async.sent_status sent = 200)
      /\ console (snd (run o (Async.chat Async.part_000 req) st))
         = (console (snd (run o (Async.chat Async.index_js req) st))
            ++ part_errors sent)%list)
  /\ vectorStore (snd (run o (Async.chat Async.part_000 req) st))
     = vectorStore (snd (run o (Async.chat Async.index_js req) st))
  /\ world (snd (run o (Async.chat Async.part_000 req) st))
     = world (snd (run o (Async.chat Async.index_js req) st))
  /\ IndexJs.PORT undefined = JOther true "3000"
  /\ Part000.PORT undefined = JOther true "5000".
Proof.
  intros Halike.
  destruct (chat_corresponds o Halike req st) as [Hsent [Hv Hw]].
  split; [exact Hsent|]. split; [exact Hv|]. split; [exact Hw|]. now split.
Qed.

Lemma chat_variants_correspond_witness :
  fst (run Canned.oracle
         (Async.chat Async.part_000 (mkRequest (JStr "Where are you?")))
         (Canned.boot [Ok (Some "no");
                       Ok (Some "Visit https://theicebutcher.com/ now")]))
  = Ok (Async.mkSent 200
          (Async.JsonAnswer
             (Some (Part000.formatLinksAsHTML
                      "Visit https://theicebutcher.com/ now"))
             "OpenAI General Response")).
Proof.
  destruct (chat_variants_correspond Canned.oracle
              (mkRequest (JStr "Where are you?"))
              (Canned.boot [Ok (Some "no");
                            Ok (Some "Visit https://theicebutcher.com/ now")]))
    as [[sent [Hi [Hp _]]] _].
  - intros question w. reflexivity.
  - rewrite Hp. vm_compute in Hi. inversion Hi. reflexivity.
Defined.

(** C10 as stated fails: the index is ready, the classifier answers no,
    and the general completion resolves with a [null] content, as the API
    allows.  [index.js] responds 200 with a [null] message; [part_000]
    passes [null] to [formatLinksAsHTML], whose [text.replace] throws, and
    responds 500: the status codes differ, and [part_000] has no
    [source]. *)
Lemma chat_null_content_counterexample :
  let req := mkRequest (JStr "Where are you?") in
  let st := mkState (Some tt) [Ok (Some "no"); Ok None] [] [] in
  alike Canned.oracle
  /\ fst (run Canned.oracle (Async.chat Async.index_js req) st)
     = Ok (Async.mkSent 200 (Async.JsonAnswer None "OpenAI General Response"))
  /\ fst (run Canned.oracle (Async.chat Async.part_000 req) st)
     = Ok (Async.mkSent 500 (Async.JsonError "Internal server error")).
Proof.
  cbv zeta. split; [intros question w; reflexivity|].
  split; reflexivity.
Qed.

(** ** Server start *)

(** X6.  The callback of [app.listen], in both variants, prints the port
    and starts the ingestion without waiting for it: when it returns, the
    load of the PDF has been called and nothing else, [vectorStore] and
    the world are as they were, and the ingestion is a task of its own,
    bound to no request.  So a request that passes the message check and
    arrives before that ingestion has set the index starts a second one:
    the PDF is loaded twice.  When its three calls resolve, the ingestion
    started at launch sets the index and prints
    ['PDF initialization complete'] in the turn that follows the
    embedding; when its load is rejected it prints the error and leaves
    the index as it was. *)
Theorem on_listen_starts_ingestion {W Store} (o : @Oracle W Store)
        (v : Async.Variant) (port : jsval) (st : ServerState W Store) :
  let sys := on_listen port st in
  let line := ConsoleLog ("Server running on port " ++ toString port) in
  console (shared sys) = (console st ++ [line])%list
  /\ calls (shared sys) = (calls st ++ [CallLoad "./faqs.pdf"])%list
  /\ vectorStore (shared sys) = vectorStore st
  /\ world (shared sys) = world st
  /\ (exists job,
         jobs sys = [job]
         /\ job_request job = None
         /\ job_calls job = [CallLoad "./faqs.pdf"])
  /\ (forall req sys',
         vectorStore st = None ->
         truthy (body_message req) = true ->
         step o v sys (Arrived req) sys' ->
         vectorStore (shared sys') = None
         /\ calls (shared sys')
            = (calls st ++ [CallLoad "./faqs.pdf"; CallLoad "./faqs.pdf"])%list)
  /\ (forall docs w1 chunks w2 store w3,
         o _ (Async.ExtLoad "./faqs.pdf") (world st) = (Ok docs, w1) ->
         o _ (Async.ExtSplit (mkSplitter ". " 1000 500) docs) w1
         = (Ok chunks, w2) ->
         o _ (Async.ExtFromDocuments chunks) w2 = (Ok store, w3) ->
         exists sys1 sys2 sys3,
           step o v sys (Settled 0 (CallLoad "./faqs.pdf") true) sys1
           /\ vectorStore (shared sys1) = vectorStore st
           /\ step o v sys1
                (Settled 0 (CallSplit (mkSplitter ". " 1000 500)) true) sys2
           /\ vectorStore (shared sys2) = vectorStore st
           /\ step o v sys2 (Settled 0 (CallFromDocuments chunks) true) sys3
           /\ vectorStore (shared sys3) = Some store
           /\ world (shared sys3) = w3
           /\ console (shared sys3)
              = (console st
                 ++ [line; ConsoleLog "PDF initialization complete"])%list
           /\ calls (shared sys3)
              = (calls st
                 ++ [CallLoad "./faqs.pdf";
                     CallSplit (mkSplitter ". " 1000 500);
                     CallFromDocuments chunks])%list)
  /\ (forall e w1,
         o _ (Async.ExtLoad "./faqs.pdf") (world st) = (Throw e, w1) ->
         exists sys1,
           step o v sys (Settled 0 (CallLoad "./faqs.pdf") false) sys1
           /\ vectorStore (shared sys1) = vectorStore st
           /\ console (shared sys1)
              = (console st ++ [line; ConsoleError "Error loading PDF:" e])%list
           /\ calls (shared sys1) = (calls st ++ [CallLoad "./faqs.pdf"])%list).
Proof.
  cbv zeta. unfold on_listen, start_job, turn. cbn.
  split; [reflexivity|]. split; [reflexivity|]. split; [reflexivity|].
  split; [reflexivity|]. split; [eexists; now repeat split|].
  split; [|split].
  - intros req sys' Hv Hm Hstep.
    inversion Hstep as [sys0 req0 job st' Hstart| |]; subst. clear Hstep.
    revert Hstart. unfold start_job, turn. cbn [shared vectorStore console].
    rewrite Hv.
    destruct (@chat_unset_loads Store v req
                (console st
                 ++ [ConsoleLog ("Server running on port " ++ toString port)])%list
                Hm) as [Ha Hs].
    destruct (settle (Async.chat v req) None _) as [p' [index out]].
    cbn in Ha, Hs. inversion Hs; subst. intros Hstart.
    inversion Hstart; subst. cbn. rewrite Ha, <- app_assoc. now split.
  - intros docs w1 chunks w2 store w3 Hl Hs He.
    do 3 eexists.
    split; [eapply (step_settle o v _ 0 _ _ (Async.ExtLoad "./faqs.pdf") _
                      (Ok docs) w1);
            [reflexivity | reflexivity | exact Hl | reflexivity]|].
    cbn. split; [reflexivity|].
    split; [eapply (step_settle o v _ 0 _ _
                      (Async.ExtSplit (mkSplitter ". " 1000 500) docs) _
                      (Ok chunks) w2);
            [reflexivity | reflexivity | exact Hs | reflexivity]|].
    cbn. split; [reflexivity|].
    split; [eapply (step_settle o v _ 0 _ _ (Async.ExtFromDocuments chunks) _
                      (Ok store) w3);
            [reflexivity | reflexivity | exact He | reflexivity]|].
    cbn. rewrite <- !app_assoc. now repeat split.
  - intros e w1 Hl. eexists.
    split; [eapply (step_settle o v _ 0 _ _ (Async.ExtLoad "./faqs.pdf") _
                      (Throw e) w1);
            [reflexivity | reflexivity | exact Hl | reflexivity]|].
    cbn. rewrite <- !app_assoc. now repeat split.
Qed.

Lemma on_listen_starts_ingestion_witness :
  let sys := on_listen (JOther true "3000") (Canned.boot []) in
  exists sys1 sys2 sys3,
    step Canned.oracle Async.index_js sys
         (Settled 0 (CallLoad "./faqs.pdf") true) sys1
    /\ step Canned.oracle Async.index_js sys1
            (Settled 0 (CallSplit (mkSplitter ". " 1000 500)) true) sys2
    /\ step Canned.oracle Async.index_js sys2
            (Settled 0 (CallFromDocuments [Scripted.faq]) true) sys3
    /\ vectorStore (shared sys3) = Some tt.
Proof.
  intros sys.
  destruct (proj1 (proj2 (proj2 (proj2 (proj2 (proj2 (proj2
              (on_listen_starts_ingestion Canned.oracle Async.index_js
                 (JOther true "3000") (Canned.boot []))))))))
             [Scripted.faq] [] [Scripted.faq] [] tt []
             eq_refl eq_refl eq_refl)
    as [sys1 [sys2 [sys3 [H1 [_ [H2 [_ [H3 [Hv _]]]]]]]]].
  exists sys1, sys2, sys3. repeat split; assumption.
Defined.
